(** * Negotiation protocol and transaction settlement

    A shallow embedding of the negotiation engine of the marketplace
    simulation:

    - [models/data_models.py]: the records and their field validators, the
      memory of an agent ([AgentMemory]), the market snapshot and the
      assets of an agent;
    - [agents/base_agent.py]: [evaluate_offer_as_seller],
      [evaluate_counter_as_buyer], [decide_pricing], [evaluate_listings],
      the statistics part of [add_transaction_memory] and the memory
      methods;
    - [agents/inventory_utils.py]: the items of the initial inventory;
    - [negotiation/negotiation_nodes.py]: the six graph nodes;
    - [negotiation/negotiation_engine.py]: the routing functions, the graph,
      [start_negotiation], [_create_transaction], [_complete_transaction];
    - [market/marketplace.py]: the listings, the recorded transactions, the
      market snapshot, the average price and the price trend;
    - [market/coordinator.py]: the loop bodies of the listing, browsing and
      negotiation phases.

    Conventions of the embedding.

    - Python floats are read as exact rationals ([Qc]); NaN and the
      infinities are outside the model.
    - A Python exception is a value [Raise e] of the [result] type; a
      function that cannot raise returns its value directly.
    - The language model behind the two evaluation calls is a parameter of
      the development ([seller_llm], [buyer_llm]): any function from the
      call's arguments to an output, which is either a failure (the call
      raised, or its output did not validate as a [NegotiationDecision]) or
      a decision object.
    - The agents dictionary is a finite map from agent id to agent state;
      the Python objects it holds are shared by reference, so every read
      goes to the current map and every write updates it in program order.
    - Free text (prompts, reasoning, memory summaries, printed output) is
      not modelled, apart from the message text of a decision, whose
      emptiness the nodes test, and the patterns an agent learns. The
      memory of an agent is modelled on its own, beside the agent state.
      Time stamps are omitted; the random identifiers and the random draws
      are arguments. *)

From stdpp Require Import gmap strings list fin_maps numbers sorting.
From Stdlib Require Import QArith Qcanon.

Local Open Scope string_scope.
Local Open Scope Z_scope.

(** ** Exceptions *)

Inductive exn : Type :=
  | KeyError
  | TypeError
  | ValidationError
  | ZeroDivisionError
  | GraphRecursionError.

Inductive result (A : Type) : Type :=
  | Ok (a : A)
  | Raise (e : exn).

Arguments Ok {A} a.
Arguments Raise {A} e.

Definition rbind {A B : Type} (r : result A) (k : A -> result B) : result B :=
  match r with
  | Ok a => k a
  | Raise e => Raise e
  end.

Notation "x <- r ;; k" := (rbind r (fun x => k))
  (at level 100, r at next level, right associativity).

Definition guard (b : bool) (e : exn) : result unit :=
  if b then Ok tt else Raise e.

#[global] Instance exn_eq_dec : EqDecision exn.
Proof. solve_decision. Defined.

(** ** Data model ([models/data_models.py]) *)

Inductive NegotiationAction : Type :=
  | MAKE_OFFER
  | ACCEPT
  | REJECT
  | COUNTER
  | WALK_AWAY.

#[global] Instance NegotiationAction_eq_dec : EqDecision NegotiationAction.
Proof. solve_decision. Defined.

Record Product : Type := mkProduct {
  name : string;
  category : string;
  base_market_value : Qc
}.

Record InventoryItem : Type := mkInventoryItem {
  item_product : Product;
  item_cost_basis : Qc
}.

Record Listing : Type := mkListing {
  listing_id : string;
  lst_seller_id : string;
  lst_product : Product;
  listing_price : Qc;
  minimum_acceptable : Qc
}.

Record Transaction : Type := mkTransaction {
  transaction_id : string;
  txn_buyer_id : string;
  txn_seller_id : string;
  txn_product : Product;
  txn_final_price : Qc;
  txn_cost_basis : Qc;
  negotiation_rounds : Z
}.

(** [Transaction.profit] and [Transaction.margin]. [cost_basis] is positive
    in every validated transaction. *)
Definition profit (t : Transaction) : Qc :=
  (txn_final_price t - txn_cost_basis t)%Qc.

Definition margin (t : Transaction) : Qc :=
  (profit t / txn_cost_basis t * Qc_of_Z 100)%Qc.

Record AgentState : Type := mkAgentState {
  agent_id : string;
  capital : Qc;
  inventory : list InventoryItem;
  total_sales : Z;
  total_purchases : Z;
  total_profit : Qc
}.

(** [AgentState.can_afford]. *)
Definition can_afford (a : AgentState) (price : Qc) : bool :=
  bool_decide (price ≤ capital a)%Qc.

(** The text of a message: either what the decision said, or one of the
    defaults the nodes format from a price. *)
Inductive message_text : Type :=
  | Said (s : string)
  | InitialOfferText (p : Qc) (product_name : string)
  | AcceptText (p : Qc)
  | RejectText (p : Qc)
  | SellerCounterText (p : Qc)
  | BuyerCounterText (p : Qc)
  | PassText.

Record NegotiationMessage : Type := mkNegotiationMessage {
  round_number : Z;
  from_agent : string;
  to_agent : string;
  msg_action : NegotiationAction;
  msg_price : option Qc;
  msg_message : message_text
}.

Record NegotiationDecision : Type := mkNegotiationDecision {
  dec_action : NegotiationAction;
  dec_price : option Qc;
  dec_message : string
}.

Inductive Status : Type :=
  | active
  | accepted
  | rejected
  | walked_away.

#[global] Instance Status_eq_dec : EqDecision Status.
Proof. solve_decision. Defined.

(** ** Validating constructors

    Pydantic checks the [Field] constraints when an object is built; a
    failed check raises [ValidationError]. Assignment to a field of an
    existing object is not validated (no model sets [validate_assignment]). *)

Definition nonempty (s : string) : bool :=
  match s with
  | EmptyString => false
  | String _ _ => true
  end.

Definition positive_price (p : option Qc) : bool :=
  match p with
  | None => true
  | Some q => bool_decide (0 < q)%Qc
  end.

Definition text_nonempty (m : message_text) : bool :=
  match m with
  | Said s => nonempty s
  | _ => true
  end.

(** [NegotiationMessage(...)]: [round_number] in (0, 5], non-empty agent
    ids, a price that is absent or positive, a non-empty message. *)
Definition new_NegotiationMessage (round : Z) (from to : string)
    (action : NegotiationAction) (price : option Qc) (message : message_text)
    : result NegotiationMessage :=
  if bool_decide (0 < round ∧ round ≤ 5) && nonempty from && nonempty to
     && positive_price price && text_nonempty message
  then Ok (mkNegotiationMessage round from to action price message)
  else Raise ValidationError.

(** [InventoryItem(...)]: positive cost, and [cost_must_be_reasonable]:
    between 50% and 100% of the product's base market value. *)
Definition new_InventoryItem (product : Product) (cost_basis : Qc)
    : result InventoryItem :=
  if bool_decide (0 < cost_basis)%Qc
     && negb (bool_decide (cost_basis < base_market_value product * Q2Qc (1 # 2))%Qc)
     && negb (bool_decide (base_market_value product * 1 < cost_basis)%Qc)
  then Ok (mkInventoryItem product cost_basis)
  else Raise ValidationError.

(** [Transaction(...)]: non-empty ids, positive price and cost, rounds in
    (0, 5]. [final_price] is an [Optional[float]] in the negotiation state;
    [None] fails the validation. *)
Definition new_Transaction (id buyer seller : string) (product : Product)
    (cost_basis : Qc) (rounds : Z) (final_price : option Qc)
    : result Transaction :=
  match final_price with
  | None => Raise ValidationError
  | Some fp =>
      if nonempty id && nonempty buyer && nonempty seller
         && bool_decide (0 < fp)%Qc && bool_decide (0 < cost_basis)%Qc
         && bool_decide (0 < rounds ∧ rounds ≤ 5)
      then Ok (mkTransaction id buyer seller product fp cost_basis rounds)
      else Raise ValidationError
  end.

(** ** The negotiation state ([NegotiationState] in [negotiation_nodes.py])

    [current_offer] is declared a float, but the buyer node stores
    [decision.price] in it without a test, so it can hold [None];
    [last_action] holds [None] or the name of an action. *)

Record NegotiationState : Type := mkNegotiationState {
  negotiation_id : string;
  listing : Listing;
  buyer_id : string;
  seller_id : string;
  initial_offer : Qc;
  current_offer : option Qc;
  current_round : Z;
  history : list NegotiationMessage;
  status : Status;
  final_price : option Qc;
  last_action : option NegotiationAction;
  last_message : message_text
}.

Definition set_current_offer (v : option Qc) (s : NegotiationState) :=
  mkNegotiationState (negotiation_id s) (listing s) (buyer_id s) (seller_id s)
    (initial_offer s) v (current_round s) (history s) (status s)
    (final_price s) (last_action s) (last_message s).

Definition set_current_round (v : Z) (s : NegotiationState) :=
  mkNegotiationState (negotiation_id s) (listing s) (buyer_id s) (seller_id s)
    (initial_offer s) (current_offer s) v (history s) (status s)
    (final_price s) (last_action s) (last_message s).

Definition set_history (v : list NegotiationMessage) (s : NegotiationState) :=
  mkNegotiationState (negotiation_id s) (listing s) (buyer_id s) (seller_id s)
    (initial_offer s) (current_offer s) (current_round s) v (status s)
    (final_price s) (last_action s) (last_message s).

Definition set_status (v : Status) (s : NegotiationState) :=
  mkNegotiationState (negotiation_id s) (listing s) (buyer_id s) (seller_id s)
    (initial_offer s) (current_offer s) (current_round s) (history s) v
    (final_price s) (last_action s) (last_message s).

Definition set_final_price (v : option Qc) (s : NegotiationState) :=
  mkNegotiationState (negotiation_id s) (listing s) (buyer_id s) (seller_id s)
    (initial_offer s) (current_offer s) (current_round s) (history s)
    (status s) v (last_action s) (last_message s).

Definition set_last_action (v : option NegotiationAction) (s : NegotiationState) :=
  mkNegotiationState (negotiation_id s) (listing s) (buyer_id s) (seller_id s)
    (initial_offer s) (current_offer s) (current_round s) (history s)
    (status s) (final_price s) v (last_message s).

Definition set_last_message (v : message_text) (s : NegotiationState) :=
  mkNegotiationState (negotiation_id s) (listing s) (buyer_id s) (seller_id s)
    (initial_offer s) (current_offer s) (current_round s) (history s)
    (status s) (final_price s) (last_action s) v.

(** The tail shared by the three offer nodes: [state['history'].append],
    then [last_action] and [last_message]. *)
Definition record_message (m : NegotiationMessage) (s : NegotiationState)
    : NegotiationState :=
  set_last_message (msg_message m)
    (set_last_action (Some (msg_action m))
       (set_history (history s ++ [m]) s)).

(** ** Helpers for the Python idioms the nodes use *)

(** [agents[key]]. *)
Definition getitem (agents : gmap string AgentState) (key : string)
    : result AgentState :=
  match agents !! key with
  | Some a => Ok a
  | None => Raise KeyError
  end.

(** [f"{x:.2f}"] on an [Optional[float]]: [None] has no such format. *)
Definition format_price (p : option Qc) : result Qc :=
  match p with
  | Some q => Ok q
  | None => Raise TypeError
  end.

(** [decision.message or <default>]: the default is only evaluated when the
    message is empty. *)
Definition message_or (m : string) (default : result message_text)
    : result message_text :=
  if nonempty m then Ok (Said m) else default.

(** The loop [for item in inventory: if item.product.name == n: ...; break]. *)
Definition find_item (n : string) (inv : list InventoryItem)
    : option InventoryItem :=
  List.find (fun item => bool_decide (name (item_product item) = n)) inv.

(** Truth value of an [Optional[float]]: [None] and [0.0] are false. *)
Definition truthy (p : option Qc) : bool :=
  match p with
  | Some q => negb (bool_decide (q = 0%Qc))
  | None => false
  end.

(** The loop over [reversed(state['history'])] in the buyer node. *)
Definition buyer_last_offer (s : NegotiationState) : Qc :=
  match List.find
          (fun m => bool_decide (from_agent m = buyer_id s) && truthy (msg_price m))
          (rev (history s)) with
  | Some m => default (initial_offer s) (msg_price m)
  | None => initial_offer s
  end.

(** ** The decision policy and its guards ([agents/base_agent.py]) *)

Inductive llm_output : Type :=
  | LlmFailure
  | LlmDecision (d : NegotiationDecision).

Definition fallback_decision (a : NegotiationAction) : NegotiationDecision :=
  mkNegotiationDecision a None "".

Section Engine.

(** The structured-output call of the seller, with the arguments of
    [evaluate_offer_as_seller], and of the buyer, with those of
    [evaluate_counter_as_buyer]. *)
Variable seller_llm :
  AgentState -> Qc -> Qc -> Qc -> Qc -> string -> Z ->
  list NegotiationMessage -> llm_output.
Variable buyer_llm :
  AgentState -> Qc -> Qc -> Listing -> string -> Z ->
  list NegotiationMessage -> llm_output.

(** The [except] branch of [evaluate_offer_as_seller]. *)
Definition seller_fallback (offer_price minimum_acceptable : Qc)
    : NegotiationDecision :=
  if bool_decide (minimum_acceptable < offer_price)%Qc
  then fallback_decision ACCEPT
  else fallback_decision REJECT.

(** [evaluate_offer_as_seller]. The arithmetic of the prompt comes before
    the [try]: it raises on a missing offer and on a zero divisor. *)
Definition evaluate_offer_as_seller (self : AgentState)
    (offer_price : option Qc) (cost_basis listing_price minimum_acceptable : Qc)
    (buyer : string) (round_num : Z) (negotiation_history : list NegotiationMessage)
    : result NegotiationDecision :=
  offer <- format_price offer_price ;;
  _ <- guard (negb (bool_decide (cost_basis = 0%Qc))) ZeroDivisionError ;;
  _ <- guard (negb (bool_decide (listing_price = 0%Qc))) ZeroDivisionError ;;
  _ <- guard (negb (bool_decide (minimum_acceptable = 0%Qc))) ZeroDivisionError ;;
  match seller_llm self offer cost_basis listing_price minimum_acceptable
          buyer round_num negotiation_history with
  | LlmDecision d => Ok d
  | LlmFailure => Ok (seller_fallback offer minimum_acceptable)
  end.

(** The validation of a buyer counter inside the [try] of
    [evaluate_counter_as_buyer]. Printing a missing price with [:.2f]
    raises inside the [try], which leads to the [except] branch. *)
Definition validate_counter (self : AgentState) (d : NegotiationDecision)
    : NegotiationDecision :=
  if bool_decide (dec_action d = COUNTER) then
    match dec_price d with
    | None => fallback_decision WALK_AWAY
    | Some p =>
        if bool_decide (capital self < p)%Qc
        then mkNegotiationDecision WALK_AWAY None (dec_message d)
        else if bool_decide (p ≤ 0)%Qc
        then mkNegotiationDecision WALK_AWAY None (dec_message d)
        else d
    end
  else d.

(** [evaluate_counter_as_buyer]. *)
Definition evaluate_counter_as_buyer (self : AgentState)
    (counter_price : option Qc) (my_last_offer : Qc) (l : Listing)
    (seller : string) (round_num : Z) (negotiation_history : list NegotiationMessage)
    : result NegotiationDecision :=
  counter <- format_price counter_price ;;
  _ <- guard (negb (bool_decide (my_last_offer = 0%Qc))) ZeroDivisionError ;;
  _ <- guard (negb (bool_decide (listing_price l = 0%Qc))) ZeroDivisionError ;;
  match buyer_llm self counter my_last_offer l seller round_num
          negotiation_history with
  | LlmDecision d => Ok (validate_counter self d)
  | LlmFailure => Ok (fallback_decision WALK_AWAY)
  end.

(** ** The graph nodes ([negotiation/negotiation_nodes.py]) *)

Section Nodes.

Variable agents : gmap string AgentState.

(** [buyer_makes_initial_offer]. *)
Definition buyer_makes_initial_offer (state : NegotiationState)
    : result NegotiationState :=
  message <- new_NegotiationMessage (current_round state) (buyer_id state)
               (seller_id state) MAKE_OFFER (Some (initial_offer state))
               (InitialOfferText (initial_offer state)
                  (name (lst_product (listing state)))) ;;
  Ok (record_message message
        (set_current_offer (Some (initial_offer state)) state)).

(** [seller_evaluates_offer]. *)
Definition seller_evaluates_offer (state : NegotiationState)
    : result NegotiationState :=
  seller <- getitem agents (seller_id state) ;;
  match find_item (name (lst_product (listing state))) (inventory seller) with
  | None => Ok (set_last_action (Some REJECT) (set_status rejected state))
  | Some inventory_item =>
      decision <- evaluate_offer_as_seller seller (current_offer state)
                    (item_cost_basis inventory_item)
                    (listing_price (listing state))
                    (minimum_acceptable (listing state))
                    (buyer_id state) (current_round state) (history state) ;;
      updated <-
        match dec_action decision with
        | ACCEPT =>
            text <- message_or (dec_message decision)
                      (p <- format_price (current_offer state) ;; Ok (AcceptText p)) ;;
            Ok (text, set_final_price (current_offer state)
                        (set_status accepted state))
        | REJECT =>
            text <- message_or (dec_message decision)
                      (p <- format_price (current_offer state) ;; Ok (RejectText p)) ;;
            Ok (text, set_status rejected state)
        | _ =>
            text <- message_or (dec_message decision)
                      (p <- format_price (dec_price decision) ;;
                       Ok (SellerCounterText p)) ;;
            Ok (text, match dec_price decision with
                      | Some p => set_current_offer (Some p) state
                      | None => state
                      end)
        end ;;
      message <- new_NegotiationMessage (current_round state) (seller_id state)
                   (buyer_id state) (dec_action decision) (dec_price decision)
                   updated.1 ;;
      Ok (record_message message updated.2)
  end.

(** [buyer_evaluates_counter]. The round is incremented first. *)
Definition buyer_evaluates_counter (state0 : NegotiationState)
    : result NegotiationState :=
  let state := set_current_round (current_round state0 + 1) state0 in
  buyer <- getitem agents (buyer_id state) ;;
  decision <- evaluate_counter_as_buyer buyer (current_offer state)
                (buyer_last_offer state) (listing state) (seller_id state)
                (current_round state) (history state) ;;
  updated <-
    match dec_action decision with
    | ACCEPT =>
        text <- message_or (dec_message decision)
                  (p <- format_price (current_offer state) ;; Ok (AcceptText p)) ;;
        Ok (text, set_final_price (current_offer state)
                    (set_status accepted state))
    | WALK_AWAY =>
        text <- message_or (dec_message decision) (Ok PassText) ;;
        Ok (text, set_status walked_away state)
    | _ =>
        text <- message_or (dec_message decision)
                  (p <- format_price (dec_price decision) ;;
                   Ok (BuyerCounterText p)) ;;
        Ok (text, set_current_offer (dec_price decision) state)
    end ;;
  message <- new_NegotiationMessage (current_round state) (buyer_id state)
               (seller_id state) (dec_action decision) (dec_price decision)
               updated.1 ;;
  Ok (record_message message updated.2).

(** [check_max_rounds]. *)
Definition check_max_rounds (state : NegotiationState) : NegotiationState :=
  if bool_decide (5 ≤ current_round state)
  then set_last_action (Some REJECT) (set_status rejected state)
  else state.

(** [finalized_success] and [finalized_failure] only print. *)
Definition finalized_success (state : NegotiationState) : NegotiationState :=
  state.

Definition finalized_failure (state : NegotiationState) : NegotiationState :=
  state.

(** ** The graph ([NegotiationEngine.build_graph]) *)

Inductive node : Type :=
  | buyer_offer
  | seller_evaluates
  | buyer_evaluates
  | check_rounds
  | success
  | failure
  | END.

#[global] Instance node_eq_dec : EqDecision node.
Proof. solve_decision. Defined.

Inductive route : Type :=
  | to_success
  | to_failure
  | to_continue.

Definition _route_seller_decision (state : NegotiationState) : route :=
  match last_action state with
  | Some ACCEPT => to_success
  | Some REJECT => to_failure
  | _ => to_continue
  end.

Definition _route_buyer_decision (state : NegotiationState) : route :=
  match last_action state with
  | Some ACCEPT => to_success
  | Some WALK_AWAY => to_failure
  | _ => to_continue
  end.

Definition _route_after_round_check (state : NegotiationState) : route :=
  match status state with
  | accepted => to_success
  | rejected | walked_away => to_failure
  | active => to_continue
  end.

(** The targets given to [add_conditional_edges]. *)
Definition follow (r : route) (continue : node) : node :=
  match r with
  | to_success => success
  | to_failure => failure
  | to_continue => continue
  end.

(** The function a node runs. *)
Definition run_node (n : node) (state : NegotiationState)
    : result NegotiationState :=
  match n with
  | buyer_offer => buyer_makes_initial_offer state
  | seller_evaluates => seller_evaluates_offer state
  | buyer_evaluates => buyer_evaluates_counter state
  | check_rounds => Ok (check_max_rounds state)
  | success => Ok (finalized_success state)
  | failure => Ok (finalized_failure state)
  | END => Ok state
  end.

(** The edge taken after a node, from the state the node returned. *)
Definition next_node (n : node) (state : NegotiationState) : node :=
  match n with
  | buyer_offer => seller_evaluates
  | seller_evaluates => follow (_route_seller_decision state) buyer_evaluates
  | buyer_evaluates => follow (_route_buyer_decision state) check_rounds
  | check_rounds => follow (_route_after_round_check state) seller_evaluates
  | success | failure | END => END
  end.

(** One super-step of the graph: run the node, then choose the edge. *)
Definition graph_step (n : node) (state : NegotiationState)
    : result (node * NegotiationState) :=
  state' <- run_node n state ;;
  Ok (next_node n state', state').

(** [graph.invoke]: the graph runs until [END]; the library stops a run that
    takes more super-steps than its recursion limit, with an error. *)
Fixpoint run_graph (limit : nat) (n : node) (state : NegotiationState)
    : result NegotiationState :=
  match n with
  | END => Ok state
  | _ =>
      match limit with
      | O => Raise GraphRecursionError
      | S limit' =>
          c <- graph_step n state ;;
          run_graph limit' c.1 c.2
      end
  end.

(** The default [recursion_limit] of the graph library. *)
Definition recursion_limit : nat := 25.

Definition invoke (initial_state : NegotiationState) : result NegotiationState :=
  run_graph recursion_limit buyer_offer initial_state.

End Nodes.

(** ** The marketplace ([market/marketplace.py]) *)

Record Marketplace : Type := mkMarketplace {
  active_listings : gmap string Listing;
  removed_listings : list Listing;
  completed_transactions : list Transaction
}.

Definition get_listing (m : Marketplace) (id : string) : option Listing :=
  active_listings m !! id.

Definition remove_listing (id : string) (m : Marketplace) : Marketplace :=
  match active_listings m !! id with
  | Some l =>
      mkMarketplace (delete id (active_listings m)) (removed_listings m ++ [l])
        (completed_transactions m)
  | None => m
  end.

Definition record_transaction (t : Transaction) (m : Marketplace) : Marketplace :=
  mkMarketplace (active_listings m) (removed_listings m)
    (completed_transactions m ++ [t]).

(** ** Settlement ([negotiation/negotiation_engine.py]) *)

#[global] Instance Product_eq_dec : EqDecision Product.
Proof. solve_decision. Defined.

#[global] Instance InventoryItem_eq_dec : EqDecision InventoryItem.
Proof. solve_decision. Defined.

(** [list.remove(x)]: drops the first element equal to [x]. *)
Fixpoint list_remove_first (x : InventoryItem) (l : list InventoryItem)
    : list InventoryItem :=
  match l with
  | [] => []
  | y :: l' => if decide (y = x) then l' else y :: list_remove_first x l'
  end.

Definition set_capital (v : Qc) (a : AgentState) : AgentState :=
  mkAgentState (agent_id a) v (inventory a) (total_sales a)
    (total_purchases a) (total_profit a).

Definition set_inventory (v : list InventoryItem) (a : AgentState) : AgentState :=
  mkAgentState (agent_id a) (capital a) v (total_sales a)
    (total_purchases a) (total_profit a).

(** The statistics part of [BaseAgent.add_transaction_memory]; the role is
    decided by the agent's own [agent_id]. *)
Definition add_transaction_memory (t : Transaction) (a : AgentState) : AgentState :=
  if bool_decide (txn_seller_id t = agent_id a)
  then mkAgentState (agent_id a) (capital a) (inventory a) (total_sales a + 1)
         (total_purchases a) (total_profit a + profit t)%Qc
  else mkAgentState (agent_id a) (capital a) (inventory a) (total_sales a)
         (total_purchases a + 1) (total_profit a).

(** [_create_transaction]. The identifier is ["trx_"] followed by eight
    hexadecimal digits, here the argument [uuid]. *)
Definition _create_transaction (agents : gmap string AgentState)
    (uuid : string) (state : NegotiationState) : result Transaction :=
  seller <- getitem agents (seller_id state) ;;
  let cost_basis :=
    match find_item (name (lst_product (listing state))) (inventory seller) with
    | Some item => item_cost_basis item
    | None => (listing_price (listing state) * Q2Qc (3 # 4))%Qc
    end in
  new_Transaction ("trx_" +:+ uuid) (buyer_id state) (seller_id state)
    (lst_product (listing state)) cost_basis (current_round state)
    (final_price state).

(** [_complete_transaction]. The function mutates the agents in place, so
    an exception half way leaves the earlier writes: the result is the
    agents map reached together with the outcome. The buyer and the seller
    are looked up once; both names then refer to the entries of the map. *)
Definition _complete_transaction (agents : gmap string AgentState)
    (t : Transaction) : gmap string AgentState * result unit :=
  match agents !! txn_buyer_id t, agents !! txn_seller_id t with
  | None, _ | _, None => (agents, Raise KeyError)
  | Some _, Some seller =>
      let moved :=
        match find_item (name (txn_product t)) (inventory seller) with
        | None => (agents, Ok tt)
        | Some item_to_remove =>
            let agents1 :=
              alter (fun a => set_inventory
                                (list_remove_first item_to_remove (inventory a)) a)
                (txn_seller_id t) agents in
            match new_InventoryItem (txn_product t) (txn_cost_basis t) with
            | Raise e => (agents1, Raise e)
            | Ok item =>
                (alter (fun a => set_inventory (inventory a ++ [item]) a)
                   (txn_buyer_id t) agents1, Ok tt)
            end
        end in
      match moved.2 with
      | Raise e => (moved.1, Raise e)
      | Ok _ =>
          let agents3 :=
            alter (fun a => set_capital (capital a + txn_cost_basis t)%Qc a)
              (txn_buyer_id t) moved.1 in
          let agents4 :=
            alter (fun a => set_capital (capital a - txn_cost_basis t)%Qc a)
              (txn_seller_id t) agents3 in
          let agents5 := alter (add_transaction_memory t) (txn_buyer_id t) agents4 in
          let agents6 := alter (add_transaction_memory t) (txn_seller_id t) agents5 in
          (agents6, Ok tt)
      end
  end.

(** ** [start_negotiation] *)

Record World : Type := mkWorld {
  agents : gmap string AgentState;
  marketplace : Marketplace
}.

(** The three dictionaries [start_negotiation] returns. The [except] branch
    reports zero rounds and an empty history. *)
Inductive NegotiationResult : Type :=
  | Succeeded (transaction : Transaction) (price : option Qc) (rounds : Z)
      (messages : list NegotiationMessage)
  | Failed (reason : Status) (rounds : Z) (messages : list NegotiationMessage)
  | Errored (e : exn).

Definition result_rounds (r : NegotiationResult) : Z :=
  match r with
  | Succeeded _ _ rounds _ => rounds
  | Failed _ rounds _ => rounds
  | Errored _ => 0
  end.

Definition result_success (r : NegotiationResult) : bool :=
  match r with
  | Succeeded _ _ _ _ => true
  | _ => false
  end.

Definition initial_state (neg_uuid buyer : string) (l : Listing)
    (offer : Qc) : NegotiationState :=
  mkNegotiationState ("neg_" +:+ neg_uuid) l buyer (lst_seller_id l) offer
    (Some offer) 1 [] active None None (Said "").

Definition start_negotiation (w : World) (neg_uuid trx_uuid : string)
    (buyer : string) (l : Listing) (offer : Qc) : World * NegotiationResult :=
  match invoke (agents w) (initial_state neg_uuid buyer l offer) with
  | Raise e => (w, Errored e)
  | Ok final_state =>
      if bool_decide (status final_state = accepted) then
        match _create_transaction (agents w) trx_uuid final_state with
        | Raise e => (w, Errored e)
        | Ok transaction =>
            let m := record_transaction transaction
                       (remove_listing (listing_id l) (marketplace w)) in
            let done := _complete_transaction (agents w) transaction in
            match done.2 with
            | Raise e => (mkWorld done.1 m, Errored e)
            | Ok _ =>
                (mkWorld done.1 m,
                 Succeeded transaction (final_price final_state)
                   (current_round final_state) (history final_state))
            end
        end
      else
        match agents w !! buyer, agents w !! lst_seller_id l with
        | Some _, Some _ =>
            (w, Failed (status final_state) (current_round final_state)
                  (history final_state))
        | _, _ => (w, Errored KeyError)
        end
  end.

(** ** The checks of the coordinator before a session
    ([MarketCoordinator.run_negotiation_phase]) *)

Record Opportunity : Type := mkOpportunity {
  opp_buyer_id : string;
  opp_listing : Listing;
  offered_price : Qc
}.

(** One turn of the loop over the opportunities: [None] when the
    opportunity is skipped. A buyer missing from the agents map raises
    outside any [try]; the model treats it as skipped as well. *)
Definition run_opportunity (w : World) (neg_uuid trx_uuid : string)
    (o : Opportunity) : option (World * NegotiationResult) :=
  match get_listing (marketplace w) (listing_id (opp_listing o)) with
  | None => None
  | Some l =>
      match agents w !! opp_buyer_id o with
      | None => None
      | Some buyer =>
          if bool_decide (capital buyer < offered_price o)%Qc then None
          else Some (start_negotiation w neg_uuid trx_uuid (opp_buyer_id o) l
                       (offered_price o))
      end
  end.

(** ** Observation points of a session

    A configuration is a node about to run together with the state it
    receives; [END] carries the state the graph returns. The reachable
    configurations of a session are those the graph passes through from its
    entry point. *)

Inductive reachable (agents : gmap string AgentState) (init : NegotiationState)
    : node -> NegotiationState -> Prop :=
  | reachable_start : reachable agents init buyer_offer init
  | reachable_step n st n' st' :
      reachable agents init n st ->
      n <> END ->
      graph_step agents n st = Ok (n', st') ->
      reachable agents init n' st'.

(** What holds of the state at each node of a session. *)
Definition node_inv (n : node) (st : NegotiationState) : Prop :=
  (1 ≤ current_round st ∧ current_round st ≤ 5) ∧
  match n with
  | buyer_offer => current_round st = 1 ∧ status st = active
  | seller_evaluates | buyer_evaluates =>
      current_round st ≤ 4 ∧ status st = active
  | check_rounds => status st = active
  | success =>
      status st = accepted ∧ final_price st = current_offer st
      ∧ is_Some (final_price st)
  | failure => status st = rejected ∨ status st = walked_away
  | END =>
      status st <> active
      ∧ (status st = accepted ->
         final_price st = current_offer st ∧ is_Some (final_price st))
  end.

(** An upper bound on the super-steps left from a configuration. *)
Definition steps_left (n : node) (st : NegotiationState) : nat :=
  let rounds_left := Z.to_nat (5 - current_round st) in
  match n with
  | buyer_offer => 3 * rounds_left + 2
  | seller_evaluates => 3 * rounds_left + 1
  | buyer_evaluates => 3 * rounds_left
  | check_rounds => 3 * rounds_left + 2
  | success | failure => 1
  | END => 0
  end.

(** The state change of the seller node once it holds a decision, and of
    the buyer node likewise (the round already incremented). *)
Definition seller_update (d : NegotiationDecision) (st : NegotiationState)
    : NegotiationState :=
  match dec_action d with
  | ACCEPT => set_final_price (current_offer st) (set_status accepted st)
  | REJECT => set_status rejected st
  | _ => match dec_price d with
         | Some p => set_current_offer (Some p) st
         | None => st
         end
  end.

Definition buyer_update (d : NegotiationDecision) (st : NegotiationState)
    : NegotiationState :=
  match dec_action d with
  | ACCEPT => set_final_price (current_offer st) (set_status accepted st)
  | WALK_AWAY => set_status walked_away st
  | _ => set_current_offer (dec_price d) st
  end.

(** A counter the buyer may not make: no price, a price above the capital,
    or a price that is not positive. *)
Definition bad_counter (buyer : AgentState) (price : option Qc) : Prop :=
  match price with
  | None => True
  | Some p => (capital buyer < p)%Qc ∨ (p ≤ 0)%Qc
  end.

(** Policies that counter at every call made on behalf of the given agent:
    the seller with a positive price, the buyer with a positive price
    within its capital. *)
Definition seller_always_counters (self : AgentState) : Prop :=
  forall offer cost lp ma b r h,
    exists d p, seller_llm self offer cost lp ma b r h = LlmDecision d
                ∧ dec_action d = COUNTER ∧ dec_price d = Some p ∧ (0 < p)%Qc.

Definition buyer_always_counters (self : AgentState) : Prop :=
  forall counter last l s r h,
    exists d p, buyer_llm self counter last l s r h = LlmDecision d
                ∧ dec_action d = COUNTER ∧ dec_price d = Some p
                ∧ (0 < p)%Qc ∧ (p ≤ capital self)%Qc.

End Engine.

(** ** Concrete sessions used to exercise the statements *)

Definition usd (n : Z) : Qc := Qc_of_Z n.

Definition desk : Product := mkProduct "Desk_Standing_412" "Furniture" (usd 100).

Definition desk_listing : Listing :=
  mkListing "listing_1a2b3c4d" "agent_001" desk (usd 100) (usd 80).

Definition agent_of (id : string) (cap : Qc) (inv : list InventoryItem)
    : AgentState :=
  mkAgentState id cap inv 0 0 0%Qc.

Definition two_agents (seller_capital buyer_capital : Qc)
    (seller_inventory : list InventoryItem) : gmap string AgentState :=
  <["agent_001" := agent_of "agent_001" seller_capital seller_inventory]>
    (<["agent_002" := agent_of "agent_002" buyer_capital []]> ∅).

Definition desk_market : Marketplace :=
  mkMarketplace (<["listing_1a2b3c4d" := desk_listing]> ∅) [] [].

Definition desk_world (seller_capital buyer_capital : Qc) : World :=
  mkWorld (two_agents seller_capital buyer_capital [mkInventoryItem desk (usd 60)])
    desk_market.

(** Scripted policies. *)
Definition seller_says (d : NegotiationDecision)
    : AgentState -> Qc -> Qc -> Qc -> Qc -> string -> Z ->
      list NegotiationMessage -> llm_output :=
  fun _ _ _ _ _ _ _ _ => LlmDecision d.

Definition buyer_says (d : NegotiationDecision)
    : AgentState -> Qc -> Qc -> Listing -> string -> Z ->
      list NegotiationMessage -> llm_output :=
  fun _ _ _ _ _ _ _ => LlmDecision d.

Definition seller_fails
    : AgentState -> Qc -> Qc -> Qc -> Qc -> string -> Z ->
      list NegotiationMessage -> llm_output :=
  fun _ _ _ _ _ _ _ _ => LlmFailure.

Definition buyer_fails
    : AgentState -> Qc -> Qc -> Listing -> string -> Z ->
      list NegotiationMessage -> llm_output :=
  fun _ _ _ _ _ _ _ => LlmFailure.

Definition counter_at (p : Z) : NegotiationDecision :=
  mkNegotiationDecision COUNTER (Some (usd p)) "".

Definition accept_it : NegotiationDecision :=
  mkNegotiationDecision ACCEPT None "".

(** The capital of an agent of a world, if the agent exists. *)
Definition capital_of (w : World) (id : string) : option Qc :=
  capital <$> agents w !! id.

(** The state of a session between the given buyer and the seller of the
    given listing that is still open, with an offer on the table. *)
Definition open_session (buyer : string) (l : Listing) (offer : Qc)
    (st : NegotiationState) : Prop :=
  buyer_id st = buyer ∧ seller_id st = lst_seller_id l ∧ listing st = l
  ∧ initial_offer st = offer ∧ status st = active
  ∧ is_Some (current_offer st).

(** The state a run returned, or a default when the run raised. *)
Definition returned (r : result NegotiationState) (default : NegotiationState)
    : NegotiationState :=
  match r with
  | Ok st => st
  | Raise _ => default
  end.

(** Scenario A of the specification: asking price 100, minimum 80, the
    buyer opens at 70, the seller counters at 90 and the buyer accepts. *)
Definition scenario_A_initial : NegotiationState :=
  initial_state "0a1b2c3d" "agent_002" desk_listing (usd 70).

Definition scenario_A_final : NegotiationState :=
  returned
    (invoke (seller_says (counter_at 90)) (buyer_says accept_it)
       (agents (desk_world (usd 5000) (usd 5000))) scenario_A_initial)
    scenario_A_initial.

(** Scenario C of the specification: the seller no longer holds the listed
    product when its evaluation runs. *)
Definition empty_handed : gmap string AgentState :=
  two_agents (usd 5000) (usd 5000) [].

Definition scenario_C_state : NegotiationState :=
  returned (buyer_makes_initial_offer scenario_A_initial) scenario_A_initial.

(** Scenario D of the specification: the buyer has a capital of 50 and
    opens at 40; the seller counters at 90. *)
Definition scenario_D_agents : gmap string AgentState :=
  agents (desk_world (usd 5000) (usd 50)).

Definition scenario_D_initial : NegotiationState :=
  initial_state "0a1b2c3d" "agent_002" desk_listing (usd 40).

Definition scenario_D_offered : NegotiationState :=
  returned (buyer_makes_initial_offer scenario_D_initial) scenario_D_initial.

Definition scenario_D_countered : NegotiationState :=
  returned
    (seller_evaluates_offer (seller_says (counter_at 90)) scenario_D_agents
       scenario_D_offered)
    scenario_D_offered.

(** The same transaction with another agreed price. *)
Definition set_txn_final_price (v : Qc) (t : Transaction) : Transaction :=
  mkTransaction (transaction_id t) (txn_buyer_id t) (txn_seller_id t)
    (txn_product t) v (txn_cost_basis t) (negotiation_rounds t).

(** The capital of every agent of a map. *)
Definition capitals (m : gmap string AgentState) : gmap string Qc :=
  capital <$> m.

(** A seller short of cash: capital 50, holding the desk bought at 60; the
    buyer offers 85 and the seller's policy accepts. *)
Definition poor_seller_world : World := desk_world (usd 50) (usd 5000).

Definition poor_seller_run : option (World * NegotiationResult) :=
  run_opportunity (seller_says accept_it) buyer_fails poor_seller_world
    "0a1b2c3d" "4e5f6a7b" (mkOpportunity "agent_002" desk_listing (usd 85)).

(** A buyer short of cash: capital 50, opening at 40; the seller counters
    at 90 and the buyer's policy accepts. *)
Definition poor_buyer_world : World := desk_world (usd 5000) (usd 50).

Definition poor_buyer_run : option (World * NegotiationResult) :=
  run_opportunity (seller_says (counter_at 90)) (buyer_says accept_it)
    poor_buyer_world "0a1b2c3d" "4e5f6a7b"
    (mkOpportunity "agent_002" desk_listing (usd 40)).

(** The outcome of a run of the coordinator's loop body, read off: whether
    a transaction was made, its price, and the capital of an agent after
    the run. *)
Definition run_price (r : option (World * NegotiationResult)) : option Qc :=
  match r with
  | Some (_, Succeeded t _ _ _) => Some (txn_final_price t)
  | _ => None
  end.

Definition run_capital (r : option (World * NegotiationResult)) (id : string)
    : option Qc :=
  match r with
  | Some (w, _) => capital_of w id
  | None => None
  end.

(** The sale of the desk at 90 after two rounds, as a transaction. *)
Definition desk_sale : Transaction :=
  mkTransaction "trx_4e5f6a7b" "agent_002" "agent_001" desk (usd 90) (usd 60) 2.

Definition desk_sale_settled : gmap string AgentState :=
  (_complete_transaction (agents (desk_world (usd 5000) (usd 5000))) desk_sale).1.

(** ** What a session keeps fixed, and the shape of its history *)

(** The parties, the listing and the opening offer of a state. *)
Definition same_parties (buyer : string) (l : Listing) (offer : Qc)
    (st : NegotiationState) : Prop :=
  buyer_id st = buyer ∧ seller_id st = lst_seller_id l ∧ listing st = l
  ∧ initial_offer st = offer.

(** The message at position [i] of the history (from 0): the parties take
    turns, the buyer first, and two messages share each round number. *)
Definition message_at (buyer seller : string) (i : nat)
    (m : NegotiationMessage) : Prop :=
  round_number m = Z.div (Z.of_nat i) 2 + 1
  ∧ ((Z.modulo (Z.of_nat i) 2 = 0 ∧ from_agent m = buyer ∧ to_agent m = seller)
     ∨ (Z.modulo (Z.of_nat i) 2 = 1 ∧ from_agent m = seller
        ∧ to_agent m = buyer)).

Definition history_ok (buyer seller : string) (h : list NegotiationMessage)
    : Prop :=
  forall i m, h !! i = Some m -> message_at buyer seller i m.

(** The message the buyer's opening node records. *)
Definition opening_message (buyer : string) (l : Listing) (offer : Qc)
    : NegotiationMessage :=
  mkNegotiationMessage 1 buyer (lst_seller_id l) MAKE_OFFER (Some offer)
    (InitialOfferText offer (name (lst_product l))).

(** The seller of the listing holds an item with the product name of the
    listing. *)
Definition seller_has_item (agents : gmap string AgentState) (l : Listing)
    : Prop :=
  exists seller item,
    agents !! lst_seller_id l = Some seller
    ∧ find_item (name (lst_product l)) (inventory seller) = Some item.

(** The number of messages at each node, from the round [r] of the state. *)
Definition history_count (n : node) (st : NegotiationState) : Prop :=
  let len := Z.of_nat (length (history st)) in
  let r := current_round st in
  match n with
  | buyer_offer => len = 0
  | seller_evaluates | check_rounds => len = 2 * r - 1
  | buyer_evaluates => len = 2 * r
  | success | failure | END => 1 ≤ len ∧ len ≤ 2 * r ∧ len ≤ 9
  end.

Definition session_inv (agents : gmap string AgentState) (buyer : string)
    (l : Listing) (offer : Qc) (n : node) (st : NegotiationState) : Prop :=
  same_parties buyer l offer st
  ∧ history_ok buyer (lst_seller_id l) (history st)
  ∧ history_count n st
  ∧ (n <> buyer_offer ->
     head (history st) = Some (opening_message buyer l offer))
  ∧ (n = buyer_evaluates ∨ n = check_rounds ∨ n = success
     ∨ (n = END ∧ status st = accepted) ->
     seller_has_item agents l)
  ∧ (n <> buyer_offer ->
     forall p, current_offer st = Some p -> (0 < p)%Qc).

(** The buyer's policy keeps to the three actions of its contract. *)
Definition buyer_keeps_contract
    (buyer_llm : AgentState -> Qc -> Qc -> Listing -> string -> Z ->
                 list NegotiationMessage -> llm_output) : Prop :=
  forall self counter last l s r h d,
    buyer_llm self counter last l s r h = LlmDecision d ->
    dec_action d = ACCEPT ∨ dec_action d = WALK_AWAY ∨ dec_action d = COUNTER.

(** The offer on the table is positive and within the capital of the
    given agent. *)
Definition offer_affordable (buyer_st : AgentState) (st : NegotiationState)
    : Prop :=
  exists p, current_offer st = Some p ∧ (0 < p)%Qc ∧ (p ≤ capital buyer_st)%Qc.

(** Scenario A run through [start_negotiation], and the same opening
    against a buyer whose policy call fails, so that the buyer walks away. *)
Definition scenario_A_run : World * NegotiationResult :=
  start_negotiation (seller_says (counter_at 90)) (buyer_says accept_it)
    (desk_world (usd 5000) (usd 5000)) "0a1b2c3d" "4e5f6a7b" "agent_002"
    desk_listing (usd 70).

Definition walk_away_run : World * NegotiationResult :=
  start_negotiation (seller_says (counter_at 90)) buyer_fails
    (desk_world (usd 5000) (usd 5000)) "0a1b2c3d" "4e5f6a7b" "agent_002"
    desk_listing (usd 70).

(** The entries of the dictionary [start_negotiation] returns. *)
Definition result_transaction (r : NegotiationResult) (default : Transaction)
    : Transaction :=
  match r with
  | Succeeded t _ _ _ => t
  | _ => default
  end.

Definition result_price (r : NegotiationResult) : option Qc :=
  match r with
  | Succeeded _ p _ _ => p
  | _ => None
  end.

Definition result_history (r : NegotiationResult) : list NegotiationMessage :=
  match r with
  | Succeeded _ _ _ h | Failed _ _ h => h
  | Errored _ => []
  end.

Definition result_reason (r : NegotiationResult) : Status :=
  match r with
  | Failed s _ _ => s
  | _ => active
  end.

(** ** Assets of an agent ([AgentState] in [models/data_models.py]) *)

(** [sum(f(x) for x in l)]: the additions are made from the left,
    starting from 0. *)
Definition sum_of {A : Type} (f : A -> Qc) (l : list A) : Qc :=
  fold_left (fun acc x => (acc + f x)%Qc) l 0%Qc.



(** A sale of the desk booked with a cost basis of 30, below half of the
    market value of the desk. *)
Definition desk_sale_underpriced : Transaction :=
  mkTransaction "trx_4e5f6a7b" "agent_002" "agent_001" desk (usd 90) (usd 30) 2.

(** ** Posting and browsing listings ([market/marketplace.py])

    [active_listings] is a dictionary; the lists taken from it below come
    in the order of the map, not in the insertion order of the dictionary.
    The statements about them speak of membership only. *)

(** [Listing(...)]: non-empty ids and reasoning, positive prices, and
    [min_acceptable_must_be_less_than_listing]. *)
Definition new_Listing (id seller : string) (product : Product)
    (price minimum : Qc) (reasoning : string) : result Listing :=
  if nonempty id && nonempty seller && bool_decide (0 < price)%Qc
     && bool_decide (0 < minimum)%Qc
     && negb (bool_decide (price < minimum)%Qc) && nonempty reasoning
  then Ok (mkListing id seller product price minimum)
  else Raise ValidationError.

(** [post_listing]. The identifier is ["listing_"] followed by eight
    hexadecimal digits, here the argument [uuid]. *)
Definition post_listing (uuid seller : string) (product : Product)
    (price minimum : Qc) (reasoning : string) (m : Marketplace)
    : result (Marketplace * Listing) :=
  l <- new_Listing ("listing_" +:+ uuid) seller product price minimum
         reasoning ;;
  Ok (mkMarketplace (<[listing_id l := l]> (active_listings m))
        (removed_listings m) (completed_transactions m), l).

Definition get_all_listings (m : Marketplace) : list Listing :=
  (map_to_list (active_listings m)).*2.

Definition get_listings_by_category (m : Marketplace) (c : string)
    : list Listing :=
  filter (fun l => category (lst_product l) = c) (get_all_listings m).

Definition get_listings_excluding_seller (m : Marketplace) (seller : string)
    : list Listing :=
  filter (fun l => lst_seller_id l <> seller) (get_all_listings m).

(** The value [remove_listing] returns. *)
Definition remove_listing_found (id : string) (m : Marketplace) : bool :=
  bool_decide (is_Some (active_listings m !! id)).

(** Every active listing is stored under its own identifier. *)
Definition market_wf (m : Marketplace) : Prop :=
  forall id l, active_listings m !! id = Some l -> listing_id l = id.


(** ** Market data ([MarketSnapshot] in [models/data_models.py]) *)

Record MarketSnapshot : Type := mkMarketSnapshot {
  active_listings_count : nat;
  recent_transactions : list Transaction
}.

(** [get_market_snapshot]: the last 20 completed transactions. *)
Definition get_market_snapshot (m : Marketplace) : MarketSnapshot :=
  mkMarketSnapshot (size (active_listings m))
    (drop (length (completed_transactions m) - 20) (completed_transactions m)).



(** ** Browsing ([BaseAgent.evaluate_listings] and
    [MarketCoordinator.run_browsing_phase]) *)

Record BuyerDecision : Type := mkBuyerDecision {
  interested : bool;
  listing_number : option Z;
  offer_price : option Qc
}.

Inductive browse_output : Type :=
  | BrowseFailure
  | BrowseDecision (d : BuyerDecision).

Section Browsing.

(** The structured-output call of [evaluate_listings]. *)
Variable listings_llm :
  AgentState -> list Listing -> MarketSnapshot -> browse_output.

(** [evaluate_listings]: the listing chosen and the price offered, or
    [None]. Every exception inside the [try] leads to [None]. *)
Definition evaluate_listings (self : AgentState)
    (available_listings : list Listing) (market_snapshot : MarketSnapshot)
    : option (Listing * Qc) :=
  match available_listings with
  | [] => None
  | _ =>
      match listings_llm self available_listings market_snapshot with
      | BrowseFailure => None
      | BrowseDecision decision =>
          match interested decision, listing_number decision with
          | true, Some n =>
              if bool_decide (n < 1 ∨ Z.of_nat (length available_listings) < n)
              then None
              else
                match available_listings !! Z.to_nat (n - 1) with
                | None => None
                | Some target_listing =>
                    match offer_price decision with
                    | None => None
                    | Some p =>
                        if bool_decide (p ≤ 0)%Qc then None
                        else if bool_decide (capital self < p)%Qc then None
                        else Some (target_listing, p)
                    end
                end
          | _, _ => None
          end
      end
  end.

(** The body of the loop of [run_browsing_phase] for the agent stored
    under [key]. *)
Definition browse (w : World) (snapshot : MarketSnapshot) (key : string)
    (agent : AgentState) : option Opportunity :=
  if bool_decide (capital agent < Qc_of_Z 200)%Qc then None
  else if bool_decide (5 ≤ length (inventory agent))%nat then None
  else
    match get_listings_excluding_seller (marketplace w) key with
    | [] => None
    | available_listings =>
        match evaluate_listings agent available_listings snapshot with
        | None => None
        | Some (l, p) => Some (mkOpportunity (agent_id agent) l p)
        end
    end.

(** [run_browsing_phase]: the opportunities of all agents, from one
    snapshot of the market. *)
Definition run_browsing_phase (w : World) : list Opportunity :=
  omap (fun entry => browse w (get_market_snapshot (marketplace w))
                       entry.1 entry.2)
    (map_to_list (agents w)).

End Browsing.

Definition empty_market : Marketplace := mkMarketplace ∅ [] [].

(** A buyer policy that picks the first listing and offers 70. *)
Definition pick_first
    : AgentState -> list Listing -> MarketSnapshot -> browse_output :=
  fun _ _ _ => BrowseDecision (mkBuyerDecision true (Some 1) (Some (usd 70))).

Definition desk_opportunity : Opportunity :=
  mkOpportunity "agent_002" desk_listing (usd 70).

(** ** Pricing and the listing phase ([BaseAgent.decide_pricing] and
    [MarketCoordinator.run_listing_phase]) *)

Record PricingDecision : Type := mkPricingDecision {
  pd_listing_price : Qc;
  pd_minimum_acceptable : Qc;
  pd_reasoning : string
}.

(** [PricingDecision(...)]: positive prices, [validate_minimum], and a
    reasoning of at least ten characters. *)
Definition new_PricingDecision (price minimum : Qc) (reasoning : string)
    : result PricingDecision :=
  if bool_decide (0 < price)%Qc && bool_decide (0 < minimum)%Qc
     && negb (bool_decide (price < minimum)%Qc)
     && bool_decide (10 ≤ String.length reasoning)%nat
  then Ok (mkPricingDecision price minimum reasoning)
  else Raise ValidationError.

(** The structured-output call of [decide_pricing]: the fields the model
    proposes, from which the [PricingDecision] is built, or an exception. *)
Inductive pricing_output : Type :=
  | PricingProposal (price minimum : Qc) (reasoning : string)
  | PricingRaises (e : exn).

Section Listing.

Variable pricing_llm :
  AgentState -> InventoryItem -> option Qc -> pricing_output.

(** The [except ValidationError] branch of [decide_pricing]: 1.2 and 1.1
    times the cost basis. *)
Definition pricing_fallback (item : InventoryItem) : result PricingDecision :=
  new_PricingDecision (item_cost_basis item * Q2Qc (6 # 5))%Qc
    (item_cost_basis item * Q2Qc (11 # 10))%Qc
    "Fallback pricing due to validation error".

(** [decide_pricing]. Only [ValidationError] is caught. *)
Definition decide_pricing (self : AgentState) (item : InventoryItem)
    (market_avg_price : option Qc) : result PricingDecision :=
  let attempt :=
    match pricing_llm self item market_avg_price with
    | PricingProposal price minimum reasoning =>
        new_PricingDecision price minimum reasoning
    | PricingRaises e => Raise e
    end in
  match attempt with
  | Ok decision => Ok decision
  | Raise ValidationError => pricing_fallback item
  | Raise e => Raise e
  end.


End Listing.

(** A pricing policy whose answer fails the validation: a minimum above
    the asking price. *)
Definition prices_upside_down
    : AgentState -> InventoryItem -> option Qc -> pricing_output :=
  fun _ _ _ => PricingProposal (usd 80) (usd 100) "Ask low, accept high".

Definition desk_item : InventoryItem := mkInventoryItem desk (usd 60).


(** ** The memory of an agent ([AgentMemory] in [models/data_models.py] and
    the memory methods of [agents/base_agent.py]) *)

(** The descriptions the memory methods build. *)
Inductive event_text : Type :=
  | SoldText (t : Transaction)
  | BoughtText (t : Transaction)
  | FailedText (other_agent_id reason : string).

Record MemoryEntry : Type := mkMemoryEntry {
  event_type : string;
  description : event_text;
  importance : Qc;
  related_agent : option string
}.

(** [MemoryEntry(...)]: an importance between 0 and 1. *)
Definition new_MemoryEntry (type : string) (text : event_text) (imp : Qc)
    (related : option string) : result MemoryEntry :=
  if negb (bool_decide (imp < 0)%Qc) && negb (bool_decide (1 < imp)%Qc)
  then Ok (mkMemoryEntry type text imp related)
  else Raise ValidationError.

Record AgentMemory : Type := mkAgentMemory {
  summary : string;
  mem_recent_transactions : list Transaction;
  important_events : list MemoryEntry;
  learned_patterns : gmap string string
}.

(** [AgentMemory.add_transaction]: [append], then [pop(0)] above five. *)
Definition add_transaction (t : Transaction) (mem : AgentMemory) : AgentMemory :=
  let appended := (mem_recent_transactions mem ++ [t])%list in
  mkAgentMemory (summary mem)
    (if bool_decide (5 < length appended)%nat then tail appended else appended)
    (important_events mem) (learned_patterns mem).

(** [list.sort(key=lambda x: x.importance, reverse=True)]: a stable sort,
    the most important first; events of equal importance keep their
    order. *)
Fixpoint insert_by_importance (e : MemoryEntry) (l : list MemoryEntry)
    : list MemoryEntry :=
  match l with
  | [] => [e]
  | x :: l' =>
      if bool_decide (importance e < importance x)%Qc
      then x :: insert_by_importance e l'
      else e :: x :: l'
  end.

Definition sort_by_importance (l : list MemoryEntry) : list MemoryEntry :=
  foldr insert_by_importance [] l.

(** [AgentMemory.add_event]: [append], and above ten events the ten most
    important are kept. *)
Definition add_event (e : MemoryEntry) (mem : AgentMemory) : AgentMemory :=
  let appended := (important_events mem ++ [e])%list in
  mkAgentMemory (summary mem) (mem_recent_transactions mem)
    (if bool_decide (10 < length appended)%nat
     then take 10 (sort_by_importance appended)
     else appended)
    (learned_patterns mem).

(** [_calculate_event_importance]. *)
Definition _calculate_event_importance (t : Transaction) : Qc :=
  let base := Q2Qc (1 # 2) in
  let by_margin :=
    if bool_decide (Qc_of_Z 25 < margin t)%Qc then (base + Q2Qc (3 # 10))%Qc
    else if bool_decide (Qc_of_Z 15 < margin t)%Qc
    then (base + Q2Qc (1 # 10))%Qc
    else if bool_decide (margin t < Qc_of_Z 5)%Qc
    then (base + Q2Qc (2 # 10))%Qc
    else base in
  let by_size :=
    if bool_decide (Qc_of_Z 1000 < txn_final_price t)%Qc
    then (by_margin + Q2Qc (2 # 10))%Qc
    else by_margin in
  if bool_decide (1 < by_size)%Qc then 1%Qc else by_size.

(** [_describe_transaction]. *)
Definition _describe_transaction (self_id : string) (t : Transaction)
    : event_text :=
  if bool_decide (txn_seller_id t = self_id) then SoldText t else BoughtText t.

(** The memory part of [add_transaction_memory], for the agent with id
    [self_id]. The transaction is stored before the event is built. *)
Definition remember_transaction (self_id : string) (t : Transaction)
    (mem : AgentMemory) : AgentMemory * result unit :=
  let mem1 := add_transaction t mem in
  match new_MemoryEntry "transaction" (_describe_transaction self_id t)
          (_calculate_event_importance t)
          (Some (if bool_decide (txn_seller_id t = self_id)
                 then txn_buyer_id t else txn_seller_id t)) with
  | Raise e => (mem1, Raise e)
  | Ok event => (add_event event mem1, Ok tt)
  end.

(** [str.lower] on the letters A to Z, and ["difficult" in s]. *)
Definition lower_ascii (c : Ascii.ascii) : Ascii.ascii :=
  let n := Ascii.nat_of_ascii c in
  if bool_decide (65 ≤ n ∧ n ≤ 90)%nat then Ascii.ascii_of_nat (n + 32) else c.

Fixpoint lower (s : string) : string :=
  match s with
  | EmptyString => EmptyString
  | String c s' => String (lower_ascii c) (lower s')
  end.

Definition contains (needle s : string) : bool :=
  bool_decide (is_Some (String.index 0 needle s)).

(** [add_negotiation_failure]. The pattern is read under the id of the
    other agent and written under the literal key "other_agent_id". *)
Definition add_negotiation_failure (other_agent_id reason : string)
    (mem : AgentMemory) : AgentMemory * result unit :=
  match new_MemoryEntry "negotiation_failure"
          (FailedText other_agent_id reason) (Q2Qc (6 # 10))
          (Some other_agent_id) with
  | Raise e => (mem, Raise e)
  | Ok event =>
      let mem1 := add_event event mem in
      let current_pattern :=
        default "" (learned_patterns mem1 !! other_agent_id) in
      if contains "difficult" (lower current_pattern) then (mem1, Ok tt)
      else
        (mkAgentMemory (summary mem1) (mem_recent_transactions mem1)
           (important_events mem1)
           (<["other_agent_id" :=
                if nonempty current_pattern
                then current_pattern +:+ " Difficult negotiator "
                else " Difficult negotiator"]> (learned_patterns mem1)),
         Ok tt)
  end.

(** [learn_pattern]. *)
Definition learn_pattern (other_agent_id pattern : string) (mem : AgentMemory)
    : AgentMemory :=
  mkAgentMemory (summary mem) (mem_recent_transactions mem)
    (important_events mem) (<[other_agent_id := pattern]> (learned_patterns mem)).

Definition empty_memory : AgentMemory := mkAgentMemory "" [] [] ∅.

(** A memory that holds five transactions, and one that holds ten events
    of importance 0.6. *)
Definition five_sales : AgentMemory :=
  mkAgentMemory "" (replicate 5 desk_sale) [] ∅.

Definition failure_event : MemoryEntry :=
  mkMemoryEntry "negotiation_failure" (FailedText "agent_001" "No agreement")
    (Q2Qc (6 # 10)) (Some "agent_001").

Definition ten_failures : AgentMemory :=
  mkAgentMemory "" [] (replicate 10 failure_event) ∅.

Definition minor_event : MemoryEntry :=
  mkMemoryEntry "transaction" (BoughtText desk_sale) (Q2Qc (1 # 2))
    (Some "agent_001").

(** ** The initial inventory ([agents/inventory_utils.py]) *)

Inductive AgentArchetype : Type :=
  | AGGRESSIVE_TRADER
  | PATIENT_INVESTOR
  | OPPORTUNIST
  | RISK_TAKER
  | CONSERVATIVE
  | SPECIALIST
  | EMOTIONAL
  | DATA_DRIVEN
  | SOCIAL
  | CHAOTIC.

(** [Product(...)]: a non-empty name and category, a positive value. *)
Definition new_Product (n c : string) (value : Qc) : result Product :=
  if nonempty n && nonempty c && bool_decide (0 < value)%Qc
  then Ok (mkProduct n c value)
  else Raise ValidationError.

(** The table [cost_multipliers] of [create_initial_inventory]. *)
Definition cost_multipliers (a : AgentArchetype) : Qc * Qc :=
  match a with
  | OPPORTUNIST => (Q2Qc (60 # 100), Q2Qc (70 # 100))
  | SPECIALIST => (Q2Qc (65 # 100), Q2Qc (75 # 100))
  | AGGRESSIVE_TRADER => (Q2Qc (70 # 100), Q2Qc (80 # 100))
  | CONSERVATIVE => (Q2Qc (75 # 100), Q2Qc (85 # 100))
  | PATIENT_INVESTOR => (Q2Qc (70 # 100), Q2Qc (80 # 100))
  | RISK_TAKER => (Q2Qc (65 # 100), Q2Qc (85 # 100))
  | EMOTIONAL => (Q2Qc (70 # 100), Q2Qc (85 # 100))
  | DATA_DRIVEN => (Q2Qc (68 # 100), Q2Qc (78 # 100))
  | SOCIAL => (Q2Qc (72 # 100), Q2Qc (82 # 100))
  | CHAOTIC => (Q2Qc (60 # 100), Q2Qc (90 # 100))
  end.

(** One turn of the loop of [create_initial_inventory]: the product of the
    category drawn, at a cost of the base value times the multiplier drawn
    by [random.uniform] in the range of the archetype, here [u]. *)
Definition create_inventory_item (product_name product_category : string)
    (base_value u : Qc) : result InventoryItem :=
  product <- new_Product product_name product_category base_value ;;
  new_InventoryItem product (base_value * u)%Qc.

(** ** Price trends ([MarketSnapshot.get_price_trend]) *)

Inductive Trend : Type :=
  | rising
  | falling
  | stable.

(** [get_price_trend]. The second average is written
    [sum(...) / len(category_transactions) - mid]: the sum of the second
    half is divided by the number of all the transactions of the category,
    and [mid] is subtracted from the quotient. *)
Definition snapshot_price_trend (s : MarketSnapshot) (product_category : string)
    : result (option Trend) :=
  let category_transactions :=
    filter (fun t => category (txn_product t) = product_category)
      (recent_transactions s) in
  if bool_decide (length category_transactions < 3)%nat then Ok None
  else
    let mid := Nat.div (length category_transactions) 2 in
    _ <- guard (negb (bool_decide (mid = 0%nat))) ZeroDivisionError ;;
    let first_half_average :=
      (sum_of txn_final_price (take mid category_transactions)
       / Qc_of_Z (Z.of_nat mid))%Qc in
    let second_half_average :=
      (sum_of txn_final_price (drop mid category_transactions)
       / Qc_of_Z (Z.of_nat (length category_transactions))
       - Qc_of_Z (Z.of_nat mid))%Qc in
    _ <- guard (negb (bool_decide (first_half_average = 0%Qc)))
           ZeroDivisionError ;;
    let diff_pct :=
      ((second_half_average - first_half_average) / first_half_average
       * Qc_of_Z 100)%Qc in
    Ok (Some (if bool_decide (Qc_of_Z 5 < diff_pct)%Qc then rising
              else if bool_decide (diff_pct < Qc_of_Z (-5))%Qc then falling
              else stable)).

(** [Marketplace.get_price_trend]. *)
Definition get_price_trend (m : Marketplace) (product_category : string)
    : result (option Trend) :=
  snapshot_price_trend (get_market_snapshot m) product_category.

(** Three sales of the desk at 90. *)
Definition steady_market : Marketplace :=
  mkMarketplace ∅ [] (replicate 3 desk_sale).


(** A computation is benign when it does not raise the error of the
    recursion limit, which belongs to the graph runner alone. *)
Definition benign {A : Type} (r : result A) : Prop :=
  forall e, r = Raise e -> e <> GraphRecursionError.

(** * Properties *)

(** ** The error monad and the validating constructors *)

Lemma rbind_Ok {A B : Type} (r : result A) (k : A -> result B) (b : B) :
  rbind r k = Ok b -> exists a, r = Ok a ∧ k a = Ok b.
Proof. destruct r as [a|e]; simpl; [eauto | discriminate]. Qed.

Lemma guard_Ok (b : bool) (e : exn) (u : unit) : guard b e = Ok u -> b = true.
Proof. destruct b; simpl; [reflexivity | discriminate]. Qed.

Lemma format_price_Ok (p : option Qc) (q : Qc) :
  format_price p = Ok q -> p = Some q.
Proof. destruct p; simpl; congruence. Qed.

Lemma new_NegotiationMessage_Ok r f t a p txt m :
  new_NegotiationMessage r f t a p txt = Ok m ->
  m = mkNegotiationMessage r f t a p txt ∧ 0 < r ∧ r ≤ 5.
Proof.
  unfold new_NegotiationMessage.
  destruct (bool_decide (0 < r ∧ r ≤ 5)) eqn:Hr; simpl; [| discriminate].
  apply bool_decide_eq_true in Hr.
  destruct (nonempty f && nonempty t && positive_price p && text_nonempty txt);
    simpl; [| discriminate].
  intros [= <-]. tauto.
Qed.

Lemma message_or_nonempty s d txt :
  message_or s d = Ok txt -> (forall t, d = Ok t -> text_nonempty t = true) ->
  text_nonempty txt = true.
Proof.
  unfold message_or. destruct (nonempty s) eqn:Hs.
  - intros [= <-] _. exact Hs.
  - intros Hd H. exact (H _ Hd).
Qed.

(** Peels the binds of a computation that returned a value. *)
Ltac peel H :=
  repeat match type of H with
  | rbind _ _ = Ok _ =>
      let a := fresh "a" in
      let Ha := fresh "Ha" in
      apply rbind_Ok in H; destruct H as (a & Ha & H)
  end.

Lemma benign_Ok {A : Type} (a : A) : benign (Ok a).
Proof. intros e H. discriminate. Qed.

Lemma benign_bind {A B : Type} (r : result A) (k : A -> result B) :
  benign r -> (forall a, benign (k a)) -> benign (rbind r k).
Proof.
  intros Hr Hk e. destruct r as [a | e']; simpl.
  - apply Hk.
  - intros [= ->]. by apply Hr.
Qed.

Lemma benign_guard b e : e <> GraphRecursionError -> benign (guard b e).
Proof. intros He e'. destruct b; simpl; [discriminate | congruence]. Qed.

Lemma benign_getitem (m : gmap string AgentState) k : benign (getitem m k).
Proof. intros e. unfold getitem. destruct (m !! k); [discriminate | congruence]. Qed.

Lemma benign_format_price p : benign (format_price p).
Proof. intros e. destruct p; simpl; [discriminate | congruence]. Qed.

Lemma benign_message_or s d : benign d -> benign (message_or s d).
Proof.
  intros Hd. unfold message_or. destruct (nonempty s); [apply benign_Ok | exact Hd].
Qed.

Lemma benign_new_NegotiationMessage r f t a p txt :
  benign (new_NegotiationMessage r f t a p txt).
Proof.
  intros e. unfold new_NegotiationMessage.
  destruct (_ && _); [discriminate | congruence].
Qed.

Create HintDb benign.
#[global] Hint Resolve benign_Ok benign_bind benign_getitem benign_format_price
  benign_message_or benign_new_NegotiationMessage : benign.
#[global] Hint Extern 1 (benign (guard _ _)) =>
  apply benign_guard; discriminate : benign.
#[global] Hint Extern 1 (forall _, benign _) => intro : benign.

(** ** What each node does to the state *)

Lemma seller_update_history d st : history (seller_update d st) = history st.
Proof.
  unfold seller_update.
  destruct (dec_action d); try reflexivity; destruct (dec_price d); reflexivity.
Qed.

Lemma seller_update_round d st :
  current_round (seller_update d st) = current_round st.
Proof.
  unfold seller_update.
  destruct (dec_action d); try reflexivity; destruct (dec_price d); reflexivity.
Qed.

Lemma buyer_update_history d st : history (buyer_update d st) = history st.
Proof. unfold buyer_update. destruct (dec_action d); reflexivity. Qed.

Lemma buyer_update_round d st :
  current_round (buyer_update d st) = current_round st.
Proof. unfold buyer_update. destruct (dec_action d); reflexivity. Qed.


Section NodeFacts.

Variable seller_llm :
  AgentState -> Qc -> Qc -> Qc -> Qc -> string -> Z ->
  list NegotiationMessage -> llm_output.
Variable buyer_llm :
  AgentState -> Qc -> Qc -> Listing -> string -> Z ->
  list NegotiationMessage -> llm_output.
Variable agents : gmap string AgentState.

Lemma getitem_Ok (m : gmap string AgentState) k a :
  getitem m k = Ok a -> m !! k = Some a.
Proof. unfold getitem. destruct (m !! k); congruence. Qed.

Lemma buyer_makes_initial_offer_Ok st st' :
  buyer_makes_initial_offer st = Ok st' ->
  exists m,
    new_NegotiationMessage (current_round st) (buyer_id st) (seller_id st)
      MAKE_OFFER (Some (initial_offer st))
      (InitialOfferText (initial_offer st) (name (lst_product (listing st)))) = Ok m
    ∧ st' = record_message m (set_current_offer (Some (initial_offer st)) st).
Proof.
  unfold buyer_makes_initial_offer. intros H. peel H.
  injection H as <-. eauto.
Qed.

(** The seller node returned: either the item was missing, or a decision
    was obtained and one message recorded. *)
Lemma seller_evaluates_offer_Ok st st' :
  seller_evaluates_offer seller_llm agents st = Ok st' ->
  exists seller, agents !! seller_id st = Some seller ∧
    ((find_item (name (lst_product (listing st))) (inventory seller) = None
      ∧ st' = set_last_action (Some REJECT) (set_status rejected st))
     ∨ (exists item d txt m,
          find_item (name (lst_product (listing st))) (inventory seller) = Some item
          ∧ evaluate_offer_as_seller seller_llm seller (current_offer st)
              (item_cost_basis item) (listing_price (listing st))
              (minimum_acceptable (listing st)) (buyer_id st)
              (current_round st) (history st) = Ok d
          ∧ new_NegotiationMessage (current_round st) (seller_id st)
              (buyer_id st) (dec_action d) (dec_price d) txt = Ok m
          ∧ st' = record_message m (seller_update d st))).
Proof.
  unfold seller_evaluates_offer. intros H.
  apply rbind_Ok in H. destruct H as (seller & Hs & H).
  apply getitem_Ok in Hs. exists seller. split; [exact Hs |].
  destruct (find_item _ _) as [item|] eqn:Hitem.
  - right. peel H. injection H as <-.
    exists item, a, a0.1, a1. repeat split; try assumption.
    f_equal. unfold seller_update.
    destruct (dec_action a); peel Ha0; injection Ha0 as <-; reflexivity.
  - left. injection H as <-. auto.
Qed.

(** The buyer node returned: the round was incremented, a decision was
    obtained and one message recorded. *)
Lemma buyer_evaluates_counter_Ok st st' :
  buyer_evaluates_counter buyer_llm agents st = Ok st' ->
  let st1 := set_current_round (current_round st + 1) st in
  exists buyer d txt m,
    agents !! buyer_id st = Some buyer
    ∧ evaluate_counter_as_buyer buyer_llm buyer (current_offer st)
        (buyer_last_offer st1) (listing st) (seller_id st)
        (current_round st + 1) (history st) = Ok d
    ∧ new_NegotiationMessage (current_round st + 1) (buyer_id st)
        (seller_id st) (dec_action d) (dec_price d) txt = Ok m
    ∧ st' = record_message m (buyer_update d st1).
Proof.
  intros H. cbv zeta. unfold buyer_evaluates_counter in H. cbv zeta in H.
  apply rbind_Ok in H. destruct H as (buyer & Hb & H).
  apply getitem_Ok in Hb. peel H. injection H as <-.
  exists buyer, a, a0.1, a1. repeat split; try assumption.
  f_equal. unfold buyer_update.
  destruct (dec_action a); peel Ha0; injection Ha0 as <-; reflexivity.
Qed.

End NodeFacts.

(** ** The decisions the two evaluation functions can return *)

Section DecisionFacts.

Variable seller_llm :
  AgentState -> Qc -> Qc -> Qc -> Qc -> string -> Z ->
  list NegotiationMessage -> llm_output.
Variable buyer_llm :
  AgentState -> Qc -> Qc -> Listing -> string -> Z ->
  list NegotiationMessage -> llm_output.

Lemma evaluate_offer_as_seller_offer self o cb lp ma b r h d :
  evaluate_offer_as_seller seller_llm self o cb lp ma b r h = Ok d ->
  is_Some o.
Proof.
  unfold evaluate_offer_as_seller. intros H.
  apply rbind_Ok in H. destruct H as (q & Hq & _).
  apply format_price_Ok in Hq. rewrite Hq. eauto.
Qed.

Lemma evaluate_counter_as_buyer_Ok self c last l s r h d :
  evaluate_counter_as_buyer buyer_llm self c last l s r h = Ok d ->
  exists q, c = Some q
    ∧ d = match buyer_llm self q last l s r h with
          | LlmDecision d0 => validate_counter self d0
          | LlmFailure => fallback_decision WALK_AWAY
          end.
Proof.
  unfold evaluate_counter_as_buyer. intros H.
  apply rbind_Ok in H. destruct H as (q & Hq & H).
  apply format_price_Ok in Hq. peel H. exists q. split; [exact Hq |].
  destruct (buyer_llm self q last l s r h); congruence.
Qed.

(** A counter that survives the validation is positive and affordable. *)
Lemma validate_counter_COUNTER self d :
  dec_action (validate_counter self d) = COUNTER ->
  validate_counter self d = d
  ∧ exists p, dec_price d = Some p ∧ (0 < p)%Qc ∧ (p ≤ capital self)%Qc.
Proof.
  unfold validate_counter.
  destruct (bool_decide (dec_action d = COUNTER)) eqn:Ha.
  - destruct (dec_price d) as [p|] eqn:Hp; [| discriminate].
    destruct (bool_decide (capital self < p)%Qc) eqn:H1; [discriminate |].
    destruct (bool_decide (p ≤ 0)%Qc) eqn:H2; [discriminate |].
    intros _. split; [reflexivity |]. exists p.
    apply bool_decide_eq_false in H1, H2.
    split; [reflexivity |]. split.
    + by apply Qclt_nge.
    + by apply Qcle_ngt.
  - apply bool_decide_eq_false in Ha. intros H. contradiction.
Qed.

(** The validation never turns a decision into an acceptance. *)
Lemma validate_counter_ACCEPT self d :
  dec_action (validate_counter self d) = ACCEPT -> validate_counter self d = d.
Proof.
  unfold validate_counter.
  destruct (bool_decide (dec_action d = COUNTER)) eqn:Ha; [| reflexivity].
  destruct (dec_price d) as [p|]; [| discriminate].
  destruct (bool_decide (capital self < p)%Qc); [discriminate |].
  destruct (bool_decide (p ≤ 0)%Qc); [discriminate | reflexivity].
Qed.

End DecisionFacts.

(** ** The invariant of a session *)

Section Invariant.

Variable seller_llm :
  AgentState -> Qc -> Qc -> Qc -> Qc -> string -> Z ->
  list NegotiationMessage -> llm_output.
Variable buyer_llm :
  AgentState -> Qc -> Qc -> Listing -> string -> Z ->
  list NegotiationMessage -> llm_output.
Variable agents : gmap string AgentState.

Lemma graph_step_Ok n st n' st' :
  graph_step seller_llm buyer_llm agents n st = Ok (n', st') ->
  run_node seller_llm buyer_llm agents n st = Ok st' ∧ n' = next_node n st'.
Proof.
  unfold graph_step. intros H. peel H. injection H as <- <-. auto.
Qed.

(** Every node but the buyer's evaluation leaves the round alone; the
    buyer's evaluation adds one to it. *)
Lemma run_node_round n st st' :
  run_node seller_llm buyer_llm agents n st = Ok st' ->
  current_round st' =
    if decide (n = buyer_evaluates) then current_round st + 1
    else current_round st.
Proof.
  destruct n; simpl; intros H.
  - apply buyer_makes_initial_offer_Ok in H. destruct H as (m & _ & ->).
    reflexivity.
  - apply seller_evaluates_offer_Ok in H.
    destruct H as (seller & _ & [[_ ->] | (item & d & txt & m & _ & _ & _ & ->)]);
      [reflexivity |].
    unfold seller_update. simpl.
    destruct (dec_action d); try reflexivity; destruct (dec_price d); reflexivity.
  - apply buyer_evaluates_counter_Ok in H.
    destruct H as (buyer & d & txt & m & _ & _ & _ & ->).
    unfold buyer_update. simpl. destruct (dec_action d); reflexivity.
  - injection H as <-. unfold check_max_rounds.
    destruct (bool_decide _); reflexivity.
  - injection H as <-. reflexivity.
  - injection H as <-. reflexivity.
  - injection H as <-. reflexivity.
Qed.

Lemma node_inv_step n st n' st' :
  node_inv n st -> n <> END ->
  graph_step seller_llm buyer_llm agents n st = Ok (n', st') ->
  node_inv n' st' ∧ (steps_left n' st' < steps_left n st)%nat.
Proof.
  intros [Hr Hn] Hend H. apply graph_step_Ok in H. destruct H as [H ->].
  destruct n; simpl in H; try contradiction.
  - (* buyer_offer *)
    apply buyer_makes_initial_offer_Ok in H. destruct H as (m & _ & ->).
    destruct Hn as [H1 Ha]. unfold node_inv, steps_left. simpl.
    repeat split; try lia. exact Ha.
  - (* seller_evaluates *)
    destruct Hn as [H4 Ha].
    apply seller_evaluates_offer_Ok in H.
    destruct H as (seller & _ & [[_ ->] | (item & d & txt & m & _ & Hd & Hm & ->)]).
    + unfold node_inv, steps_left. simpl. repeat split; try lia. by left.
    + apply new_NegotiationMessage_Ok in Hm. destruct Hm as (-> & _ & _).
      apply evaluate_offer_as_seller_offer in Hd.
      unfold node_inv, steps_left, _route_seller_decision, seller_update.
      simpl.
      destruct (dec_action d); simpl;
        try (destruct (dec_price d); simpl; repeat split; (lia || assumption)).
      repeat split; try lia. by left.
  - (* buyer_evaluates *)
    destruct Hn as [H4 Ha].
    apply buyer_evaluates_counter_Ok in H.
    destruct H as (buyer & d & txt & m & _ & Hd & Hm & ->).
    apply new_NegotiationMessage_Ok in Hm. destruct Hm as (-> & _ & _).
    apply evaluate_counter_as_buyer_Ok in Hd. destruct Hd as (q & Hq & _).
    unfold node_inv, steps_left, _route_buyer_decision, buyer_update. simpl.
    destruct (dec_action d); simpl;
      try (repeat split; (lia || assumption)).
    + repeat split; try lia. rewrite Hq. eauto.
    + repeat split; try lia. by right.
  - (* check_rounds *)
    injection H as <-. unfold check_max_rounds.
    destruct (bool_decide (5 ≤ current_round st)) eqn:H5.
    + apply bool_decide_eq_true in H5.
      unfold node_inv, steps_left. simpl. repeat split; try lia. by left.
    + apply bool_decide_eq_false in H5.
      simpl. unfold _route_after_round_check. rewrite Hn.
      unfold node_inv, steps_left. simpl. repeat split; try lia. exact Hn.
  - (* success *)
    injection H as <-. unfold finalized_success, node_inv, steps_left. simpl.
    destruct Hn as (Ha & Hf & Hs).
    repeat split; try lia; try assumption. congruence.
  - (* failure *)
    injection H as <-. unfold finalized_failure, node_inv, steps_left. simpl.
    repeat split; try lia; destruct Hn as [Hn | Hn]; congruence.
Qed.

Lemma node_inv_initial neg_uuid buyer l offer :
  node_inv buyer_offer (initial_state neg_uuid buyer l offer).
Proof. unfold node_inv. simpl. repeat split; lia. Qed.

Lemma reachable_inv init n st :
  node_inv buyer_offer init ->
  reachable seller_llm buyer_llm agents init n st -> node_inv n st.
Proof.
  intros Hinit H. induction H as [| n st n' st' _ IH Hend Hstep].
  - exact Hinit.
  - exact (proj1 (node_inv_step _ _ _ _ IH Hend Hstep)).
Qed.

End Invariant.

(** ** Runs of the graph *)

Section Runs.

Variable seller_llm :
  AgentState -> Qc -> Qc -> Qc -> Qc -> string -> Z ->
  list NegotiationMessage -> llm_output.
Variable buyer_llm :
  AgentState -> Qc -> Qc -> Listing -> string -> Z ->
  list NegotiationMessage -> llm_output.
Variable agents : gmap string AgentState.

Lemma run_graph_S fuel n st :
  n <> END ->
  run_graph seller_llm buyer_llm agents (S fuel) n st =
    (c <- graph_step seller_llm buyer_llm agents n st ;;
     run_graph seller_llm buyer_llm agents fuel c.1 c.2).
Proof. destruct n; intros H; try reflexivity. contradiction. Qed.

Lemma run_graph_O n st :
  n <> END ->
  run_graph seller_llm buyer_llm agents 0 n st = Raise GraphRecursionError.
Proof. destruct n; intros H; try reflexivity. contradiction. Qed.

Lemma run_graph_END fuel st :
  run_graph seller_llm buyer_llm agents fuel END st = Ok st.
Proof. destruct fuel; reflexivity. Qed.

(** A run that returns ends in a state that satisfies the invariant of
    [END], and that state is a reachable configuration. *)
Lemma run_graph_inv fuel : forall n st final,
  node_inv n st ->
  run_graph seller_llm buyer_llm agents fuel n st = Ok final ->
  node_inv END final.
Proof.
  induction fuel as [| fuel IH]; intros n st final Hinv H.
  - destruct (decide (n = END)) as [-> | Hn].
    + rewrite run_graph_END in H. by injection H as <-.
    + rewrite run_graph_O in H by exact Hn. discriminate.
  - destruct (decide (n = END)) as [-> | Hn].
    + rewrite run_graph_END in H. by injection H as <-.
    + rewrite run_graph_S in H by exact Hn.
      apply rbind_Ok in H. destruct H as ([n' st'] & Hstep & H).
      apply (IH n' st' final); [| exact H].
      exact (proj1 (node_inv_step _ _ _ _ _ _ _ Hinv Hn Hstep)).
Qed.

Lemma run_graph_reachable init fuel : forall n st final,
  reachable seller_llm buyer_llm agents init n st ->
  run_graph seller_llm buyer_llm agents fuel n st = Ok final ->
  reachable seller_llm buyer_llm agents init END final.
Proof.
  induction fuel as [| fuel IH]; intros n st final Hreach H.
  - destruct (decide (n = END)) as [-> | Hn].
    + rewrite run_graph_END in H. by injection H as <-.
    + rewrite run_graph_O in H by exact Hn. discriminate.
  - destruct (decide (n = END)) as [-> | Hn].
    + rewrite run_graph_END in H. by injection H as <-.
    + rewrite run_graph_S in H by exact Hn.
      apply rbind_Ok in H. destruct H as ([n' st'] & Hstep & H).
      apply (IH n' st' final); [| exact H].
      exact (reachable_step _ _ _ _ _ _ _ _ Hreach Hn Hstep).
Qed.

(** No node raises the error of the recursion limit. *)
Lemma run_node_exn n st e :
  run_node seller_llm buyer_llm agents n st = Raise e ->
  e <> GraphRecursionError.
Proof.
  revert e. change (benign (run_node seller_llm buyer_llm agents n st)).
  destruct n; simpl; auto with benign.
  - unfold buyer_makes_initial_offer. auto with benign.
  - unfold seller_evaluates_offer.
    apply benign_bind; [auto with benign |]. intros seller.
    destruct (find_item _ _); [| auto with benign].
    apply benign_bind.
    { unfold evaluate_offer_as_seller.
      repeat (apply benign_bind; [auto with benign |]; intros ?).
      destruct (seller_llm _ _ _ _ _ _ _ _); auto with benign. }
    intros d. apply benign_bind; [| auto with benign].
    destruct (dec_action d); auto 6 with benign.
  - unfold buyer_evaluates_counter. cbv zeta.
    apply benign_bind; [auto with benign |]. intros buyer.
    apply benign_bind.
    { unfold evaluate_counter_as_buyer.
      repeat (apply benign_bind; [auto with benign |]; intros ?).
      destruct (buyer_llm _ _ _ _ _ _ _); auto with benign. }
    intros d. apply benign_bind; [| auto with benign].
    destruct (dec_action d); auto 6 with benign.
Qed.

(** The recursion limit is never reached: a configuration that satisfies
    the invariant runs to its end within [steps_left] super-steps. *)
Lemma run_graph_within_limit fuel : forall n st,
  node_inv n st -> (steps_left n st ≤ fuel)%nat ->
  run_graph seller_llm buyer_llm agents fuel n st <> Raise GraphRecursionError.
Proof.
  induction fuel as [| fuel IH]; intros n st Hinv Hfuel.
  - destruct n; unfold node_inv, steps_left in *; try lia. discriminate.
  - destruct (decide (n = END)) as [-> | Hn];
      [rewrite run_graph_END; discriminate |].
    rewrite run_graph_S by exact Hn.
    destruct (graph_step seller_llm buyer_llm agents n st) as [[n' st'] | e] eqn:Hstep.
    + simpl. destruct (node_inv_step _ _ _ _ _ _ _ Hinv Hn Hstep) as [Hinv' Hlt].
      apply IH; [exact Hinv' | lia].
    + simpl. unfold graph_step in Hstep.
      destruct (run_node seller_llm buyer_llm agents n st) as [st' | e'] eqn:Hrun;
        simpl in Hstep; [discriminate |].
      injection Hstep as ->. intros [= ->].
      exact (run_node_exn _ _ _ Hrun eq_refl).
Qed.

Lemma invoke_inv init final :
  node_inv buyer_offer init ->
  invoke seller_llm buyer_llm agents init = Ok final ->
  node_inv END final.
Proof. unfold invoke. apply run_graph_inv. Qed.

Lemma invoke_reachable init final :
  invoke seller_llm buyer_llm agents init = Ok final ->
  reachable seller_llm buyer_llm agents init END final.
Proof.
  unfold invoke. apply run_graph_reachable. apply reachable_start.
Qed.

Lemma invoke_within_limit neg_uuid buyer l offer :
  invoke seller_llm buyer_llm agents (initial_state neg_uuid buyer l offer)
    <> Raise GraphRecursionError.
Proof.
  apply run_graph_within_limit.
  - apply node_inv_initial.
  - unfold steps_left, recursion_limit. simpl. lia.
Qed.

End Runs.

(** ** The round counter *)

Section RoundCounter.

Variable seller_llm :
  AgentState -> Qc -> Qc -> Qc -> Qc -> string -> Z ->
  list NegotiationMessage -> llm_output.
Variable buyer_llm :
  AgentState -> Qc -> Qc -> Listing -> string -> Z ->
  list NegotiationMessage -> llm_output.

(** Whatever the outcome, the result of a session reports at most five
    rounds. *)
Lemma start_negotiation_rounds w neg_uuid trx_uuid buyer l offer :
  result_rounds
    (start_negotiation seller_llm buyer_llm w neg_uuid trx_uuid buyer l offer).2 ≤ 5.
Proof.
  unfold start_negotiation.
  destruct (invoke _ _ _ _) as [final | e] eqn:Hrun; [| simpl; lia].
  assert (Hinv : node_inv END final).
  { exact (invoke_inv _ _ _ _ _ (node_inv_initial neg_uuid buyer l offer) Hrun). }
  destruct Hinv as [[_ H5] _].
  destruct (bool_decide (status final = accepted)).
  - destruct (_create_transaction _ _ _) as [t | e]; [| simpl; lia].
    destruct (_complete_transaction _ _).2; simpl; lia.
  - destruct (agents w !! buyer), (agents w !! lst_seller_id l); simpl; lia.
Qed.

(** C1: the round counter starts at 1, only the buyer's evaluation
    increments it (by one), every configuration a session passes through
    has a round between 1 and 5, and the result of a session never reports
    more than 5 rounds. *)
Theorem C1_round_counter_within_bounds w neg_uuid trx_uuid buyer l offer n st :
  reachable seller_llm buyer_llm (agents w)
    (initial_state neg_uuid buyer l offer) n st ->
  current_round (initial_state neg_uuid buyer l offer) = 1
  ∧ (1 ≤ current_round st ∧ current_round st ≤ 5)
  ∧ (forall st',
       run_node seller_llm buyer_llm (agents w) n st = Ok st' ->
       current_round st' =
         if decide (n = buyer_evaluates) then current_round st + 1
         else current_round st)
  ∧ result_rounds
      (start_negotiation seller_llm buyer_llm w neg_uuid trx_uuid buyer l offer).2
    ≤ 5.
Proof.
  intros Hreach. split; [reflexivity |]. split; [| split].
  - apply (reachable_inv _ _ _ _ _ _ (node_inv_initial _ _ _ _)) in Hreach.
    exact (proj1 Hreach).
  - intros st'. apply run_node_round.
  - apply start_negotiation_rounds.
Qed.

End RoundCounter.

Lemma scenario_A_returns :
  invoke (seller_says (counter_at 90)) (buyer_says accept_it)
    (agents (desk_world (usd 5000) (usd 5000))) scenario_A_initial
  = Ok scenario_A_final.
Proof. vm_compute. reflexivity. Defined.

Lemma scenario_A_reachable :
  reachable (seller_says (counter_at 90)) (buyer_says accept_it)
    (agents (desk_world (usd 5000) (usd 5000))) scenario_A_initial
    END scenario_A_final.
Proof.
  apply invoke_reachable. exact scenario_A_returns.
Defined.

Lemma C1_witness :
  reachable (seller_says (counter_at 90)) (buyer_says accept_it)
    (agents (desk_world (usd 5000) (usd 5000))) scenario_A_initial
    END scenario_A_final
  ∧ current_round scenario_A_final = 2
  ∧ result_rounds
      (start_negotiation (seller_says (counter_at 90)) (buyer_says accept_it)
         (desk_world (usd 5000) (usd 5000)) "0a1b2c3d" "4e5f6a7b" "agent_002"
         desk_listing (usd 70)).2 ≤ 5.
Proof.
  split; [exact scenario_A_reachable |]. split; [vm_compute; reflexivity |].
  exact (proj2 (proj2 (proj2
    (C1_round_counter_within_bounds (seller_says (counter_at 90))
       (buyer_says accept_it) (desk_world (usd 5000) (usd 5000))
       "0a1b2c3d" "4e5f6a7b" "agent_002" desk_listing (usd 70) END
       scenario_A_final scenario_A_reachable)))).
Defined.

(** ** Acceptance *)

Section Acceptance.

Variable seller_llm :
  AgentState -> Qc -> Qc -> Qc -> Qc -> string -> Z ->
  list NegotiationMessage -> llm_output.
Variable buyer_llm :
  AgentState -> Qc -> Qc -> Listing -> string -> Z ->
  list NegotiationMessage -> llm_output.
Variable agents : gmap string AgentState.

(** A node that turns the status to [accepted] stores in [final_price] the
    offer it found on the table, and leaves that offer in place. *)
Lemma accepting_node n st st' :
  status st <> accepted ->
  run_node seller_llm buyer_llm agents n st = Ok st' ->
  status st' = accepted ->
  (n = seller_evaluates ∨ n = buyer_evaluates)
  ∧ final_price st' = current_offer st
  ∧ current_offer st' = current_offer st.
Proof.
  intros Hst H Hacc. destruct n; simpl in H.
  - apply buyer_makes_initial_offer_Ok in H. destruct H as (m & _ & ->).
    simpl in Hacc. contradiction.
  - apply seller_evaluates_offer_Ok in H.
    destruct H as (seller & _ & [[_ ->] | (item & d & txt & m & _ & _ & _ & ->)]);
      [discriminate |].
    unfold seller_update in *. simpl in *.
    destruct (dec_action d); simpl in *;
      try (destruct (dec_price d); simpl in *; contradiction);
      try discriminate.
    auto.
  - apply buyer_evaluates_counter_Ok in H.
    destruct H as (buyer & d & txt & m & _ & _ & _ & ->).
    unfold buyer_update in *. simpl in *.
    destruct (dec_action d); simpl in *; try contradiction; try discriminate.
    auto.
  - injection H as <-. unfold check_max_rounds in Hacc.
    destruct (bool_decide _); simpl in Hacc; [discriminate | contradiction].
  - injection H as <-. contradiction.
  - injection H as <-. contradiction.
  - injection H as <-. contradiction.
Qed.

(** C3: a session that ends accepted has a final price, and it is the
    current offer of the final state; at the node that made the transition
    to [accepted] (the seller's or the buyer's evaluation) the final price
    is the offer that was on the table when the node ran. *)
Theorem C3_final_price_is_current_offer neg_uuid buyer l offer final :
  invoke seller_llm buyer_llm agents (initial_state neg_uuid buyer l offer)
    = Ok final ->
  status final = accepted ->
  (final_price final = current_offer final ∧ is_Some (final_price final))
  ∧ (forall n st st',
       status st <> accepted ->
       run_node seller_llm buyer_llm agents n st = Ok st' ->
       status st' = accepted ->
       (n = seller_evaluates ∨ n = buyer_evaluates)
       ∧ final_price st' = current_offer st
       ∧ current_offer st' = current_offer st).
Proof.
  intros Hrun Hacc. split.
  - apply invoke_inv in Hrun; [| apply node_inv_initial].
    destruct Hrun as [_ [_ H]]. exact (H Hacc).
  - intros n st st'. apply accepting_node.
Qed.

End Acceptance.

Lemma C3_witness :
  invoke (seller_says (counter_at 90)) (buyer_says accept_it)
    (agents (desk_world (usd 5000) (usd 5000))) scenario_A_initial
    = Ok scenario_A_final
  ∧ status scenario_A_final = accepted
  ∧ final_price scenario_A_final = current_offer scenario_A_final
  ∧ final_price scenario_A_final = Some (usd 90).
Proof.
  split; [exact scenario_A_returns |].
  split; [vm_compute; reflexivity |].
  split; [| vm_compute; reflexivity].
  apply (C3_final_price_is_current_offer (seller_says (counter_at 90))
           (buyer_says accept_it) (agents (desk_world (usd 5000) (usd 5000)))
           "0a1b2c3d" "agent_002" desk_listing (usd 70) scenario_A_final).
  - exact scenario_A_returns.
  - vm_compute. reflexivity.
Defined.

(** ** The seller's evaluation without the item, and the history *)

Section SellerStep.

Variable seller_llm :
  AgentState -> Qc -> Qc -> Qc -> Qc -> string -> Z ->
  list NegotiationMessage -> llm_output.
Variable buyer_llm :
  AgentState -> Qc -> Qc -> Listing -> string -> Z ->
  list NegotiationMessage -> llm_output.
Variable agents : gmap string AgentState.

Lemma seller_evaluates_offer_missing
    (llm : AgentState -> Qc -> Qc -> Qc -> Qc -> string -> Z ->
           list NegotiationMessage -> llm_output) st seller :
  agents !! seller_id st = Some seller ->
  find_item (name (lst_product (listing st))) (inventory seller) = None ->
  seller_evaluates_offer llm agents st
  = Ok (set_last_action (Some REJECT) (set_status rejected st)).
Proof.
  intros Hs Hitem. unfold seller_evaluates_offer, getitem.
  rewrite Hs. simpl. rewrite Hitem. reflexivity.
Qed.

(** C9: when the seller holds no item with the product name of the
    listing, the seller's evaluation returns at once with status
    [rejected]; the outcome is the same for every policy, so the policy is
    not consulted; and the graph then goes to the failure node and ends. *)
Theorem C9_missing_inventory_rejects st seller :
  agents !! seller_id st = Some seller ->
  find_item (name (lst_product (listing st))) (inventory seller) = None ->
  let st' := set_last_action (Some REJECT) (set_status rejected st) in
  seller_evaluates_offer seller_llm agents st = Ok st'
  ∧ status st' = rejected
  ∧ history st' = history st
  ∧ (forall other_llm,
       seller_evaluates_offer other_llm agents st
       = seller_evaluates_offer seller_llm agents st)
  ∧ (forall fuel,
       run_graph seller_llm buyer_llm agents (S (S fuel)) seller_evaluates st
       = Ok st').
Proof.
  intros Hs Hitem st'.
  pose proof (seller_evaluates_offer_missing seller_llm st seller Hs Hitem) as Hrun.
  repeat split; try assumption.
  - intros other. rewrite Hrun.
    exact (seller_evaluates_offer_missing other st seller Hs Hitem).
  - intros fuel. rewrite run_graph_S by discriminate.
    unfold graph_step. simpl. fold st'. rewrite Hrun. simpl.
    apply run_graph_END.
Qed.

(** C10, as amended: each of the three offer nodes, when it returns,
    has appended exactly one message to the history, sent by the party
    whose turn it is and numbered with the round of the state returned,
    except that the seller's evaluation returns with the history untouched
    when the seller holds no item with the product name of the listing. *)
Theorem C10_one_message_per_step n st st' :
  n = buyer_offer ∨ n = seller_evaluates ∨ n = buyer_evaluates ->
  run_node seller_llm buyer_llm agents n st = Ok st' ->
  (exists m,
     history st' = (history st ++ [m])%list
     ∧ from_agent m = (if decide (n = seller_evaluates) then seller_id st
                       else buyer_id st)
     ∧ round_number m = current_round st')
  ∨ (n = seller_evaluates
     ∧ (exists seller,
          agents !! seller_id st = Some seller
          ∧ find_item (name (lst_product (listing st))) (inventory seller) = None)
     ∧ history st' = history st
     ∧ status st' = rejected).
Proof.
  intros [-> | [-> | ->]]; simpl; intros H.
  - apply buyer_makes_initial_offer_Ok in H. destruct H as (m & Hm & ->).
    apply new_NegotiationMessage_Ok in Hm. destruct Hm as (-> & _).
    left. eexists. simpl. eauto.
  - apply seller_evaluates_offer_Ok in H.
    destruct H as (seller & Hs & [[Hitem ->] | (item & d & txt & m & _ & _ & Hm & ->)]).
    + right. simpl. eauto 10.
    + apply new_NegotiationMessage_Ok in Hm. destruct Hm as (-> & _).
      left. eexists. split; [| split].
      * simpl. rewrite seller_update_history. reflexivity.
      * reflexivity.
      * simpl. by rewrite seller_update_round.
  - apply buyer_evaluates_counter_Ok in H.
    destruct H as (buyer & d & txt & m & _ & _ & Hm & ->).
    apply new_NegotiationMessage_Ok in Hm. destruct Hm as (-> & _).
    left. eexists. split; [| split].
    + simpl. rewrite buyer_update_history. reflexivity.
    + reflexivity.
    + simpl. by rewrite buyer_update_round.
Qed.

End SellerStep.

Lemma scenario_C_state_returned :
  buyer_makes_initial_offer scenario_A_initial = Ok scenario_C_state.
Proof. vm_compute. reflexivity. Defined.

Lemma C9_witness :
  empty_handed !! seller_id scenario_C_state
    = Some (agent_of "agent_001" (usd 5000) [])
  ∧ seller_evaluates_offer (seller_says accept_it) empty_handed scenario_C_state
    = Ok (set_last_action (Some REJECT) (set_status rejected scenario_C_state))
  ∧ start_negotiation (seller_says accept_it) (buyer_says accept_it)
      (mkWorld empty_handed desk_market) "0a1b2c3d" "4e5f6a7b" "agent_002"
      desk_listing (usd 70)
    = (mkWorld empty_handed desk_market,
       Failed rejected 1 (history scenario_C_state)).
Proof.
  assert (Hs : empty_handed !! seller_id scenario_C_state
               = Some (agent_of "agent_001" (usd 5000) []))
    by (vm_compute; reflexivity).
  split; [exact Hs |]. split; [| vm_compute; reflexivity].
  apply (C9_missing_inventory_rejects (seller_says accept_it)
           (buyer_says accept_it) empty_handed scenario_C_state
           (agent_of "agent_001" (usd 5000) []) Hs).
  vm_compute. reflexivity.
Defined.

(** The claim C10 as stated fails: the seller's evaluation can return
    without appending any message. *)
Lemma C10_counterexample :
  ~ (forall st st',
       seller_evaluates_offer (seller_says accept_it) empty_handed st = Ok st' ->
       exists m, history st' = (history st ++ [m])%list).
Proof.
  intros H.
  destruct (H scenario_C_state
              (set_last_action (Some REJECT) (set_status rejected scenario_C_state)))
    as [m Hm].
  - vm_compute. reflexivity.
  - apply (f_equal length) in Hm. rewrite length_app in Hm.
    simpl in Hm. lia.
Qed.

Lemma C10_witness :
  run_node (seller_says (counter_at 90)) (buyer_says accept_it)
    (agents (desk_world (usd 5000) (usd 5000))) buyer_offer scenario_A_initial
    = Ok scenario_C_state
  ∧ ((exists m,
        history scenario_C_state = (history scenario_A_initial ++ [m])%list
        ∧ from_agent m = (if decide (buyer_offer = seller_evaluates)
                          then seller_id scenario_A_initial
                          else buyer_id scenario_A_initial)
        ∧ round_number m = current_round scenario_C_state)
     ∨ (buyer_offer = seller_evaluates
        ∧ (exists seller,
             agents (desk_world (usd 5000) (usd 5000))
               !! seller_id scenario_A_initial = Some seller
             ∧ find_item (name (lst_product (listing scenario_A_initial)))
                 (inventory seller) = None)
        ∧ history scenario_C_state = history scenario_A_initial
        ∧ status scenario_C_state = rejected)).
Proof.
  split; [exact scenario_C_state_returned |].
  apply (C10_one_message_per_step (seller_says (counter_at 90))
           (buyer_says accept_it) (agents (desk_world (usd 5000) (usd 5000)))
           buyer_offer scenario_A_initial scenario_C_state).
  - left. reflexivity.
  - exact scenario_C_state_returned.
Defined.

(** ** Policy failures and the buyer's counter *)

Lemma new_NegotiationMessage_valid r f t a p txt :
  0 < r -> r ≤ 5 -> nonempty f = true -> nonempty t = true ->
  positive_price p = true -> text_nonempty txt = true ->
  new_NegotiationMessage r f t a p txt
  = Ok (mkNegotiationMessage r f t a p txt).
Proof.
  intros H0 H5 Hf Ht Hp Htxt. unfold new_NegotiationMessage.
  rewrite bool_decide_eq_true_2 by lia.
  rewrite Hf, Ht, Hp, Htxt. reflexivity.
Qed.

Lemma message_or_Ok s (d : result message_text) t :
  d = Ok t -> text_nonempty t = true ->
  exists txt, message_or s d = Ok txt ∧ text_nonempty txt = true.
Proof.
  intros Hd Ht. unfold message_or. destruct (nonempty s) eqn:Hs.
  - exists (Said s). auto.
  - exists t. auto.
Qed.

(** The last offer of the buyer is never zero when the opening offer is
    not: a message counts only if its price is true as a number. *)
Lemma buyer_last_offer_nonzero st :
  initial_offer st <> 0%Qc -> buyer_last_offer st <> 0%Qc.
Proof.
  intros H0. unfold buyer_last_offer.
  destruct (List.find _ _) as [m |] eqn:Hfind; [| exact H0].
  apply List.find_some in Hfind. destruct Hfind as [_ Hm].
  apply andb_true_iff in Hm. destruct Hm as [_ Hm].
  unfold truthy in Hm. destruct (msg_price m) as [q |]; [| discriminate].
  simpl. apply negb_true_iff, bool_decide_eq_false in Hm. exact Hm.
Qed.

Section PolicyGuards.

Variable seller_llm :
  AgentState -> Qc -> Qc -> Qc -> Qc -> string -> Z ->
  list NegotiationMessage -> llm_output.
Variable buyer_llm :
  AgentState -> Qc -> Qc -> Listing -> string -> Z ->
  list NegotiationMessage -> llm_output.

(** Past the arithmetic of its prompt, the seller's evaluation returns
    the decision of the policy, or the fallback when the policy failed. *)
Lemma evaluate_offer_as_seller_prompt_ok self offer cost lp ma b r h :
  cost <> 0%Qc -> lp <> 0%Qc -> ma <> 0%Qc ->
  evaluate_offer_as_seller seller_llm self (Some offer) cost lp ma b r h
  = Ok match seller_llm self offer cost lp ma b r h with
       | LlmDecision d => d
       | LlmFailure => seller_fallback offer ma
       end.
Proof.
  intros Hc Hl Hm. unfold evaluate_offer_as_seller. simpl.
  rewrite !bool_decide_eq_false_2 by assumption. simpl.
  destruct (seller_llm _ _ _ _ _ _ _ _); reflexivity.
Qed.

Lemma evaluate_counter_as_buyer_prompt_ok self c last l s r h :
  last <> 0%Qc -> listing_price l <> 0%Qc ->
  evaluate_counter_as_buyer buyer_llm self (Some c) last l s r h
  = Ok match buyer_llm self c last l s r h with
       | LlmDecision d => validate_counter self d
       | LlmFailure => fallback_decision WALK_AWAY
       end.
Proof.
  intros Hlast Hl. unfold evaluate_counter_as_buyer. simpl.
  rewrite !bool_decide_eq_false_2 by assumption. simpl.
  destruct (buyer_llm _ _ _ _ _ _ _); reflexivity.
Qed.

(** When the policy call fails (it raises, or its output does not
    validate), neither evaluation raises. The seller's fallback accepts
    when the offer is strictly above the minimum and rejects otherwise; the
    buyer's fallback walks away. *)
Lemma policy_failure_fallbacks
    self offer cost lp ma b r h bself counter last l s br bh :
  cost <> 0%Qc -> lp <> 0%Qc -> ma <> 0%Qc ->
  last <> 0%Qc -> listing_price l <> 0%Qc ->
  seller_llm self offer cost lp ma b r h = LlmFailure ->
  buyer_llm bself counter last l s br bh = LlmFailure ->
  ((ma < offer)%Qc ->
     evaluate_offer_as_seller seller_llm self (Some offer) cost lp ma b r h
     = Ok (fallback_decision ACCEPT))
  ∧ ((offer ≤ ma)%Qc ->
     evaluate_offer_as_seller seller_llm self (Some offer) cost lp ma b r h
     = Ok (fallback_decision REJECT))
  ∧ evaluate_counter_as_buyer buyer_llm bself (Some counter) last l s br bh
    = Ok (fallback_decision WALK_AWAY).
Proof.
  intros Hc Hl Hm Hlast Hbl Hs Hb.
  rewrite evaluate_offer_as_seller_prompt_ok by assumption.
  rewrite evaluate_counter_as_buyer_prompt_ok by assumption.
  rewrite Hs, Hb. unfold seller_fallback. repeat split.
  - intros Hlt. by rewrite bool_decide_eq_true_2.
  - intros Hle. rewrite bool_decide_eq_false_2; [reflexivity |].
    by apply Qcle_ngt.
Qed.

End PolicyGuards.

Lemma validate_counter_bad self d :
  dec_action d = COUNTER -> bad_counter self (dec_price d) ->
  dec_action (validate_counter self d) = WALK_AWAY
  ∧ dec_price (validate_counter self d) = None.
Proof.
  intros Ha Hbad. unfold validate_counter.
  rewrite bool_decide_eq_true_2 by exact Ha.
  destruct (dec_price d) as [p |]; simpl in Hbad; [| auto].
  destruct (bool_decide (capital self < p)%Qc) eqn:H1; [auto |].
  apply bool_decide_eq_false in H1.
  destruct Hbad as [Hbad | Hbad]; [contradiction |].
  rewrite bool_decide_eq_true_2 by exact Hbad. auto.
Qed.

Lemma validate_counter_good self d :
  dec_action d = COUNTER -> ~ bad_counter self (dec_price d) ->
  validate_counter self d = d
  ∧ exists p, dec_price d = Some p ∧ (0 < p)%Qc ∧ (p ≤ capital self)%Qc.
Proof.
  intros Ha Hgood. unfold validate_counter.
  rewrite bool_decide_eq_true_2 by exact Ha.
  destruct (dec_price d) as [p |] eqn:Hp; simpl in Hgood; [| tauto].
  assert (H1 : ~ (capital self < p)%Qc) by tauto.
  assert (H2 : ~ (p ≤ 0)%Qc) by tauto.
  rewrite !bool_decide_eq_false_2 by assumption.
  split; [reflexivity |]. exists p. split; [reflexivity |]. split.
  - by apply Qclt_nge.
  - by apply Qcle_ngt.
Qed.


(** ** Building the result of an evaluation node from its parts *)

Section NodeResults.

Variable seller_llm :
  AgentState -> Qc -> Qc -> Qc -> Qc -> string -> Z ->
  list NegotiationMessage -> llm_output.
Variable buyer_llm :
  AgentState -> Qc -> Qc -> Listing -> string -> Z ->
  list NegotiationMessage -> llm_output.
Variable agents : gmap string AgentState.

Lemma seller_evaluates_offer_intro st seller item d txt m :
  agents !! seller_id st = Some seller ->
  find_item (name (lst_product (listing st))) (inventory seller) = Some item ->
  evaluate_offer_as_seller seller_llm seller (current_offer st)
    (item_cost_basis item) (listing_price (listing st))
    (minimum_acceptable (listing st)) (buyer_id st) (current_round st)
    (history st) = Ok d ->
  match dec_action d with
  | ACCEPT =>
      message_or (dec_message d)
        (p <- format_price (current_offer st) ;; Ok (AcceptText p))
  | REJECT =>
      message_or (dec_message d)
        (p <- format_price (current_offer st) ;; Ok (RejectText p))
  | _ =>
      message_or (dec_message d)
        (p <- format_price (dec_price d) ;; Ok (SellerCounterText p))
  end = Ok txt ->
  new_NegotiationMessage (current_round st) (seller_id st) (buyer_id st)
    (dec_action d) (dec_price d) txt = Ok m ->
  seller_evaluates_offer seller_llm agents st
  = Ok (record_message m (seller_update d st)).
Proof.
  intros Hs Hitem Hd Htxt Hm. unfold seller_evaluates_offer, getitem.
  rewrite Hs. cbn [rbind]. rewrite Hitem, Hd. cbn [rbind].
  unfold seller_update.
  destruct (dec_action d); rewrite Htxt; cbn [rbind fst snd];
    rewrite Hm; reflexivity.
Qed.

Lemma buyer_evaluates_counter_intro st buyer d txt m :
  agents !! buyer_id st = Some buyer ->
  evaluate_counter_as_buyer buyer_llm buyer (current_offer st)
    (buyer_last_offer st) (listing st) (seller_id st) (current_round st + 1)
    (history st) = Ok d ->
  match dec_action d with
  | ACCEPT =>
      message_or (dec_message d)
        (p <- format_price (current_offer st) ;; Ok (AcceptText p))
  | WALK_AWAY => message_or (dec_message d) (Ok PassText)
  | _ =>
      message_or (dec_message d)
        (p <- format_price (dec_price d) ;; Ok (BuyerCounterText p))
  end = Ok txt ->
  new_NegotiationMessage (current_round st + 1) (buyer_id st) (seller_id st)
    (dec_action d) (dec_price d) txt = Ok m ->
  buyer_evaluates_counter buyer_llm agents st
  = Ok (record_message m
          (buyer_update d (set_current_round (current_round st + 1) st))).
Proof.
  intros Hb Hd Htxt Hm. unfold buyer_evaluates_counter, getitem. cbv zeta.
  set (r := current_round st + 1) in *.
  change (buyer_last_offer (set_current_round r st)) with (buyer_last_offer st).
  change (buyer_id (set_current_round r st)) with (buyer_id st).
  change (seller_id (set_current_round r st)) with (seller_id st).
  change (listing (set_current_round r st)) with (listing st).
  change (history (set_current_round r st)) with (history st).
  change (current_offer (set_current_round r st)) with (current_offer st).
  change (current_round (set_current_round r st)) with r.
  rewrite Hb. cbn [rbind]. rewrite Hd. cbn [rbind]. unfold buyer_update.
  destruct (dec_action d); rewrite Htxt; cbn [rbind fst snd];
    rewrite Hm; reflexivity.
Qed.

(** C5: a buyer policy that answers COUNTER at the buyer's evaluation.
    When the price is missing, above the buyer's capital, or not positive,
    the decision becomes WALK_AWAY with no price: the node records that
    message, the status is [walked_away] and the graph goes to the failure
    node. Otherwise the current offer becomes the counter price, the
    status is unchanged and the graph goes to the round check. *)
Theorem C5_buyer_counter_guard st buyer c d :
  agents !! buyer_id st = Some buyer ->
  current_offer st = Some c ->
  initial_offer st <> 0%Qc ->
  listing_price (listing st) <> 0%Qc ->
  nonempty (buyer_id st) = true ->
  nonempty (seller_id st) = true ->
  0 ≤ current_round st -> current_round st < 5 ->
  buyer_llm buyer c (buyer_last_offer st) (listing st) (seller_id st)
    (current_round st + 1) (history st) = LlmDecision d ->
  dec_action d = COUNTER ->
  (bad_counter buyer (dec_price d) ->
     exists st' m,
       buyer_evaluates_counter buyer_llm agents st = Ok st'
       ∧ status st' = walked_away
       ∧ history st' = (history st ++ [m])%list
       ∧ msg_action m = WALK_AWAY ∧ msg_price m = None
       ∧ current_offer st' = current_offer st
       ∧ next_node buyer_evaluates st' = failure)
  ∧ (~ bad_counter buyer (dec_price d) ->
     exists st' p,
       dec_price d = Some p ∧ (0 < p)%Qc ∧ (p ≤ capital buyer)%Qc
       ∧ buyer_evaluates_counter buyer_llm agents st = Ok st'
       ∧ current_offer st' = Some p
       ∧ status st' = status st
       ∧ next_node buyer_evaluates st' = check_rounds).
Proof.
  intros Hb Hc H0 Hl Hbid Hsid Hr0 Hr5 Hllm Ha.
  assert (Heval :
    evaluate_counter_as_buyer buyer_llm buyer (current_offer st)
      (buyer_last_offer st) (listing st) (seller_id st) (current_round st + 1)
      (history st) = Ok (validate_counter buyer d)).
  { rewrite Hc, evaluate_counter_as_buyer_prompt_ok;
      [by rewrite Hllm | by apply buyer_last_offer_nonzero | exact Hl]. }
  split.
  - intros Hbad.
    destruct (validate_counter_bad buyer d Ha Hbad) as [Ha' Hp'].
    destruct (message_or_Ok (dec_message (validate_counter buyer d))
                (Ok PassText) PassText eq_refl eq_refl) as (txt & Htxt & Hne).
    eexists _, _. split.
    { eapply buyer_evaluates_counter_intro; [exact Hb | exact Heval | |].
      - rewrite Ha'. exact Htxt.
      - apply new_NegotiationMessage_valid; try assumption; try lia.
        by rewrite Hp'. }
    unfold buyer_update, _route_buyer_decision. rewrite Ha', Hp'. simpl.
    repeat split; reflexivity.
  - intros Hgood.
    destruct (validate_counter_good buyer d Ha Hgood) as [Hv (p & Hp & Hpos & Hle)].
    rewrite Hv in Heval.
    destruct (message_or_Ok (dec_message d)
                (q <- format_price (dec_price d) ;; Ok (BuyerCounterText q))
                (BuyerCounterText p)) as (txt & Htxt & Hne);
      [by rewrite Hp | reflexivity |].
    eexists _, p. split; [exact Hp |]. split; [exact Hpos |].
    split; [exact Hle |]. split.
    { eapply buyer_evaluates_counter_intro; [exact Hb | exact Heval | |].
      - rewrite Ha. exact Htxt.
      - apply new_NegotiationMessage_valid; try assumption; try lia.
        rewrite Hp. simpl. by apply bool_decide_eq_true_2. }
    unfold buyer_update, _route_buyer_decision. rewrite Ha, Hp. simpl.
    repeat split; reflexivity.
Qed.

End NodeResults.

Lemma usd_nonzero (n : Z) : n <> 0 -> usd n <> 0%Qc.
Proof.
  intros Hn H. apply (f_equal this) in H. unfold usd, Qc_of_Z in H.
  simpl in H. injection H as H. lia.
Qed.

Lemma C5_witness :
  bad_counter (agent_of "agent_002" (usd 50) []) (dec_price (counter_at 90))
  ∧ exists st' m,
      buyer_evaluates_counter (buyer_says (counter_at 90)) scenario_D_agents
        scenario_D_countered = Ok st'
      ∧ status st' = walked_away
      ∧ history st' = (history scenario_D_countered ++ [m])%list
      ∧ msg_action m = WALK_AWAY ∧ msg_price m = None
      ∧ current_offer st' = current_offer scenario_D_countered
      ∧ next_node buyer_evaluates st' = failure.
Proof.
  assert (Hbad : bad_counter (agent_of "agent_002" (usd 50) [])
                   (dec_price (counter_at 90)))
    by (left; vm_compute; reflexivity).
  split; [exact Hbad |].
  refine (proj1 (C5_buyer_counter_guard (buyer_says (counter_at 90))
                   scenario_D_agents scenario_D_countered
                   (agent_of "agent_002" (usd 50) []) (usd 90) (counter_at 90)
                   _ _ _ _ _ _ _ _ _ _) Hbad);
    try (vm_compute; reflexivity); try (apply usd_nonzero; lia);
    vm_compute; discriminate.
Defined.

(** C8 fails on the code at the boundary. Both fallbacks are applied
    instead of raising, and the buyer's walks away, but the seller's
    compares with a strict inequality: when the policy call fails on an
    offer of 80 for a listing whose minimum acceptable price is 80, the
    decision is REJECT, not ACCEPT. *)
Theorem C8_fallback_rejects_offer_at_minimum :
  (usd 80 ≤ usd 80)%Qc
  ∧ evaluate_offer_as_seller seller_fails (agent_of "agent_001" (usd 5000) [])
      (Some (usd 80)) (usd 60) (usd 100) (usd 80) "agent_002" 1 []
    = Ok (fallback_decision REJECT)
  ∧ evaluate_offer_as_seller seller_fails (agent_of "agent_001" (usd 5000) [])
      (Some (usd 80)) (usd 60) (usd 100) (usd 80) "agent_002" 1 []
    <> Ok (fallback_decision ACCEPT)
  ∧ evaluate_counter_as_buyer buyer_fails (agent_of "agent_002" (usd 5000) [])
      (Some (usd 90)) (usd 70) desk_listing "agent_001" 2 []
    = Ok (fallback_decision WALK_AWAY).
Proof.
  split; [apply Qcle_refl |]. split; [vm_compute; reflexivity |].
  split; [vm_compute; discriminate | vm_compute; reflexivity].
Qed.

(** The fallbacks at work: an offer of 81 against a minimum of 80 is
    accepted when the seller's policy fails. *)
Lemma policy_failure_fallbacks_example :
  evaluate_offer_as_seller seller_fails (agent_of "agent_001" (usd 5000) [])
    (Some (usd 81)) (usd 60) (usd 100) (usd 80) "agent_002" 1 []
  = Ok (fallback_decision ACCEPT).
Proof.
  refine (proj1 (policy_failure_fallbacks seller_fails buyer_fails
                   (agent_of "agent_001" (usd 5000) []) (usd 81) (usd 60)
                   (usd 100) (usd 80) "agent_002" 1 []
                   (agent_of "agent_002" (usd 5000) []) (usd 90) (usd 70)
                   desk_listing "agent_001" 2 []
                   (usd_nonzero 60 ltac:(lia)) (usd_nonzero 100 ltac:(lia))
                   (usd_nonzero 80 ltac:(lia)) (usd_nonzero 70 ltac:(lia))
                   (usd_nonzero 100 ltac:(lia)) eq_refl eq_refl) _).
  vm_compute. reflexivity.
Defined.

(** ** Settlement *)

Lemma capital_add_transaction_memory t a :
  capital (add_transaction_memory t a) = capital a.
Proof. unfold add_transaction_memory. destruct (bool_decide _); reflexivity. Qed.

Lemma capitals_alter f g k (m1 m2 : gmap string AgentState) :
  (forall a a', capital a = capital a' -> capital (f a) = capital (g a')) ->
  capitals m1 = capitals m2 ->
  capitals (alter f k m1) = capitals (alter g k m2).
Proof.
  intros Hfg Hm. apply map_eq. intros i.
  apply (f_equal (fun m => m !! i)) in Hm.
  unfold capitals in *. rewrite !lookup_fmap in *.
  destruct (decide (k = i)) as [-> | Hne].
  - rewrite !lookup_alter_eq.
    destruct (m1 !! i), (m2 !! i); simpl in *; try congruence.
    injection Hm as Hm. f_equal. by apply Hfg.
  - by rewrite !lookup_alter_ne.
Qed.

(** The capitals after a settlement do not depend on the agreed price. *)
Lemma settlement_ignores_final_price agents t fp :
  capitals (_complete_transaction agents (set_txn_final_price fp t)).1
  = capitals (_complete_transaction agents t).1.
Proof.
  unfold _complete_transaction. simpl.
  destruct (agents !! txn_buyer_id t); [| reflexivity].
  destruct (agents !! txn_seller_id t) as [seller |]; [| reflexivity].
  destruct (find_item _ _) as [item |]; simpl.
  - destruct (new_InventoryItem _ _) as [new_item | e]; simpl; [| reflexivity].
    repeat (apply capitals_alter;
            [intros x y Hxy; rewrite ?capital_add_transaction_memory; simpl;
             congruence |]).
    reflexivity.
  - repeat (apply capitals_alter;
            [intros x y Hxy; rewrite ?capital_add_transaction_memory; simpl;
             congruence |]).
    reflexivity.
Qed.

(** C7: a settlement that completes, between a buyer and a seller that
    are two different agents, leaves the buyer with its capital plus the
    cost basis of the transaction and the seller with its capital minus
    that cost basis; the other agents are untouched, and the capitals
    reached are the same whatever the agreed final price. *)
Theorem C7_settlement_moves_cost_basis agents t b s agents' :
  agents !! txn_buyer_id t = Some b ->
  agents !! txn_seller_id t = Some s ->
  txn_buyer_id t <> txn_seller_id t ->
  _complete_transaction agents t = (agents', Ok tt) ->
  capitals agents' !! txn_buyer_id t = Some (capital b + txn_cost_basis t)%Qc
  ∧ capitals agents' !! txn_seller_id t = Some (capital s - txn_cost_basis t)%Qc
  ∧ (forall id, id <> txn_buyer_id t -> id <> txn_seller_id t ->
       agents' !! id = agents !! id)
  ∧ (forall fp,
       capitals (_complete_transaction agents (set_txn_final_price fp t)).1
       = capitals agents').
Proof.
  intros Hb Hs Hne Hrun.
  assert (Hfp : forall fp,
            capitals (_complete_transaction agents (set_txn_final_price fp t)).1
            = capitals agents').
  { intros fp. rewrite settlement_ignores_final_price. by rewrite Hrun. }
  unfold _complete_transaction in Hrun. rewrite Hb, Hs in Hrun.
  destruct (find_item (name (txn_product t)) (inventory s)) as [item |];
    simpl in Hrun.
  - destruct (new_InventoryItem (txn_product t) (txn_cost_basis t))
      as [new_item | e]; simpl in Hrun; [| discriminate].
    injection Hrun as <-.
    split; [| split; [| split; [| exact Hfp]]]; unfold capitals;
      rewrite ?lookup_fmap.
    + rewrite lookup_alter_ne, lookup_alter_eq, lookup_alter_ne,
        lookup_alter_eq, lookup_alter_eq, lookup_alter_ne by congruence.
      rewrite Hb. simpl. by rewrite capital_add_transaction_memory.
    + rewrite lookup_alter_eq, lookup_alter_ne, lookup_alter_eq,
        lookup_alter_ne, lookup_alter_ne, lookup_alter_eq by congruence.
      rewrite Hs. simpl. by rewrite capital_add_transaction_memory.
    + intros id Hib His. by rewrite !lookup_alter_ne by congruence.
  - injection Hrun as <-.
    split; [| split; [| split; [| exact Hfp]]]; unfold capitals;
      rewrite ?lookup_fmap.
    + rewrite lookup_alter_ne, lookup_alter_eq, lookup_alter_ne,
        lookup_alter_eq by congruence.
      rewrite Hb. simpl. by rewrite capital_add_transaction_memory.
    + rewrite lookup_alter_eq, lookup_alter_ne, lookup_alter_eq,
        lookup_alter_ne by congruence.
      rewrite Hs. simpl. by rewrite capital_add_transaction_memory.
    + intros id Hib His. by rewrite !lookup_alter_ne by congruence.
Qed.

Lemma C7_witness :
  _complete_transaction (agents (desk_world (usd 5000) (usd 5000))) desk_sale
    = (desk_sale_settled, Ok tt)
  ∧ capitals desk_sale_settled !! "agent_002" = Some (usd 5000 + usd 60)%Qc
  ∧ capitals desk_sale_settled !! "agent_001" = Some (usd 5000 - usd 60)%Qc.
Proof.
  assert (Hrun :
    _complete_transaction (agents (desk_world (usd 5000) (usd 5000))) desk_sale
    = (desk_sale_settled, Ok tt)) by (vm_compute; reflexivity).
  split; [exact Hrun |].
  destruct (C7_settlement_moves_cost_basis
              (agents (desk_world (usd 5000) (usd 5000))) desk_sale
              (agent_of "agent_002" (usd 5000) [])
              (agent_of "agent_001" (usd 5000) [mkInventoryItem desk (usd 60)])
              desk_sale_settled)
    as (Hbuyer & Hseller & _); try (vm_compute; reflexivity).
  - vm_compute. discriminate.
  - split; [exact Hbuyer | exact Hseller].
Defined.

(** C6 fails on the code: the settlement debits the seller with the cost
    basis without looking at the seller's capital. A seller with a capital
    of 50 that sells an item bought at 60 ends the settlement with a
    negative capital. *)
Theorem C6_settlement_overdraws_seller :
  capital_of poor_seller_world "agent_001" = Some (usd 50)
  ∧ run_price poor_seller_run = Some (usd 85)
  ∧ exists c, run_capital poor_seller_run "agent_001" = Some c ∧ (c < 0)%Qc.
Proof.
  split; [vm_compute; reflexivity |]. split; [vm_compute; reflexivity |].
  exists (usd 50 - usd 60)%Qc. split; vm_compute; reflexivity.
Qed.

(** C4 fails on the code: only a buyer's counter is checked against the
    buyer's capital, an acceptance is not. A buyer with a capital of 50
    that accepts the seller's counter of 90 ends in a transaction at 90. *)
Theorem C4_buyer_accepts_beyond_capital :
  capital_of poor_buyer_world "agent_002" = Some (usd 50)
  ∧ run_price poor_buyer_run = Some (usd 90)
  ∧ (usd 50 < usd 90)%Qc.
Proof.
  split; [vm_compute; reflexivity |]. split; [vm_compute; reflexivity |].
  vm_compute. reflexivity.
Qed.

(** ** The round limit *)

Section RoundLimit.

Variable seller_llm :
  AgentState -> Qc -> Qc -> Qc -> Qc -> string -> Z ->
  list NegotiationMessage -> llm_output.
Variable buyer_llm :
  AgentState -> Qc -> Qc -> Listing -> string -> Z ->
  list NegotiationMessage -> llm_output.
Variable agents : gmap string AgentState.

(** At the round check, a state in round 5 or later is rejected and the
    graph ends through the failure node, whatever else the state holds. *)
Lemma check_rounds_stops st fuel :
  5 ≤ current_round st ->
  run_graph seller_llm buyer_llm agents (S (S fuel)) check_rounds st
  = Ok (set_last_action (Some REJECT) (set_status rejected st)).
Proof.
  intros H5. rewrite run_graph_S by discriminate.
  unfold graph_step. simpl. unfold check_max_rounds.
  rewrite bool_decide_eq_true_2 by exact H5. simpl.
  apply run_graph_END.
Qed.

Variable buyer : string.
Variable l : Listing.
Variable offer : Qc.
Variable seller_st buyer_st : AgentState.
Variable item : InventoryItem.

Hypothesis Hseller : seller_always_counters seller_llm seller_st.
Hypothesis Hbuyer : buyer_always_counters buyer_llm buyer_st.
Hypothesis Hs : agents !! lst_seller_id l = Some seller_st.
Hypothesis Hb : agents !! buyer = Some buyer_st.
Hypothesis Hitem :
  find_item (name (lst_product l)) (inventory seller_st) = Some item.
Hypothesis Hcost : item_cost_basis item <> 0%Qc.
Hypothesis Hlp : listing_price l <> 0%Qc.
Hypothesis Hma : minimum_acceptable l <> 0%Qc.
Hypothesis Hbid : nonempty buyer = true.
Hypothesis Hsid : nonempty (lst_seller_id l) = true.
Hypothesis Hoffer : (0 < offer)%Qc.

Lemma seller_counters st :
  open_session buyer l offer st ->
  1 ≤ current_round st -> current_round st ≤ 5 ->
  exists st',
    graph_step seller_llm buyer_llm agents seller_evaluates st
      = Ok (buyer_evaluates, st')
    ∧ open_session buyer l offer st'
    ∧ current_round st' = current_round st.
Proof using Hseller Hs Hitem Hcost Hlp Hma Hbid Hsid.
  intros (Hbi & Hsi & Hl & Hio & Hst & [c Hc]) H1 H5.
  destruct (Hseller c (item_cost_basis item) (listing_price l)
              (minimum_acceptable l) buyer (current_round st) (history st))
    as (d & p & Hd & Ha & Hp & Hpos).
  destruct (message_or_Ok (dec_message d)
              (q <- format_price (dec_price d) ;; Ok (SellerCounterText q))
              (SellerCounterText p)) as (txt & Htxt & Hne);
    [by rewrite Hp | reflexivity |].
  assert (Hnode :
    seller_evaluates_offer seller_llm agents st
    = Ok (record_message
            (mkNegotiationMessage (current_round st) (seller_id st)
               (buyer_id st) (dec_action d) (dec_price d) txt)
            (seller_update d st))).
  { apply (seller_evaluates_offer_intro seller_llm agents st seller_st item d txt).
    - by rewrite Hsi.
    - by rewrite Hl.
    - rewrite Hc, Hl, Hbi, evaluate_offer_as_seller_prompt_ok by assumption.
      by rewrite Hd.
    - rewrite Ha. exact Htxt.
    - apply new_NegotiationMessage_valid; try lia.
      + by rewrite Hsi.
      + by rewrite Hbi.
      + rewrite Hp. simpl. by apply bool_decide_eq_true_2.
      + exact Hne. }
  eexists. split.
  { unfold graph_step. simpl. rewrite Hnode. simpl.
    unfold _route_seller_decision. simpl. rewrite Ha. reflexivity. }
  unfold seller_update. rewrite Ha, Hp. simpl.
  split; [| reflexivity]. unfold open_session. simpl. eauto 10.
Qed.

Lemma buyer_counters st :
  open_session buyer l offer st ->
  0 ≤ current_round st -> current_round st < 5 ->
  exists st',
    graph_step seller_llm buyer_llm agents buyer_evaluates st
      = Ok (check_rounds, st')
    ∧ open_session buyer l offer st'
    ∧ current_round st' = current_round st + 1.
Proof using Hbuyer Hb Hlp Hbid Hsid Hoffer.
  intros (Hbi & Hsi & Hl & Hio & Hst & [c Hc]) H0 H5.
  destruct (Hbuyer c (buyer_last_offer st) l (lst_seller_id l)
              (current_round st + 1) (history st))
    as (d & p & Hd & Ha & Hp & Hpos & Hle).
  destruct (message_or_Ok (dec_message d)
              (q <- format_price (dec_price d) ;; Ok (BuyerCounterText q))
              (BuyerCounterText p)) as (txt & Htxt & Hne);
    [by rewrite Hp | reflexivity |].
  assert (Hgood : ~ bad_counter buyer_st (dec_price d)).
  { rewrite Hp. simpl. intros [Hlt | Hneg].
    - by apply Qcle_ngt in Hle.
    - by apply Qclt_nge in Hpos. }
  destruct (validate_counter_good buyer_st d Ha Hgood) as [Hv _].
  assert (Hnode :
    buyer_evaluates_counter buyer_llm agents st
    = Ok (record_message
            (mkNegotiationMessage (current_round st + 1) (buyer_id st)
               (seller_id st) (dec_action d) (dec_price d) txt)
            (buyer_update d (set_current_round (current_round st + 1) st)))).
  { apply (buyer_evaluates_counter_intro buyer_llm agents st buyer_st d txt).
    - by rewrite Hbi.
    - rewrite Hc, Hl, Hsi, evaluate_counter_as_buyer_prompt_ok.
      + by rewrite Hd, Hv.
      + apply buyer_last_offer_nonzero. rewrite Hio.
        intros Heq. exact (Qclt_not_eq _ _ Hoffer (eq_sym Heq)).
      + exact Hlp.
    - rewrite Ha. exact Htxt.
    - apply new_NegotiationMessage_valid; try lia.
      + by rewrite Hbi.
      + by rewrite Hsi.
      + rewrite Hp. simpl. by apply bool_decide_eq_true_2.
      + exact Hne. }
  eexists. split.
  { unfold graph_step. simpl. rewrite Hnode. simpl.
    unfold _route_buyer_decision. simpl. rewrite Ha. reflexivity. }
  unfold buyer_update. rewrite Ha, Hp. simpl.
  split; [| reflexivity]. unfold open_session. simpl. eauto 10.
Qed.

Lemma check_rounds_continues st :
  open_session buyer l offer st -> current_round st < 5 ->
  graph_step seller_llm buyer_llm agents check_rounds st
  = Ok (seller_evaluates, st).
Proof using Type.
  intros (_ & _ & _ & _ & Hst & _) H5. unfold graph_step. simpl.
  unfold check_max_rounds. rewrite bool_decide_eq_false_2 by lia. simpl.
  unfold _route_after_round_check. by rewrite Hst.
Qed.

(** From the seller's evaluation in round [5 - k], two parties that keep
    countering reach the round check in round 5, which rejects. *)
Lemma countering_ends_rejected (k : nat) : forall st fuel,
  open_session buyer l offer st ->
  current_round st = 5 - Z.of_nat k ->
  (1 ≤ k)%nat -> (k ≤ 4)%nat ->
  (3 * k + 1 ≤ fuel)%nat ->
  exists final,
    run_graph seller_llm buyer_llm agents fuel seller_evaluates st = Ok final
    ∧ status final = rejected ∧ current_round final = 5.
Proof using Hseller Hbuyer Hs Hb Hitem Hcost Hlp Hma Hbid Hsid Hoffer.
  induction k as [| k IH]; intros st fuel Hopen Hround Hk1 Hk4 Hfuel; [lia |].
  destruct (seller_counters st Hopen) as (st1 & Hstep1 & Hopen1 & Hr1); try lia.
  destruct (buyer_counters st1 Hopen1) as (st2 & Hstep2 & Hopen2 & Hr2); try lia.
  destruct fuel as [| [| fuel]]; try lia.
  rewrite run_graph_S by discriminate. rewrite Hstep1. cbn [rbind fst snd].
  rewrite run_graph_S by discriminate. rewrite Hstep2. cbn [rbind fst snd].
  destruct (decide (k = 0%nat)) as [-> | Hk].
  - destruct fuel as [| [| fuel]]; try lia.
    rewrite check_rounds_stops by lia. eexists. split; [reflexivity |].
    simpl. split; [reflexivity | lia].
  - destruct fuel as [| fuel]; try lia.
    rewrite run_graph_S by discriminate.
    rewrite check_rounds_continues by (assumption || lia).
    cbn [rbind fst snd].
    apply IH; try assumption; lia.
Qed.

Lemma countering_session_rejected neg_uuid :
  exists final,
    invoke seller_llm buyer_llm agents (initial_state neg_uuid buyer l offer)
      = Ok final
    ∧ status final = rejected ∧ current_round final = 5.
Proof using Hseller Hbuyer Hs Hb Hitem Hcost Hlp Hma Hbid Hsid Hoffer.
  unfold invoke, recursion_limit. rewrite run_graph_S by discriminate.
  unfold graph_step, run_node, buyer_makes_initial_offer.
  rewrite new_NegotiationMessage_valid;
    [| simpl; lia | simpl; lia | exact Hbid | exact Hsid
     | by apply bool_decide_eq_true_2 | reflexivity].
  cbn [rbind fst snd next_node].
  apply (countering_ends_rejected 4); try lia; [| reflexivity].
  unfold open_session. simpl. eauto 10.
Qed.

End RoundLimit.

(** C2: the round check rejects any state in round 5 or later, whatever
    counter is pending, and the graph then ends. A session in which the
    seller and the buyer counter at every call therefore ends with status
    [rejected] after 5 rounds, and the world is left as it was: no
    transaction is recorded and the listing is still active. *)
Theorem C2_round_limit_forces_rejection
    seller_llm buyer_llm w neg_uuid trx_uuid buyer l offer
    seller_st buyer_st item :
  seller_always_counters seller_llm seller_st ->
  buyer_always_counters buyer_llm buyer_st ->
  agents w !! lst_seller_id l = Some seller_st ->
  agents w !! buyer = Some buyer_st ->
  find_item (name (lst_product l)) (inventory seller_st) = Some item ->
  item_cost_basis item <> 0%Qc ->
  listing_price l <> 0%Qc ->
  minimum_acceptable l <> 0%Qc ->
  nonempty buyer = true ->
  nonempty (lst_seller_id l) = true ->
  (0 < offer)%Qc ->
  (forall st fuel,
     5 ≤ current_round st ->
     run_graph seller_llm buyer_llm (agents w) (S (S fuel)) check_rounds st
     = Ok (set_last_action (Some REJECT) (set_status rejected st)))
  ∧ (exists msgs,
       start_negotiation seller_llm buyer_llm w neg_uuid trx_uuid buyer l offer
       = (w, Failed rejected 5 msgs))
  ∧ completed_transactions
      (marketplace
         (start_negotiation seller_llm buyer_llm w neg_uuid trx_uuid buyer l
            offer).1)
    = completed_transactions (marketplace w)
  ∧ get_listing
      (marketplace
         (start_negotiation seller_llm buyer_llm w neg_uuid trx_uuid buyer l
            offer).1) (listing_id l)
    = get_listing (marketplace w) (listing_id l).
Proof.
  intros Hseller Hbuyer Hs Hb Hitem Hcost Hlp Hma Hbid Hsid Hoffer.
  split; [intros st fuel; apply check_rounds_stops |].
  destruct (countering_session_rejected seller_llm buyer_llm (agents w) buyer l
              offer seller_st buyer_st item Hseller Hbuyer Hs Hb Hitem Hcost
              Hlp Hma Hbid Hsid Hoffer neg_uuid)
    as (final & Hrun & Hst & Hround).
  assert (Hres :
    start_negotiation seller_llm buyer_llm w neg_uuid trx_uuid buyer l offer
    = (w, Failed rejected 5 (history final))).
  { unfold start_negotiation. rewrite Hrun.
    rewrite bool_decide_eq_false_2 by (rewrite Hst; discriminate).
    by rewrite Hb, Hs, Hst, Hround. }
  rewrite Hres. simpl. eauto.
Qed.

Lemma C2_witness :
  seller_always_counters (seller_says (counter_at 90))
    (agent_of "agent_001" (usd 5000) [mkInventoryItem desk (usd 60)])
  ∧ buyer_always_counters (buyer_says (counter_at 75))
      (agent_of "agent_002" (usd 5000) [])
  ∧ exists msgs,
      start_negotiation (seller_says (counter_at 90)) (buyer_says (counter_at 75))
        (desk_world (usd 5000) (usd 5000)) "0a1b2c3d" "4e5f6a7b" "agent_002"
        desk_listing (usd 70)
      = (desk_world (usd 5000) (usd 5000), Failed rejected 5 msgs).
Proof.
  assert (Hseller : seller_always_counters (seller_says (counter_at 90))
            (agent_of "agent_001" (usd 5000) [mkInventoryItem desk (usd 60)])).
  { intros offer cost lp ma b r h. exists (counter_at 90), (usd 90).
    repeat split. }
  assert (Hbuyer : buyer_always_counters (buyer_says (counter_at 75))
            (agent_of "agent_002" (usd 5000) [])).
  { intros counter last l s r h. exists (counter_at 75), (usd 75).
    repeat split. vm_compute. discriminate. }
  split; [exact Hseller |]. split; [exact Hbuyer |].
  refine (proj1 (proj2
    (C2_round_limit_forces_rejection (seller_says (counter_at 90))
       (buyer_says (counter_at 75)) (desk_world (usd 5000) (usd 5000))
       "0a1b2c3d" "4e5f6a7b" "agent_002" desk_listing (usd 70)
       (agent_of "agent_001" (usd 5000) [mkInventoryItem desk (usd 60)])
       (agent_of "agent_002" (usd 5000) []) (mkInventoryItem desk (usd 60))
       Hseller Hbuyer _ _ _ _ _ _ _ _ _)));
    try (vm_compute; reflexivity); apply usd_nonzero; lia.
Defined.

(** ** The shape of a session *)

Lemma new_NegotiationMessage_price r f t a p txt m :
  new_NegotiationMessage r f t a p txt = Ok m -> positive_price p = true.
Proof.
  unfold new_NegotiationMessage.
  destruct (positive_price p); [reflexivity |].
  rewrite andb_false_r. simpl. discriminate.
Qed.

Lemma history_ok_snoc b s h m :
  history_ok b s h -> message_at b s (length h) m -> history_ok b s (h ++ [m]).
Proof.
  intros Hh Hm i x Hi. apply lookup_app_Some in Hi.
  destruct Hi as [Hi | [Hlen Hi]]; [by apply Hh |].
  apply list_lookup_singleton_Some in Hi. destruct Hi as [Hi ->].
  replace i with (length h) by lia. exact Hm.
Qed.

Lemma head_app_Some {A : Type} (x : A) (l k : list A) :
  head l = Some x -> head (l ++ k) = Some x.
Proof. destruct l; simpl; [discriminate | auto]. Qed.

Section SessionShape.

Variable seller_llm :
  AgentState -> Qc -> Qc -> Qc -> Qc -> string -> Z ->
  list NegotiationMessage -> llm_output.
Variable buyer_llm :
  AgentState -> Qc -> Qc -> Listing -> string -> Z ->
  list NegotiationMessage -> llm_output.
Variable agents : gmap string AgentState.
Variable buyer : string.
Variable l : Listing.
Variable offer : Qc.

Lemma session_inv_initial neg_uuid :
  session_inv agents buyer l offer buyer_offer
    (initial_state neg_uuid buyer l offer).
Proof.
  unfold session_inv, same_parties, history_count. simpl.
  split; [auto |]. split; [intros i m Hi; discriminate |].
  split; [reflexivity |]. split; [intros H; contradiction |].
  split; [| intros H; contradiction].
  intros [H | [H | [H | [H _]]]]; discriminate.
Qed.

Lemma session_inv_step n st n' st' :
  node_inv n st -> session_inv agents buyer l offer n st -> n <> END ->
  graph_step seller_llm buyer_llm agents n st = Ok (n', st') ->
  session_inv agents buyer l offer n' st'.
Proof.
  intros [Hr Hn] (Hp & Hh & Hc & Hfirst & Hitem & Hpos) Hend H.
  apply graph_step_Ok in H. destruct H as [H ->].
  destruct Hp as (Hb & Hs & Hl & Ho).
  destruct n; simpl in H; try contradiction.
  - (* buyer_offer *)
    apply buyer_makes_initial_offer_Ok in H. destruct H as (m & Hm & ->).
    pose proof (new_NegotiationMessage_price _ _ _ _ _ _ _ Hm) as Hprice.
    apply new_NegotiationMessage_Ok in Hm. destruct Hm as (-> & _ & _).
    destruct Hn as [H1 _]. unfold history_count in Hc. simpl in Hc.
    destruct (history st) as [| x h] eqn:Hhist; [| simpl in Hc; lia].
    unfold session_inv, same_parties, history_count. simpl.
    rewrite Hhist. simpl. rewrite Hb, Hs, Hl, Ho, H1.
    split; [auto |]. split; [| split; [lia | split; [reflexivity | split]]].
    + intros i m Hi. apply list_lookup_singleton_Some in Hi.
      destruct Hi as [-> <-]. unfold message_at. simpl.
      split; [reflexivity | by left].
    + intros [H | [H | [H | [H _]]]]; discriminate.
    + intros _ p [= <-]. simpl in Hprice. rewrite Ho in Hprice.
      by apply bool_decide_eq_true in Hprice.
  - (* seller_evaluates *)
    destruct Hn as [H4 Ha]. unfold history_count in Hc. simpl in Hc.
    specialize (Hfirst ltac:(discriminate)).
    specialize (Hpos ltac:(discriminate)).
    apply seller_evaluates_offer_Ok in H.
    destruct H as (seller & Hsel &
                   [[_ ->] | (item & d & txt & m & Hfind & _ & Hm & ->)]).
    + unfold session_inv, same_parties, history_count. simpl.
      split; [auto |]. split; [exact Hh |]. split; [lia |].
      split; [intros _; exact Hfirst |].
      split; [| intros _; exact Hpos].
      intros [H | [H | [H | [H _]]]]; discriminate.
    + pose proof (new_NegotiationMessage_price _ _ _ _ _ _ _ Hm) as Hprice.
      apply new_NegotiationMessage_Ok in Hm. destruct Hm as (-> & _ & _).
      assert (Hhas : seller_has_item agents l).
      { exists seller, item. rewrite <- Hs, <- Hl. auto. }
      assert (Hmsg : history_ok buyer (lst_seller_id l)
                       (history st ++ [mkNegotiationMessage (current_round st)
                          (seller_id st) (buyer_id st) (dec_action d)
                          (dec_price d) txt])).
      { apply history_ok_snoc; [exact Hh |].
        unfold message_at. simpl. rewrite Hb, Hs.
        split; [| right; split; [| auto]]; Z.div_mod_to_equations; lia. }
      assert (Hnew : forall p, dec_price d = Some p -> (0 < p)%Qc).
      { intros p Hq. rewrite Hq in Hprice.
        by apply bool_decide_eq_true in Hprice. }
      unfold session_inv, same_parties, history_count, _route_seller_decision,
        seller_update.
      simpl.
      destruct (dec_action d); simpl;
        try (destruct (dec_price d) as [q |]; simpl);
        rewrite ?length_app; simpl;
        (split; [auto |]); (split; [exact Hmsg |]);
        (split; [lia |]);
        (split; [intros _; by apply head_app_Some |]);
        (split; [intros _; exact Hhas |]);
        intros _; first [exact Hpos | exact Hnew].
  - (* buyer_evaluates *)
    destruct Hn as [H4 Ha]. unfold history_count in Hc. simpl in Hc.
    specialize (Hfirst ltac:(discriminate)).
    specialize (Hpos ltac:(discriminate)).
    specialize (Hitem ltac:(by left)).
    apply buyer_evaluates_counter_Ok in H.
    destruct H as (b & d & txt & m & _ & _ & Hm & ->).
    pose proof (new_NegotiationMessage_price _ _ _ _ _ _ _ Hm) as Hprice.
    apply new_NegotiationMessage_Ok in Hm. destruct Hm as (-> & _ & _).
    assert (Hmsg : history_ok buyer (lst_seller_id l)
                     (history st ++ [mkNegotiationMessage (current_round st + 1)
                        (buyer_id st) (seller_id st) (dec_action d)
                        (dec_price d) txt])).
    { apply history_ok_snoc; [exact Hh |].
      unfold message_at. simpl. rewrite Hb, Hs.
      split; [| left; split; [| auto]]; Z.div_mod_to_equations; lia. }
    assert (Hnew : forall p, dec_price d = Some p -> (0 < p)%Qc).
    { intros p Hq. rewrite Hq in Hprice.
      by apply bool_decide_eq_true in Hprice. }
    unfold session_inv, same_parties, history_count, _route_buyer_decision,
      buyer_update.
    simpl.
    destruct (dec_action d); simpl;
      rewrite ?length_app; simpl;
      (split; [auto |]); (split; [exact Hmsg |]);
      (split; [lia |]);
      (split; [intros _; by apply head_app_Some |]);
      (split; [intros _; exact Hitem |]);
      intros _; first [exact Hpos | exact Hnew].
  - (* check_rounds *)
    unfold history_count in Hc. simpl in Hc.
    specialize (Hfirst ltac:(discriminate)).
    specialize (Hpos ltac:(discriminate)).
    injection H as <-. unfold check_max_rounds.
    destruct (bool_decide (5 ≤ current_round st)) eqn:H5.
    + unfold session_inv, same_parties, history_count. simpl.
      split; [auto |]. split; [exact Hh |]. split; [lia |].
      split; [intros _; exact Hfirst |].
      split; [| intros _; exact Hpos].
      intros [H | [H | [H | [H _]]]]; discriminate.
    + simpl. unfold _route_after_round_check. rewrite Hn. simpl.
      unfold session_inv, same_parties, history_count.
      split; [auto |]. split; [exact Hh |]. split; [lia |].
      split; [intros _; exact Hfirst |].
      split; [| intros _; exact Hpos].
      intros [H | [H | [H | [H _]]]]; discriminate.
  - (* success *)
    injection H as <-. unfold finalized_success.
    specialize (Hfirst ltac:(discriminate)).
    specialize (Hpos ltac:(discriminate)).
    specialize (Hitem ltac:(right; right; by left)).
    unfold session_inv, same_parties. simpl. auto 10.
  - (* failure *)
    injection H as <-. unfold finalized_failure.
    specialize (Hfirst ltac:(discriminate)).
    specialize (Hpos ltac:(discriminate)).
    unfold session_inv, same_parties.
    split; [auto |]. split; [exact Hh |]. split; [exact Hc |].
    split; [intros _; exact Hfirst |].
    split; [| intros _; exact Hpos].
    intros [H | [H | [H | [_ H]]]]; try discriminate.
    destruct Hn as [Hn | Hn]; congruence.
Qed.

Lemma reachable_session_inv neg_uuid n st :
  reachable seller_llm buyer_llm agents (initial_state neg_uuid buyer l offer) n st ->
  session_inv agents buyer l offer n st.
Proof.
  intros H.
  assert (Hboth : node_inv n st ∧ session_inv agents buyer l offer n st).
  { induction H as [| n st n' st' _ [IH1 IH2] Hend Hstep].
    - split; [apply node_inv_initial | apply session_inv_initial].
    - split.
      + exact (proj1 (node_inv_step _ _ _ _ _ _ _ IH1 Hend Hstep)).
      + exact (session_inv_step _ _ _ _ IH1 IH2 Hend Hstep). }
  exact (proj2 Hboth).
Qed.

Lemma invoke_session_inv neg_uuid final :
  invoke seller_llm buyer_llm agents (initial_state neg_uuid buyer l offer)
    = Ok final ->
  session_inv agents buyer l offer END final.
Proof.
  intros H. apply (reachable_session_inv neg_uuid). by apply invoke_reachable.
Qed.

End SessionShape.

(** ** What [start_negotiation] does with the outcome of a session *)

Lemma _create_transaction_Ok agents uuid st t :
  _create_transaction agents uuid st = Ok t ->
  exists seller fp,
    agents !! seller_id st = Some seller
    ∧ final_price st = Some fp
    ∧ (0 < fp)%Qc
    ∧ (0 < current_round st ∧ current_round st ≤ 5)
    ∧ t = mkTransaction ("trx_" +:+ uuid) (buyer_id st) (seller_id st)
            (lst_product (listing st)) fp
            match find_item (name (lst_product (listing st))) (inventory seller) with
            | Some item => item_cost_basis item
            | None => (listing_price (listing st) * Q2Qc (3 # 4))%Qc
            end (current_round st).
Proof.
  unfold _create_transaction. intros H.
  apply rbind_Ok in H. destruct H as (seller & Hs & H).
  apply getitem_Ok in Hs. exists seller.
  unfold new_Transaction in H.
  destruct (final_price st) as [fp |]; [| discriminate]. exists fp.
  destruct (nonempty _ && _ && _) eqn:H1; simpl in H; [| discriminate].
  repeat match type of H with
  | context [bool_decide ?P] =>
      destruct (bool_decide P) eqn:?; simpl in H; [| discriminate]
  end.
  repeat match goal with
  | Hx : bool_decide _ = true |- _ => apply bool_decide_eq_true in Hx
  end.
  injection H as <-. auto.
Qed.

Section Outcome.

Variable seller_llm :
  AgentState -> Qc -> Qc -> Qc -> Qc -> string -> Z ->
  list NegotiationMessage -> llm_output.
Variable buyer_llm :
  AgentState -> Qc -> Qc -> Listing -> string -> Z ->
  list NegotiationMessage -> llm_output.

Lemma start_negotiation_Succeeded w neg_uuid trx_uuid buyer l offer w' t p r h :
  start_negotiation seller_llm buyer_llm w neg_uuid trx_uuid buyer l offer
    = (w', Succeeded t p r h) ->
  exists final,
    invoke seller_llm buyer_llm (agents w) (initial_state neg_uuid buyer l offer)
      = Ok final
    ∧ status final = accepted
    ∧ _create_transaction (agents w) trx_uuid final = Ok t
    ∧ (_complete_transaction (agents w) t).2 = Ok tt
    ∧ w' = mkWorld (_complete_transaction (agents w) t).1
             (record_transaction t
                (remove_listing (listing_id l) (marketplace w)))
    ∧ p = final_price final ∧ r = current_round final ∧ h = history final.
Proof.
  unfold start_negotiation.
  destruct (invoke _ _ _ _) as [final | e] eqn:Hrun; [| discriminate].
  destruct (bool_decide (status final = accepted)) eqn:Hacc.
  - apply bool_decide_eq_true in Hacc.
    destruct (_create_transaction _ _ _) as [t0 | e] eqn:Ht; [| discriminate].
    destruct (_complete_transaction (agents w) t0).2 as [[] | e] eqn:Hdone;
      [| discriminate].
    intros [= <- <- <- <- <-]. exists final. rewrite Hdone. auto 10.
  - destruct (agents w !! buyer), (agents w !! lst_seller_id l); discriminate.
Qed.

Lemma start_negotiation_Failed w neg_uuid trx_uuid buyer l offer w' s r h :
  start_negotiation seller_llm buyer_llm w neg_uuid trx_uuid buyer l offer
    = (w', Failed s r h) ->
  exists final,
    invoke seller_llm buyer_llm (agents w) (initial_state neg_uuid buyer l offer)
      = Ok final
    ∧ status final <> accepted
    ∧ is_Some (agents w !! buyer) ∧ is_Some (agents w !! lst_seller_id l)
    ∧ w' = w ∧ s = status final ∧ r = current_round final
    ∧ h = history final.
Proof.
  unfold start_negotiation.
  destruct (invoke _ _ _ _) as [final | e] eqn:Hrun; [| discriminate].
  destruct (bool_decide (status final = accepted)) eqn:Hacc.
  - destruct (_create_transaction _ _ _) as [t0 | e] eqn:Ht; [| discriminate].
    destruct (_complete_transaction (agents w) t0).2; discriminate.
  - apply bool_decide_eq_false in Hacc.
    destruct (agents w !! buyer), (agents w !! lst_seller_id l);
      try discriminate.
    intros [= <- <- <- <-]. exists final. repeat split; eauto.
Qed.

(** X1: a session never runs into the recursion limit of the graph, and a
    session that returns has been decided: its final status is accepted,
    rejected or walked_away, never active. *)
Theorem X1_session_ends_decided agents neg_uuid buyer l offer :
  invoke seller_llm buyer_llm agents (initial_state neg_uuid buyer l offer)
    <> Raise GraphRecursionError
  ∧ (forall final,
       invoke seller_llm buyer_llm agents (initial_state neg_uuid buyer l offer)
         = Ok final ->
       status final = accepted ∨ status final = rejected
       ∨ status final = walked_away).
Proof.
  split; [apply invoke_within_limit |].
  intros final Hrun.
  apply invoke_inv in Hrun; [| apply node_inv_initial].
  destruct Hrun as [_ [Hact _]]. destruct (status final); auto. contradiction.
Qed.

(** X2: the history a session returns starts with the buyer's opening
    offer, holds between one and nine messages, at most two per round
    reached, and the message at position i (from 0) carries the round
    number i/2 + 1 and goes from the buyer to the seller when i is even,
    from the seller to the buyer when i is odd. *)
Theorem X2_history_shape agents neg_uuid buyer l offer final :
  invoke seller_llm buyer_llm agents (initial_state neg_uuid buyer l offer)
    = Ok final ->
  head (history final) = Some (opening_message buyer l offer)
  ∧ (1 ≤ length (history final) ∧ length (history final) ≤ 9)%nat
  ∧ Z.of_nat (length (history final)) ≤ 2 * current_round final
  ∧ (forall i m, history final !! i = Some m ->
       message_at buyer (lst_seller_id l) i m).
Proof.
  intros Hrun. apply invoke_session_inv in Hrun.
  destruct Hrun as (_ & Hh & Hc & Hfirst & _).
  unfold history_count in Hc. simpl in Hc.
  split; [apply Hfirst; discriminate |].
  split; [lia |]. split; [lia | exact Hh].
Qed.

(** X3: a successful negotiation takes the listing off the market, leaves
    every other listing in place, and appends exactly one transaction to
    the completed ones; that transaction names the buyer, the seller and
    the product of the listing, and carries the final price (positive) and
    the number of rounds the result reports. *)
Theorem X3_success_updates_market w neg_uuid trx_uuid buyer l offer w' t p r h :
  start_negotiation seller_llm buyer_llm w neg_uuid trx_uuid buyer l offer
    = (w', Succeeded t p r h) ->
  get_listing (marketplace w') (listing_id l) = None
  ∧ (forall id, id <> listing_id l ->
       get_listing (marketplace w') id = get_listing (marketplace w) id)
  ∧ completed_transactions (marketplace w')
    = (completed_transactions (marketplace w) ++ [t])%list
  ∧ txn_buyer_id t = buyer ∧ txn_seller_id t = lst_seller_id l
  ∧ txn_product t = lst_product l
  ∧ p = Some (txn_final_price t) ∧ (0 < txn_final_price t)%Qc
  ∧ negotiation_rounds t = r.
Proof.
  intros H. apply start_negotiation_Succeeded in H.
  destruct H as (final & Hrun & _ & Ht & _ & -> & -> & -> & ->).
  apply invoke_session_inv in Hrun.
  destruct Hrun as ((Hb & Hs & Hl & _) & _).
  apply _create_transaction_Ok in Ht.
  destruct Ht as (seller & fp & _ & Hfp & Hpos & _ & ->).
  simpl. unfold get_listing, remove_listing.
  split; [| split].
  - destruct (active_listings (marketplace w) !! listing_id l) eqn:Hid; simpl.
    + apply lookup_delete_eq.
    + exact Hid.
  - intros id Hid.
    destruct (active_listings (marketplace w) !! listing_id l); simpl.
    + by apply lookup_delete_ne.
    + reflexivity.
  - split.
    + destruct (active_listings (marketplace w) !! listing_id l); reflexivity.
    + rewrite Hl. auto 10.
Qed.

(** X4: a negotiation reported as failed leaves the marketplace and the
    capital, inventory and statistics of every agent as they were (the two
    agents only note the failure in their memory). Its reason is rejected
    or walked_away, its rounds are between 1 and 5, and both parties are
    agents of the market. *)
Theorem X4_failure_changes_nothing w neg_uuid trx_uuid buyer l offer w' s r h :
  start_negotiation seller_llm buyer_llm w neg_uuid trx_uuid buyer l offer
    = (w', Failed s r h) ->
  w' = w
  ∧ (s = rejected ∨ s = walked_away)
  ∧ (1 ≤ r ∧ r ≤ 5)
  ∧ is_Some (agents w !! buyer) ∧ is_Some (agents w !! lst_seller_id l).
Proof.
  intros H. apply start_negotiation_Failed in H.
  destruct H as (final & Hrun & Hacc & Hb & Hs & -> & -> & -> & ->).
  apply invoke_inv in Hrun; [| apply node_inv_initial].
  destruct Hrun as [Hr [Hact _]].
  repeat split; try assumption; try lia.
  destruct (status final); auto; contradiction.
Qed.

(** X5: in a successful negotiation the cost basis of the transaction is
    the cost basis of the item the seller holds under the product name of
    the listing; the estimate of 75% of the asking price is never used. *)
Theorem X5_cost_basis_from_inventory w neg_uuid trx_uuid buyer l offer w' t p r h :
  start_negotiation seller_llm buyer_llm w neg_uuid trx_uuid buyer l offer
    = (w', Succeeded t p r h) ->
  exists seller item,
    agents w !! lst_seller_id l = Some seller
    ∧ find_item (name (lst_product l)) (inventory seller) = Some item
    ∧ txn_cost_basis t = item_cost_basis item.
Proof.
  intros H. apply start_negotiation_Succeeded in H.
  destruct H as (final & Hrun & Hacc & Ht & _).
  apply invoke_session_inv in Hrun.
  destruct Hrun as ((Hb & Hs & Hl & _) & _ & _ & _ & Hitem & _).
  destruct Hitem as (seller & item & Hseller & Hfind); [auto 10 |].
  apply _create_transaction_Ok in Ht.
  destruct Ht as (seller' & fp & Hseller' & _ & _ & _ & ->).
  rewrite Hs, Hseller in Hseller'. injection Hseller' as <-.
  exists seller, item. rewrite Hl, Hfind. auto.
Qed.

End Outcome.

Lemma scenario_A_run_succeeded :
  start_negotiation (seller_says (counter_at 90)) (buyer_says accept_it)
    (desk_world (usd 5000) (usd 5000)) "0a1b2c3d" "4e5f6a7b" "agent_002"
    desk_listing (usd 70)
  = (scenario_A_run.1,
     Succeeded desk_sale (Some (usd 90)) 2 (result_history scenario_A_run.2)).
Proof. vm_compute. reflexivity. Defined.

Lemma walk_away_run_failed :
  start_negotiation (seller_says (counter_at 90)) buyer_fails
    (desk_world (usd 5000) (usd 5000)) "0a1b2c3d" "4e5f6a7b" "agent_002"
    desk_listing (usd 70)
  = (desk_world (usd 5000) (usd 5000),
     Failed walked_away 2 (result_history walk_away_run.2)).
Proof. vm_compute. reflexivity. Defined.

Lemma X1_witness :
  invoke (seller_says (counter_at 90)) (buyer_says accept_it)
    (agents (desk_world (usd 5000) (usd 5000))) scenario_A_initial
    = Ok scenario_A_final
  ∧ (status scenario_A_final = accepted ∨ status scenario_A_final = rejected
     ∨ status scenario_A_final = walked_away).
Proof.
  split; [exact scenario_A_returns |].
  exact (proj2 (X1_session_ends_decided (seller_says (counter_at 90))
                  (buyer_says accept_it)
                  (agents (desk_world (usd 5000) (usd 5000)))
                  "0a1b2c3d" "agent_002" desk_listing (usd 70))
           scenario_A_final scenario_A_returns).
Defined.

Lemma X2_witness :
  invoke (seller_says (counter_at 90)) (buyer_says accept_it)
    (agents (desk_world (usd 5000) (usd 5000))) scenario_A_initial
    = Ok scenario_A_final
  ∧ length (history scenario_A_final) = 3%nat
  ∧ head (history scenario_A_final)
    = Some (opening_message "agent_002" desk_listing (usd 70)).
Proof.
  split; [exact scenario_A_returns |].
  split; [vm_compute; reflexivity |].
  exact (proj1 (X2_history_shape (seller_says (counter_at 90))
                  (buyer_says accept_it)
                  (agents (desk_world (usd 5000) (usd 5000)))
                  "0a1b2c3d" "agent_002" desk_listing (usd 70)
                  scenario_A_final scenario_A_returns)).
Defined.

Lemma X3_witness :
  start_negotiation (seller_says (counter_at 90)) (buyer_says accept_it)
    (desk_world (usd 5000) (usd 5000)) "0a1b2c3d" "4e5f6a7b" "agent_002"
    desk_listing (usd 70)
  = (scenario_A_run.1,
     Succeeded desk_sale (Some (usd 90)) 2 (result_history scenario_A_run.2))
  ∧ get_listing (marketplace scenario_A_run.1) (listing_id desk_listing) = None
  ∧ completed_transactions (marketplace scenario_A_run.1)
    = (completed_transactions (marketplace (desk_world (usd 5000) (usd 5000)))
       ++ [desk_sale])%list.
Proof.
  split; [exact scenario_A_run_succeeded |].
  pose proof (X3_success_updates_market (seller_says (counter_at 90))
                (buyer_says accept_it) (desk_world (usd 5000) (usd 5000))
                "0a1b2c3d" "4e5f6a7b" "agent_002" desk_listing (usd 70)
                scenario_A_run.1 desk_sale (Some (usd 90)) 2
                (result_history scenario_A_run.2) scenario_A_run_succeeded)
    as (H1 & _ & H2 & _).
  split; [exact H1 | exact H2].
Defined.

Lemma X4_witness :
  start_negotiation (seller_says (counter_at 90)) buyer_fails
    (desk_world (usd 5000) (usd 5000)) "0a1b2c3d" "4e5f6a7b" "agent_002"
    desk_listing (usd 70)
  = (desk_world (usd 5000) (usd 5000),
     Failed walked_away 2 (result_history walk_away_run.2))
  ∧ (walked_away = rejected ∨ walked_away = walked_away).
Proof.
  split; [exact walk_away_run_failed |].
  exact (proj1 (proj2
    (X4_failure_changes_nothing (seller_says (counter_at 90))
       buyer_fails (desk_world (usd 5000) (usd 5000))
       "0a1b2c3d" "4e5f6a7b" "agent_002" desk_listing (usd 70)
       (desk_world (usd 5000) (usd 5000)) walked_away 2
       (result_history walk_away_run.2) walk_away_run_failed))).
Defined.

Lemma X5_witness :
  start_negotiation (seller_says (counter_at 90)) (buyer_says accept_it)
    (desk_world (usd 5000) (usd 5000)) "0a1b2c3d" "4e5f6a7b" "agent_002"
    desk_listing (usd 70)
  = (scenario_A_run.1,
     Succeeded desk_sale (Some (usd 90)) 2 (result_history scenario_A_run.2))
  ∧ exists seller item,
      agents (desk_world (usd 5000) (usd 5000)) !! lst_seller_id desk_listing
        = Some seller
      ∧ find_item (name (lst_product desk_listing)) (inventory seller)
        = Some item
      ∧ txn_cost_basis desk_sale = item_cost_basis item.
Proof.
  split; [exact scenario_A_run_succeeded |].
  exact (X5_cost_basis_from_inventory (seller_says (counter_at 90))
           (buyer_says accept_it) (desk_world (usd 5000) (usd 5000))
           "0a1b2c3d" "4e5f6a7b" "agent_002" desk_listing (usd 70)
           scenario_A_run.1 desk_sale (Some (usd 90)) 2
           (result_history scenario_A_run.2) scenario_A_run_succeeded).
Defined.

(** ** Offers the seller is asked to evaluate *)

Section Affordable.

Variable seller_llm :
  AgentState -> Qc -> Qc -> Qc -> Qc -> string -> Z ->
  list NegotiationMessage -> llm_output.
Variable buyer_llm :
  AgentState -> Qc -> Qc -> Listing -> string -> Z ->
  list NegotiationMessage -> llm_output.
Variable agents : gmap string AgentState.
Variable buyer : string.
Variable l : Listing.
Variable offer : Qc.
Variable buyer_st : AgentState.

Hypothesis Hcontract : buyer_keeps_contract buyer_llm.
Hypothesis Hbuyer : agents !! buyer = Some buyer_st.
Hypothesis Hopening : (offer ≤ capital buyer_st)%Qc.

(** A decision of the buyer that is neither an acceptance nor a walk-away
    is a counter that passed the validation. *)
Lemma buyer_continues_with_valid_counter self c last s r h d :
  evaluate_counter_as_buyer buyer_llm self c last l s r h = Ok d ->
  dec_action d <> ACCEPT -> dec_action d <> WALK_AWAY ->
  exists p, dec_price d = Some p ∧ (0 < p)%Qc ∧ (p ≤ capital self)%Qc.
Proof.
  intros Hd Ha Hw. apply evaluate_counter_as_buyer_Ok in Hd.
  destruct Hd as (q & _ & ->).
  destruct (buyer_llm self q last l s r h) as [| d0] eqn:Hllm;
    [simpl in Hw; contradiction |].
  destruct (dec_action (validate_counter self d0)) eqn:Hact;
    try contradiction.
  - exfalso. unfold validate_counter in Hact.
    destruct (Hcontract _ _ _ _ _ _ _ _ Hllm) as [H | [H | H]];
      rewrite H in Hact; simpl in Hact; try congruence.
    destruct (dec_price d0); [| discriminate].
    repeat (destruct (bool_decide _); [discriminate |]). congruence.
  - exfalso. unfold validate_counter in Hact.
    destruct (Hcontract _ _ _ _ _ _ _ _ Hllm) as [H | [H | H]];
      rewrite H in Hact; simpl in Hact; try congruence.
    destruct (dec_price d0); [| discriminate].
    repeat (destruct (bool_decide _); [discriminate |]). congruence.
  - apply validate_counter_COUNTER in Hact. destruct Hact as [-> Hp].
    exact Hp.
Qed.

Lemma affordable_step n st n' st' :
  node_inv n st -> session_inv agents buyer l offer n st ->
  (n = seller_evaluates ∨ n = check_rounds -> offer_affordable buyer_st st) ->
  n <> END ->
  graph_step seller_llm buyer_llm agents n st = Ok (n', st') ->
  n' = seller_evaluates ∨ n' = check_rounds -> offer_affordable buyer_st st'.
Proof.
  intros Hinv Hsess Haff Hend H Hn'.
  pose proof (session_inv_step _ _ _ _ _ _ _ _ _ _ Hinv Hsess Hend H) as Hsess'.
  apply graph_step_Ok in H. destruct H as [H ->].
  destruct Hsess as ((Hb & Hs & Hl & Ho) & _).
  destruct n; simpl in H; try contradiction.
  - (* buyer_offer *)
    destruct Hsess' as (_ & _ & _ & _ & _ & Hpos).
    apply buyer_makes_initial_offer_Ok in H. destruct H as (m & _ & ->).
    exists offer. simpl in *. rewrite Ho in *.
    split; [reflexivity |]. split; [| exact Hopening].
    apply Hpos; [discriminate | reflexivity].
  - (* seller_evaluates *)
    simpl in Hn'. unfold _route_seller_decision, follow in Hn'.
    destruct (last_action st') as [[] |]; destruct Hn'; discriminate.
  - (* buyer_evaluates *)
    apply buyer_evaluates_counter_Ok in H.
    destruct H as (b & d & txt & m & Hlook & Hd & Hm & ->).
    apply new_NegotiationMessage_Ok in Hm. destruct Hm as (-> & _ & _).
    rewrite Hb, Hbuyer in Hlook. injection Hlook as <-.
    simpl in Hn'. unfold _route_buyer_decision, follow in Hn'. simpl in Hn'.
    rewrite Hl in Hd.
    assert (Ha : dec_action d <> ACCEPT).
    { intros Ha. rewrite Ha in Hn'. destruct Hn'; discriminate. }
    assert (Hw : dec_action d <> WALK_AWAY).
    { intros Hw. rewrite Hw in Hn'. destruct Hn'; discriminate. }
    destruct (buyer_continues_with_valid_counter _ _ _ _ _ _ _ Hd Ha Hw)
      as (p & Hp & H0 & Hcap).
    exists p. unfold buyer_update. simpl.
    destruct (dec_action d); try contradiction; simpl; auto.
  - (* check_rounds *)
    injection H as <-. specialize (Haff ltac:(by right)).
    unfold check_max_rounds in *.
    destruct (bool_decide (5 ≤ current_round st)); [| exact Haff].
    simpl in Hn'. destruct Hn'; discriminate.
  - injection H as <-. simpl in Hn'. destruct Hn'; discriminate.
  - injection H as <-. simpl in Hn'. destruct Hn'; discriminate.
Qed.

Lemma reachable_affordable neg_uuid n st :
  reachable seller_llm buyer_llm agents (initial_state neg_uuid buyer l offer) n st ->
  n = seller_evaluates ∨ n = check_rounds -> offer_affordable buyer_st st.
Proof.
  intros H.
  assert (Hall : node_inv n st ∧ session_inv agents buyer l offer n st
                 ∧ (n = seller_evaluates ∨ n = check_rounds ->
                    offer_affordable buyer_st st)).
  { induction H as [| n st n' st' _ (IH1 & IH2 & IH3) Hend Hstep].
    - split; [apply node_inv_initial |].
      split; [apply session_inv_initial |].
      intros [H | H]; discriminate.
    - split; [exact (proj1 (node_inv_step _ _ _ _ _ _ _ IH1 Hend Hstep)) |].
      split; [exact (session_inv_step _ _ _ _ _ _ _ _ _ _ IH1 IH2 Hend Hstep) |].
      exact (affordable_step _ _ _ _ IH1 IH2 IH3 Hend Hstep). }
  exact (proj2 (proj2 Hall)).
Qed.

(** X6: when the buyer's policy keeps to its three actions (accept,
    counter, walk away) and the opening offer is within the buyer's
    capital, every offer the seller is asked to evaluate during the session
    is positive and within the buyer's capital; so a price the seller
    accepts is one the buyer can pay. *)
Theorem X6_seller_sees_affordable_offers neg_uuid st :
  reachable seller_llm buyer_llm agents (initial_state neg_uuid buyer l offer)
    seller_evaluates st ->
  offer_affordable buyer_st st
  ∧ (forall st',
       seller_evaluates_offer seller_llm agents st = Ok st' ->
       status st' = accepted ->
       exists p, final_price st' = Some p ∧ (0 < p)%Qc
                 ∧ (p ≤ capital buyer_st)%Qc).
Proof.
  intros Hreach.
  pose proof (reachable_affordable _ _ _ Hreach ltac:(by left)) as Haff.
  split; [exact Haff |].
  intros st' Hrun Hacc.
  pose proof (reachable_inv _ _ _ _ _ _ (node_inv_initial _ _ _ _) Hreach)
    as [_ [_ Hactive]].
  destruct (accepting_node seller_llm buyer_llm agents seller_evaluates st st')
    as (_ & Hfp & _); [congruence | exact Hrun | exact Hacc |].
  destruct Haff as (p & Hp & H0 & Hcap). exists p. rewrite Hfp. auto.
Qed.

End Affordable.

Lemma buyer_says_accept_keeps_contract :
  buyer_keeps_contract (buyer_says accept_it).
Proof. intros self counter last l s r h d [= <-]. by left. Defined.

Lemma scenario_C_state_reachable :
  reachable (seller_says accept_it) (buyer_says accept_it)
    (agents (desk_world (usd 5000) (usd 5000)))
    (initial_state "0a1b2c3d" "agent_002" desk_listing (usd 70))
    seller_evaluates scenario_C_state.
Proof.
  apply (reachable_step _ _ _ _ buyer_offer
           (initial_state "0a1b2c3d" "agent_002" desk_listing (usd 70))).
  - apply reachable_start.
  - discriminate.
  - vm_compute. reflexivity.
Defined.

Lemma X6_witness :
  reachable (seller_says accept_it) (buyer_says accept_it)
    (agents (desk_world (usd 5000) (usd 5000)))
    (initial_state "0a1b2c3d" "agent_002" desk_listing (usd 70))
    seller_evaluates scenario_C_state
  ∧ offer_affordable (agent_of "agent_002" (usd 5000) []) scenario_C_state.
Proof.
  split; [exact scenario_C_state_reachable |].
  refine (proj1 (X6_seller_sees_affordable_offers (seller_says accept_it)
                   (buyer_says accept_it)
                   (agents (desk_world (usd 5000) (usd 5000)))
                   "agent_002" desk_listing (usd 70)
                   (agent_of "agent_002" (usd 5000) [])
                   buyer_says_accept_keeps_contract _ _
                   "0a1b2c3d" scenario_C_state scenario_C_state_reachable)).
  - vm_compute. reflexivity.
  - vm_compute. discriminate.
Defined.

(** ** The two parties after a settlement *)

Lemma sum_of_from {A : Type} (f : A -> Qc) (l : list A) (a : Qc) :
  fold_left (fun acc x => (acc + f x)%Qc) l a = (a + sum_of f l)%Qc.
Proof.
  unfold sum_of. revert a. induction l as [| x l IH]; intros a; simpl.
  - ring.
  - rewrite IH, (IH (0 + f x)%Qc). ring.
Qed.

Lemma sum_of_cons {A : Type} (f : A -> Qc) (x : A) (l : list A) :
  sum_of f (x :: l) = (f x + sum_of f l)%Qc.
Proof. unfold sum_of at 1. simpl. rewrite sum_of_from. ring. Qed.


Lemma find_item_Some n inv item :
  find_item n inv = Some item -> In item inv ∧ name (item_product item) = n.
Proof.
  unfold find_item. intros H. apply List.find_some in H.
  destruct H as [Hin H]. apply bool_decide_eq_true in H. auto.
Qed.

Lemma list_remove_first_length x l :
  In x l -> S (length (list_remove_first x l)) = length l.
Proof.
  induction l as [| y l IH]; simpl; [contradiction |].
  intros Hin. destruct (decide (y = x)) as [-> | Hne]; [reflexivity |].
  simpl. f_equal. apply IH. destruct Hin; [contradiction | assumption].
Qed.


Lemma new_InventoryItem_Ok product cost item :
  new_InventoryItem product cost = Ok item ->
  item = mkInventoryItem product cost
  ∧ (0 < cost)%Qc
  ∧ (base_market_value product * Q2Qc (1 # 2) ≤ cost)%Qc
  ∧ (cost ≤ base_market_value product * 1)%Qc.
Proof.
  unfold new_InventoryItem.
  destruct (bool_decide (0 < cost)%Qc) eqn:H0; [| discriminate].
  destruct (bool_decide (cost < base_market_value product * Q2Qc (1 # 2))%Qc)
    eqn:H1; [discriminate |].
  destruct (bool_decide (base_market_value product * 1 < cost)%Qc) eqn:H2;
    [discriminate |].
  apply bool_decide_eq_true in H0. apply bool_decide_eq_false in H1, H2.
  simpl. intros [= <-]. repeat split; [exact H0 | |]; by apply Qcnot_lt_le.
Qed.

(** The entries of the buyer and of the seller after a settlement that
    moved the item, when they are two different agents. *)
Lemma settlement_entries agents t b s item agents' :
  agents !! txn_buyer_id t = Some b ->
  agents !! txn_seller_id t = Some s ->
  txn_buyer_id t <> txn_seller_id t ->
  find_item (name (txn_product t)) (inventory s) = Some item ->
  _complete_transaction agents t = (agents', Ok tt) ->
  new_InventoryItem (txn_product t) (txn_cost_basis t)
    = Ok (mkInventoryItem (txn_product t) (txn_cost_basis t))
  ∧ agents' !! txn_buyer_id t
    = Some (add_transaction_memory t
              (set_capital (capital b + txn_cost_basis t)%Qc
                 (set_inventory
                    (inventory b
                     ++ [mkInventoryItem (txn_product t) (txn_cost_basis t)])%list
                    b)))
  ∧ agents' !! txn_seller_id t
    = Some (add_transaction_memory t
              (set_capital (capital s - txn_cost_basis t)%Qc
                 (set_inventory (list_remove_first item (inventory s)) s)))
  ∧ (forall id, id <> txn_buyer_id t -> id <> txn_seller_id t ->
       agents' !! id = agents !! id).
Proof.
  intros Hb Hs Hne Hitem Hrun.
  unfold _complete_transaction in Hrun. rewrite Hb, Hs, Hitem in Hrun.
  destruct (new_InventoryItem (txn_product t) (txn_cost_basis t))
    as [new_item | e] eqn:Hnew; simpl in Hrun; [| discriminate].
  pose proof (new_InventoryItem_Ok _ _ _ Hnew) as [-> _].
  injection Hrun as <-.
  split; [reflexivity |]. split; [| split].
  - rewrite lookup_alter_ne, lookup_alter_eq, lookup_alter_ne,
      lookup_alter_eq, lookup_alter_eq, lookup_alter_ne by congruence.
    rewrite Hb. reflexivity.
  - rewrite lookup_alter_eq, lookup_alter_ne, lookup_alter_eq,
      lookup_alter_ne, lookup_alter_ne, lookup_alter_eq by congruence.
    rewrite Hs. reflexivity.
  - intros id Hib His. by rewrite !lookup_alter_ne by congruence.
Qed.

Lemma inventory_add_transaction_memory t a :
  inventory (add_transaction_memory t a) = inventory a.
Proof. unfold add_transaction_memory. by destruct (bool_decide _). Qed.

(** X7: a settlement that completes between two different agents, whose
    seller holds an item with the product name of the transaction, takes
    the first such item out of the seller's inventory and appends to the
    buyer's inventory a new item with the product and the cost basis of the
    transaction (the seller's cost, not the price paid), valid for that
    product; the seller ends with one item less and the buyer with one
    more. *)
Theorem X7_settlement_moves_item agents t b s item agents' :
  agents !! txn_buyer_id t = Some b ->
  agents !! txn_seller_id t = Some s ->
  txn_buyer_id t <> txn_seller_id t ->
  find_item (name (txn_product t)) (inventory s) = Some item ->
  _complete_transaction agents t = (agents', Ok tt) ->
  inventory <$> agents' !! txn_seller_id t
    = Some (list_remove_first item (inventory s))
  ∧ inventory <$> agents' !! txn_buyer_id t
    = Some (inventory b
            ++ [mkInventoryItem (txn_product t) (txn_cost_basis t)])%list
  ∧ S (length (list_remove_first item (inventory s))) = length (inventory s)
  ∧ (base_market_value (txn_product t) * Q2Qc (1 # 2) ≤ txn_cost_basis t)%Qc
  ∧ (txn_cost_basis t ≤ base_market_value (txn_product t) * 1)%Qc.
Proof.
  intros Hb Hs Hne Hitem Hrun.
  destruct (settlement_entries _ _ _ _ _ _ Hb Hs Hne Hitem Hrun)
    as (Hnew & Hb' & Hs' & _).
  apply new_InventoryItem_Ok in Hnew. destruct Hnew as (_ & _ & Hlo & Hhi).
  rewrite Hb', Hs'. simpl. rewrite !inventory_add_transaction_memory. simpl.
  repeat split; try assumption.
  apply list_remove_first_length. exact (proj1 (find_item_Some _ _ _ Hitem)).
Qed.


(** X9: in a settlement that completes between two different agents
    stored under their own ids, the seller counts one more sale and adds
    the profit of the transaction (final price minus cost basis, negative
    for a sale below cost) to its total profit; the buyer counts one more
    purchase and its profit is unchanged. *)
Theorem X9_settlement_statistics agents t b s agents' :
  agents !! txn_buyer_id t = Some b ->
  agents !! txn_seller_id t = Some s ->
  txn_buyer_id t <> txn_seller_id t ->
  agent_id b = txn_buyer_id t ->
  agent_id s = txn_seller_id t ->
  _complete_transaction agents t = (agents', Ok tt) ->
  exists b' s',
    agents' !! txn_buyer_id t = Some b' ∧ agents' !! txn_seller_id t = Some s'
    ∧ total_sales s' = total_sales s + 1
    ∧ total_purchases s' = total_purchases s
    ∧ total_profit s'
      = (total_profit s + (txn_final_price t - txn_cost_basis t))%Qc
    ∧ total_purchases b' = total_purchases b + 1
    ∧ total_sales b' = total_sales b
    ∧ total_profit b' = total_profit b.
Proof.
  intros Hb Hs Hne Hbid Hsid Hrun.
  unfold _complete_transaction in Hrun. rewrite Hb, Hs in Hrun.
  assert (Hstat : forall fb fs (m : gmap string AgentState),
            m !! txn_buyer_id t = Some (fb b) ->
            m !! txn_seller_id t = Some (fs s) ->
            agent_id (fb b) = agent_id b -> agent_id (fs s) = agent_id s ->
            total_sales (fb b) = total_sales b ->
            total_purchases (fb b) = total_purchases b ->
            total_profit (fb b) = total_profit b ->
            total_sales (fs s) = total_sales s ->
            total_purchases (fs s) = total_purchases s ->
            total_profit (fs s) = total_profit s ->
            exists b' s',
              alter (add_transaction_memory t) (txn_seller_id t)
                (alter (add_transaction_memory t) (txn_buyer_id t) m)
                !! txn_buyer_id t = Some b'
              ∧ alter (add_transaction_memory t) (txn_seller_id t)
                  (alter (add_transaction_memory t) (txn_buyer_id t) m)
                  !! txn_seller_id t = Some s'
              ∧ total_sales s' = total_sales s + 1
              ∧ total_purchases s' = total_purchases s
              ∧ total_profit s'
                = (total_profit s + (txn_final_price t - txn_cost_basis t))%Qc
              ∧ total_purchases b' = total_purchases b + 1
              ∧ total_sales b' = total_sales b
              ∧ total_profit b' = total_profit b).
  { intros fb fs m Hmb Hms Hib His H1 H2 H3 H4 H5 H6.
    exists (add_transaction_memory t (fb b)), (add_transaction_memory t (fs s)).
    rewrite lookup_alter_ne, lookup_alter_eq, Hmb by congruence.
    rewrite lookup_alter_eq, lookup_alter_ne, Hms by congruence.
    split; [reflexivity |]. split; [reflexivity |].
    unfold add_transaction_memory.
    rewrite (bool_decide_eq_true_2 (txn_seller_id t = agent_id (fs s)))
      by congruence.
    rewrite (bool_decide_eq_false_2 (txn_seller_id t = agent_id (fb b)))
      by congruence.
    simpl. unfold profit. rewrite H1, H2, H3, H4, H5, H6. auto 10. }
  destruct (find_item (name (txn_product t)) (inventory s)) as [item |];
    simpl in Hrun.
  - destruct (new_InventoryItem (txn_product t) (txn_cost_basis t))
      as [new_item | e]; simpl in Hrun; [| discriminate].
    injection Hrun as <-.
    apply (Hstat
             (fun a => set_capital (capital (set_inventory (inventory a ++ [new_item])%list a) + txn_cost_basis t)%Qc
                         (set_inventory (inventory a ++ [new_item])%list a))
             (fun a => set_capital (capital (set_inventory (list_remove_first item (inventory a)) a) - txn_cost_basis t)%Qc
                         (set_inventory (list_remove_first item (inventory a)) a)));
      try reflexivity.
    + rewrite lookup_alter_ne, lookup_alter_eq, lookup_alter_eq,
        lookup_alter_ne by congruence.
      rewrite Hb. reflexivity.
    + rewrite lookup_alter_eq, lookup_alter_ne, lookup_alter_ne,
        lookup_alter_eq by congruence.
      rewrite Hs. reflexivity.
  - injection Hrun as <-.
    apply (Hstat
             (fun a => set_capital (capital a + txn_cost_basis t)%Qc a)
             (fun a => set_capital (capital a - txn_cost_basis t)%Qc a));
      try reflexivity.
    + rewrite lookup_alter_ne, lookup_alter_eq by congruence.
      rewrite Hb. reflexivity.
    + rewrite lookup_alter_eq, lookup_alter_ne by congruence.
      rewrite Hs. reflexivity.
Qed.

(** X10: the settlement is not atomic. When the seller holds the item but
    the item built for the buyer fails the validation of [InventoryItem]
    (a cost basis that is not positive or lies outside 50% to 100% of the
    market value of the product), the settlement raises after the item has
    left the seller's inventory: the seller has lost the item, the buyer
    has received nothing, and no capital has moved. *)
Theorem X10_settlement_not_atomic agents t b s item e :
  agents !! txn_buyer_id t = Some b ->
  agents !! txn_seller_id t = Some s ->
  txn_buyer_id t <> txn_seller_id t ->
  find_item (name (txn_product t)) (inventory s) = Some item ->
  new_InventoryItem (txn_product t) (txn_cost_basis t) = Raise e ->
  exists agents',
    _complete_transaction agents t = (agents', Raise ValidationError)
    ∧ agents' !! txn_seller_id t
      = Some (set_inventory (list_remove_first item (inventory s)) s)
    ∧ S (length (list_remove_first item (inventory s))) = length (inventory s)
    ∧ agents' !! txn_buyer_id t = Some b
    ∧ capitals agents' = capitals agents.
Proof.
  intros Hb Hs Hne Hitem Hnew.
  assert (He : e = ValidationError).
  { unfold new_InventoryItem in Hnew.
    destruct (_ && _); congruence. }
  subst e.
  unfold _complete_transaction. rewrite Hb, Hs, Hitem, Hnew. simpl.
  eexists. split; [reflexivity |].
  rewrite lookup_alter_eq, lookup_alter_ne, Hs, Hb by congruence. simpl.
  repeat split.
  - apply list_remove_first_length. exact (proj1 (find_item_Some _ _ _ Hitem)).
  - apply map_eq. intros i. unfold capitals. rewrite !lookup_fmap.
    destruct (decide (txn_seller_id t = i)) as [<- | Hi].
    + rewrite lookup_alter_eq, Hs. reflexivity.
    + by rewrite lookup_alter_ne.
Qed.

Lemma desk_sale_settles :
  _complete_transaction (agents (desk_world (usd 5000) (usd 5000))) desk_sale
  = (desk_sale_settled, Ok tt).
Proof. vm_compute. reflexivity. Defined.

Lemma X7_witness :
  _complete_transaction (agents (desk_world (usd 5000) (usd 5000))) desk_sale
    = (desk_sale_settled, Ok tt)
  ∧ inventory <$> desk_sale_settled !! txn_seller_id desk_sale
    = Some (list_remove_first (mkInventoryItem desk (usd 60))
              (inventory (agent_of "agent_001" (usd 5000)
                            [mkInventoryItem desk (usd 60)])))
  ∧ inventory <$> desk_sale_settled !! txn_buyer_id desk_sale
    = Some (inventory (agent_of "agent_002" (usd 5000) [])
            ++ [mkInventoryItem (txn_product desk_sale)
                  (txn_cost_basis desk_sale)])%list.
Proof.
  split; [exact desk_sale_settles |].
  destruct (X7_settlement_moves_item
              (agents (desk_world (usd 5000) (usd 5000))) desk_sale
              (agent_of "agent_002" (usd 5000) [])
              (agent_of "agent_001" (usd 5000) [mkInventoryItem desk (usd 60)])
              (mkInventoryItem desk (usd 60)) desk_sale_settled)
    as (Hseller & Hbuyer & _); try (vm_compute; reflexivity).
  - vm_compute. discriminate.
  - split; [exact Hseller | exact Hbuyer].
Defined.


Lemma X9_witness :
  _complete_transaction (agents (desk_world (usd 5000) (usd 5000))) desk_sale
    = (desk_sale_settled, Ok tt)
  ∧ exists b' s',
      desk_sale_settled !! txn_buyer_id desk_sale = Some b'
      ∧ desk_sale_settled !! txn_seller_id desk_sale = Some s'
      ∧ total_sales s' = 1 ∧ total_purchases b' = 1
      ∧ total_profit s' = (0 + (usd 90 - usd 60))%Qc.
Proof.
  split; [exact desk_sale_settles |].
  destruct (X9_settlement_statistics
              (agents (desk_world (usd 5000) (usd 5000))) desk_sale
              (agent_of "agent_002" (usd 5000) [])
              (agent_of "agent_001" (usd 5000) [mkInventoryItem desk (usd 60)])
              desk_sale_settled)
    as (b' & s' & Hb & Hs & H1 & _ & H2 & H3 & _);
    try (vm_compute; reflexivity).
  - vm_compute. discriminate.
  - exists b', s'. auto.
Defined.

Lemma X10_witness :
  exists agents',
    _complete_transaction (agents (desk_world (usd 5000) (usd 5000)))
      desk_sale_underpriced = (agents', Raise ValidationError)
    ∧ agents' !! txn_seller_id desk_sale_underpriced
      = Some (set_inventory
                (list_remove_first (mkInventoryItem desk (usd 60))
                   (inventory (agent_of "agent_001" (usd 5000)
                                 [mkInventoryItem desk (usd 60)])))
                (agent_of "agent_001" (usd 5000) [mkInventoryItem desk (usd 60)]))
    ∧ agents' !! txn_buyer_id desk_sale_underpriced
      = Some (agent_of "agent_002" (usd 5000) []).
Proof.
  destruct (X10_settlement_not_atomic
              (agents (desk_world (usd 5000) (usd 5000))) desk_sale_underpriced
              (agent_of "agent_002" (usd 5000) [])
              (agent_of "agent_001" (usd 5000) [mkInventoryItem desk (usd 60)])
              (mkInventoryItem desk (usd 60)) ValidationError)
    as (agents' & Hrun & Hs & _ & Hb & _);
    try (vm_compute; reflexivity).
  - vm_compute. discriminate.
  - exists agents'. auto.
Defined.

(** ** The marketplace *)

Lemma new_Listing_Ok id seller product price minimum reasoning l :
  new_Listing id seller product price minimum reasoning = Ok l ->
  l = mkListing id seller product price minimum
  ∧ nonempty seller = true
  ∧ (0 < price)%Qc ∧ (0 < minimum)%Qc ∧ (minimum ≤ price)%Qc.
Proof.
  unfold new_Listing.
  destruct (nonempty id); [| discriminate].
  destruct (nonempty seller); [| discriminate].
  destruct (bool_decide (0 < price)%Qc) eqn:H1; [| discriminate].
  destruct (bool_decide (0 < minimum)%Qc) eqn:H2; [| discriminate].
  destruct (bool_decide (price < minimum)%Qc) eqn:H3; [discriminate |].
  destruct (nonempty reasoning); [| discriminate].
  apply bool_decide_eq_true in H1, H2. apply bool_decide_eq_false in H3.
  simpl. intros [= <-]. repeat split; try assumption. by apply Qcnot_lt_le.
Qed.

Lemma post_listing_Ok uuid seller product price minimum reasoning m m' l :
  post_listing uuid seller product price minimum reasoning m = Ok (m', l) ->
  l = mkListing ("listing_" +:+ uuid) seller product price minimum
  ∧ m' = mkMarketplace (<[listing_id l := l]> (active_listings m))
           (removed_listings m) (completed_transactions m)
  ∧ (0 < minimum)%Qc ∧ (minimum ≤ price)%Qc.
Proof.
  unfold post_listing. intros H. apply rbind_Ok in H.
  destruct H as (l0 & Hl & H). injection H as <- <-.
  apply new_Listing_Ok in Hl. destruct Hl as (-> & _ & _ & H0 & Hle). auto.
Qed.

Lemma elem_of_get_all_listings m l :
  l ∈ get_all_listings m <-> exists id, active_listings m !! id = Some l.
Proof.
  unfold get_all_listings. rewrite list_elem_of_fmap. split.
  - intros ([id l'] & -> & Hin). apply elem_of_map_to_list in Hin. eauto.
  - intros (id & Hid). exists (id, l). split; [reflexivity |].
    by apply elem_of_map_to_list.
Qed.

Lemma market_wf_remove_listing id m :
  market_wf m -> market_wf (remove_listing id m).
Proof.
  unfold market_wf, remove_listing. intros Hwf id' l.
  destruct (active_listings m !! id) eqn:Hid; simpl; [| apply Hwf].
  intros H. apply lookup_delete_Some in H. destruct H as [_ H]. by apply Hwf.
Qed.

Lemma remove_listing_lookup id m :
  active_listings (remove_listing id m) !! id = None.
Proof.
  unfold remove_listing.
  destruct (active_listings m !! id) eqn:Hid; simpl; [| exact Hid].
  apply lookup_delete_eq.
Qed.

(** X11: [remove_listing] takes the listing out of the active ones and
    leaves the others in place; a listing that was active is appended to
    the removed ones, an unknown identifier changes nothing; removing twice
    is the same as removing once, and the second call reports that nothing
    was found. *)
Theorem X11_remove_listing_effects id m :
  get_listing (remove_listing id m) id = None
  ∧ (forall id', id' <> id ->
       get_listing (remove_listing id m) id' = get_listing m id')
  ∧ removed_listings (remove_listing id m)
    = (removed_listings m
       ++ match get_listing m id with Some l => [l] | None => [] end)%list
  ∧ completed_transactions (remove_listing id m) = completed_transactions m
  ∧ remove_listing id (remove_listing id m) = remove_listing id m
  ∧ remove_listing_found id (remove_listing id m) = false.
Proof.
  split; [apply remove_listing_lookup |].
  split; [| split; [| split; [| split]]].
  - intros id' Hne. unfold get_listing, remove_listing.
    destruct (active_listings m !! id); simpl; [| reflexivity].
    by apply lookup_delete_ne.
  - unfold get_listing, remove_listing.
    destruct (active_listings m !! id); simpl; [reflexivity |].
    by rewrite app_nil_r.
  - unfold remove_listing. by destruct (active_listings m !! id).
  - unfold remove_listing at 1. by rewrite remove_listing_lookup.
  - unfold remove_listing_found. rewrite remove_listing_lookup.
    apply bool_decide_eq_false. by intros [x Hx].
Qed.

(** X12: a listing that [post_listing] accepts can be read back under its
    identifier, which is listing_ followed by the given digits; it carries
    the seller, product and prices given, with a positive minimum that does
    not exceed the asking price; the other listings, the removed listings
    and the transactions are untouched; and the listing is offered to every
    agent but its seller. *)
Theorem X12_post_listing_round_trip
    uuid seller product price minimum reasoning m m' l :
  post_listing uuid seller product price minimum reasoning m = Ok (m', l) ->
  get_listing m' (listing_id l) = Some l
  ∧ l = mkListing ("listing_" +:+ uuid) seller product price minimum
  ∧ ((0 < minimum)%Qc ∧ (minimum ≤ price)%Qc)
  ∧ (forall id, id <> listing_id l -> get_listing m' id = get_listing m id)
  ∧ removed_listings m' = removed_listings m
  ∧ completed_transactions m' = completed_transactions m
  ∧ (forall other, other <> seller ->
       l ∈ get_listings_excluding_seller m' other)
  ∧ l ∉ get_listings_excluding_seller m' seller.
Proof.
  intros H. apply post_listing_Ok in H. destruct H as (Hl & -> & H0 & Hle).
  unfold get_listing. simpl.
  split; [apply lookup_insert_eq |]. split; [exact Hl |].
  split; [auto |]. split; [| split; [reflexivity | split; [reflexivity |]]].
  - intros id Hne. by apply lookup_insert_ne.
  - unfold get_listings_excluding_seller. split.
    + intros other Hne. apply list_elem_of_filter. split.
      * rewrite Hl. simpl. congruence.
      * apply elem_of_get_all_listings. exists (listing_id l). simpl.
        apply lookup_insert_eq.
    + intros Hin. apply list_elem_of_filter in Hin. destruct Hin as [Hne _].
      apply Hne. rewrite Hl. reflexivity.
Qed.

Lemma elem_of_get_listings_excluding_seller m seller l :
  l ∈ get_listings_excluding_seller m seller
  <-> (exists id, get_listing m id = Some l) ∧ lst_seller_id l <> seller.
Proof.
  unfold get_listings_excluding_seller, get_listing.
  rewrite list_elem_of_filter, elem_of_get_all_listings. tauto.
Qed.

Section MarketInvariant.

Variable seller_llm :
  AgentState -> Qc -> Qc -> Qc -> Qc -> string -> Z ->
  list NegotiationMessage -> llm_output.
Variable buyer_llm :
  AgentState -> Qc -> Qc -> Listing -> string -> Z ->
  list NegotiationMessage -> llm_output.

Lemma start_negotiation_marketplace w neg_uuid trx_uuid buyer l offer :
  let w' := (start_negotiation seller_llm buyer_llm w neg_uuid trx_uuid
               buyer l offer).1 in
  marketplace w' = marketplace w
  ∨ exists t, marketplace w'
              = record_transaction t
                  (remove_listing (listing_id l) (marketplace w)).
Proof.
  cbv zeta. unfold start_negotiation.
  destruct (invoke _ _ _ _) as [final | e]; [| by left].
  destruct (bool_decide (status final = accepted)).
  - destruct (_create_transaction _ _ _) as [t | e]; [| by left].
    right. exists t. by destruct (_complete_transaction (agents w) t).2.
  - destruct (agents w !! buyer), (agents w !! lst_seller_id l); by left.
Qed.

(** X13: every active listing is stored under its own identifier. This
    holds of the empty marketplace and is kept by [post_listing],
    [remove_listing], [record_transaction] and [start_negotiation]. *)
Theorem X13_listings_keyed_by_id :
  market_wf empty_market
  ∧ (forall uuid seller product price minimum reasoning m m' l,
       market_wf m ->
       post_listing uuid seller product price minimum reasoning m
         = Ok (m', l) ->
       market_wf m')
  ∧ (forall id m, market_wf m -> market_wf (remove_listing id m))
  ∧ (forall t m, market_wf m -> market_wf (record_transaction t m))
  ∧ (forall w neg_uuid trx_uuid buyer l offer,
       market_wf (marketplace w) ->
       market_wf (marketplace
                    (start_negotiation seller_llm buyer_llm w neg_uuid
                       trx_uuid buyer l offer).1)).
Proof.
  split; [| split; [| split; [| split]]].
  - intros id l H. simpl in H. by rewrite lookup_empty in H.
  - intros uuid seller product price minimum reasoning m m' l Hwf H.
    apply post_listing_Ok in H. destruct H as (_ & -> & _).
    intros id l'. simpl. intros H. apply lookup_insert_Some in H.
    destruct H as [[<- <-] | [_ H]]; [reflexivity | by apply Hwf].
  - apply market_wf_remove_listing.
  - intros t m Hwf. exact Hwf.
  - intros w neg_uuid trx_uuid buyer l offer Hwf.
    destruct (start_negotiation_marketplace w neg_uuid trx_uuid buyer l offer)
      as [-> | (t & ->)]; [exact Hwf |].
    by apply market_wf_remove_listing.
Qed.

End MarketInvariant.

(** ** From browsing to a session *)

Section BrowsingFacts.

Variable listings_llm :
  AgentState -> list Listing -> MarketSnapshot -> browse_output.

Lemma evaluate_listings_Some self available snapshot l p :
  evaluate_listings listings_llm self available snapshot = Some (l, p) ->
  exists d n,
    listings_llm self available snapshot = BrowseDecision d
    ∧ interested d = true ∧ listing_number d = Some n
    ∧ (1 ≤ n ∧ n ≤ Z.of_nat (length available))
    ∧ available !! Z.to_nat (n - 1) = Some l
    ∧ offer_price d = Some p
    ∧ (0 < p)%Qc ∧ (p ≤ capital self)%Qc.
Proof.
  unfold evaluate_listings. intros H.
  destruct available as [| l0 rest] eqn:Hav; [discriminate |].
  rewrite <- Hav in *. clear Hav.
  destruct (listings_llm self available snapshot) as [| d]; [discriminate |].
  destruct (interested d) eqn:Hint; [| discriminate].
  destruct (listing_number d) as [n |] eqn:Hn; [| discriminate].
  destruct (bool_decide (n < 1 ∨ _)) eqn:Hrange; [discriminate |].
  apply bool_decide_eq_false in Hrange.
  destruct (available !! Z.to_nat (n - 1)) as [target |] eqn:Hl;
    [| discriminate].
  destruct (offer_price d) as [q |] eqn:Hq; [| discriminate].
  destruct (bool_decide (q ≤ 0)%Qc) eqn:H0; [discriminate |].
  destruct (bool_decide (capital self < q)%Qc) eqn:Hcap; [discriminate |].
  apply bool_decide_eq_false in H0, Hcap. injection H as <- <-.
  exists d, n. repeat split; try assumption; try lia.
  - by apply Qcnot_le_lt.
  - by apply Qcnot_lt_le.
Qed.

(** X14: whatever the policy answers, an opportunity that
    [evaluate_listings] returns names one of the listings it was given,
    the one at the position the policy chose (counted from 1), and offers
    the price the policy chose, which is positive and within the agent's
    capital. *)
Theorem X14_evaluate_listings_guard self available snapshot l p :
  evaluate_listings listings_llm self available snapshot = Some (l, p) ->
  l ∈ available
  ∧ ((0 < p)%Qc ∧ (p ≤ capital self)%Qc)
  ∧ exists d n,
      listings_llm self available snapshot = BrowseDecision d
      ∧ interested d = true ∧ listing_number d = Some n
      ∧ offer_price d = Some p
      ∧ available !! Z.to_nat (n - 1) = Some l.
Proof.
  intros H. apply evaluate_listings_Some in H.
  destruct H as (d & n & Hllm & Hint & Hn & _ & Hl & Hq & H0 & Hcap).
  split; [by eapply list_elem_of_lookup_2 |]. split; [auto |].
  exists d, n. auto.
Qed.

Lemma browse_Some w snapshot key agent o :
  browse listings_llm w snapshot key agent = Some o ->
  (Qc_of_Z 200 ≤ capital agent)%Qc
  ∧ (length (inventory agent) < 5)%nat
  ∧ opp_buyer_id o = agent_id agent
  ∧ evaluate_listings listings_llm agent
      (get_listings_excluding_seller (marketplace w) key) snapshot
    = Some (opp_listing o, offered_price o).
Proof.
  unfold browse. intros H.
  destruct (bool_decide (capital agent < Qc_of_Z 200)%Qc) eqn:Hcap;
    [discriminate |].
  destruct (bool_decide (5 ≤ length (inventory agent))%nat) eqn:Hinv;
    [discriminate |].
  apply bool_decide_eq_false in Hcap, Hinv.
  destruct (get_listings_excluding_seller (marketplace w) key)
    as [| l0 rest] eqn:Hav; [discriminate |].
  destruct (evaluate_listings _ _ _ _) as [[l p] |]; [| discriminate].
  injection H as <-. simpl.
  repeat split; [by apply Qcnot_lt_le | lia].
Qed.

End BrowsingFacts.

Section BrowseThenNegotiate.

Variable listings_llm :
  AgentState -> list Listing -> MarketSnapshot -> browse_output.
Variable seller_llm :
  AgentState -> Qc -> Qc -> Qc -> Qc -> string -> Z ->
  list NegotiationMessage -> llm_output.
Variable buyer_llm :
  AgentState -> Qc -> Qc -> Listing -> string -> Z ->
  list NegotiationMessage -> llm_output.

(** X15: every opportunity of the browsing phase comes from an agent
    with a capital of at least 200 and fewer than five items, targets an
    active listing of another seller and offers a positive price within the
    agent's capital. When the agents are stored under their own ids and
    the listings under their identifiers, the negotiation phase does not
    skip such an opportunity on the same market: it starts a session on
    that listing at that price. *)
Theorem X15_browsed_opportunity_negotiated w o :
  o ∈ run_browsing_phase listings_llm w ->
  (forall key a, agents w !! key = Some a -> agent_id a = key) ->
  market_wf (marketplace w) ->
  exists agent,
    agents w !! opp_buyer_id o = Some agent
    ∧ ((Qc_of_Z 200 ≤ capital agent)%Qc ∧ (length (inventory agent) < 5)%nat)
    ∧ lst_seller_id (opp_listing o) <> opp_buyer_id o
    ∧ ((0 < offered_price o)%Qc ∧ (offered_price o ≤ capital agent)%Qc)
    ∧ forall neg_uuid trx_uuid,
        run_opportunity seller_llm buyer_llm w neg_uuid trx_uuid o
        = Some (start_negotiation seller_llm buyer_llm w neg_uuid trx_uuid
                  (opp_buyer_id o) (opp_listing o) (offered_price o)).
Proof.
  intros Hin Hids Hwf. unfold run_browsing_phase in Hin.
  apply list_elem_of_omap in Hin. destruct Hin as ([key agent] & Hentry & H).
  apply elem_of_map_to_list in Hentry. simpl in H.
  pose proof (Hids _ _ Hentry) as Hid.
  apply browse_Some in H. destruct H as (Hcap & Hinv & Hbuyer & H).
  apply evaluate_listings_Some in H.
  destruct H as (d & n & _ & _ & _ & _ & Hl & _ & H0 & Hle).
  apply list_elem_of_lookup_2 in Hl.
  apply elem_of_get_listings_excluding_seller in Hl.
  destruct Hl as [(id & Hget) Hne].
  rewrite Hbuyer, Hid. exists agent.
  split; [exact Hentry |]. split; [auto |]. split; [exact Hne |].
  split; [auto |].
  intros neg_uuid trx_uuid. unfold run_opportunity.
  pose proof (Hwf _ _ Hget) as Hkey. unfold get_listing in *.
  rewrite Hkey, Hget, Hbuyer, Hid, Hentry.
  rewrite bool_decide_eq_false_2; [reflexivity |].
  by apply Qcle_not_lt.
Qed.


End BrowseThenNegotiate.

Lemma desk_market_wf : market_wf desk_market.
Proof.
  intros id l H. simpl in H. apply lookup_insert_Some in H.
  destruct H as [[<- <-] | [_ H]]; [reflexivity |].
  by rewrite lookup_empty in H.
Defined.

Lemma desk_posted :
  post_listing "1a2b3c4d" "agent_001" desk (usd 100) (usd 80)
    "Priced at the market value" empty_market
  = Ok (desk_market, desk_listing).
Proof. vm_compute. reflexivity. Defined.

Lemma X11_witness :
  "listing_5e6f7a8b" <> "listing_1a2b3c4d"
  ∧ get_listing (remove_listing "listing_1a2b3c4d" desk_market)
      "listing_5e6f7a8b"
    = get_listing desk_market "listing_5e6f7a8b".
Proof.
  assert (Hne : "listing_5e6f7a8b" <> "listing_1a2b3c4d") by discriminate.
  split; [exact Hne |].
  exact (proj1 (proj2 (X11_remove_listing_effects "listing_1a2b3c4d"
                         desk_market)) "listing_5e6f7a8b" Hne).
Defined.

Lemma X12_witness :
  post_listing "1a2b3c4d" "agent_001" desk (usd 100) (usd 80)
    "Priced at the market value" empty_market
    = Ok (desk_market, desk_listing)
  ∧ get_listing desk_market (listing_id desk_listing) = Some desk_listing.
Proof.
  split; [exact desk_posted |].
  exact (proj1 (X12_post_listing_round_trip "1a2b3c4d" "agent_001" desk
                  (usd 100) (usd 80) "Priced at the market value"
                  empty_market desk_market desk_listing desk_posted)).
Defined.

Lemma X13_witness :
  post_listing "1a2b3c4d" "agent_001" desk (usd 100) (usd 80)
    "Priced at the market value" empty_market
    = Ok (desk_market, desk_listing)
  ∧ market_wf desk_market.
Proof.
  split; [exact desk_posted |].
  destruct (X13_listings_keyed_by_id seller_fails buyer_fails)
    as (Hempty & Hpost & _).
  exact (Hpost "1a2b3c4d" "agent_001" desk (usd 100) (usd 80)
           "Priced at the market value" empty_market desk_market desk_listing
           Hempty desk_posted).
Defined.

Lemma pick_first_evaluated :
  evaluate_listings pick_first (agent_of "agent_002" (usd 5000) [])
    [desk_listing] (get_market_snapshot desk_market)
  = Some (desk_listing, usd 70).
Proof. vm_compute. reflexivity. Defined.

Lemma X14_witness :
  evaluate_listings pick_first (agent_of "agent_002" (usd 5000) [])
    [desk_listing] (get_market_snapshot desk_market)
    = Some (desk_listing, usd 70)
  ∧ desk_listing ∈ [desk_listing]
  ∧ (0 < usd 70)%Qc ∧ (usd 70 ≤ capital (agent_of "agent_002" (usd 5000) []))%Qc.
Proof.
  split; [exact pick_first_evaluated |].
  destruct (X14_evaluate_listings_guard pick_first
              (agent_of "agent_002" (usd 5000) []) [desk_listing]
              (get_market_snapshot desk_market) desk_listing (usd 70)
              pick_first_evaluated) as (Hin & Hprice & _).
  split; [exact Hin | exact Hprice].
Defined.

Lemma desk_browsed :
  run_browsing_phase pick_first (desk_world (usd 5000) (usd 5000))
  = [desk_opportunity].
Proof. vm_compute. reflexivity. Defined.

Lemma desk_world_ids :
  forall key a,
    agents (desk_world (usd 5000) (usd 5000)) !! key = Some a ->
    agent_id a = key.
Proof.
  intros key a H. simpl in H. unfold two_agents in H.
  apply lookup_insert_Some in H. destruct H as [[<- <-] | [_ H]];
    [reflexivity |].
  apply lookup_insert_Some in H. destruct H as [[<- <-] | [_ H]];
    [reflexivity |].
  by rewrite lookup_empty in H.
Defined.

Lemma X15_witness :
  desk_opportunity ∈ run_browsing_phase pick_first
                       (desk_world (usd 5000) (usd 5000))
  ∧ exists agent,
      agents (desk_world (usd 5000) (usd 5000)) !! opp_buyer_id desk_opportunity
        = Some agent
      ∧ lst_seller_id (opp_listing desk_opportunity)
        <> opp_buyer_id desk_opportunity
      ∧ run_opportunity (seller_says (counter_at 90)) (buyer_says accept_it)
          (desk_world (usd 5000) (usd 5000)) "0a1b2c3d" "4e5f6a7b"
          desk_opportunity
        = Some (start_negotiation (seller_says (counter_at 90))
                  (buyer_says accept_it) (desk_world (usd 5000) (usd 5000))
                  "0a1b2c3d" "4e5f6a7b" (opp_buyer_id desk_opportunity)
                  (opp_listing desk_opportunity)
                  (offered_price desk_opportunity)).
Proof.
  assert (Hin : desk_opportunity ∈ run_browsing_phase pick_first
                                     (desk_world (usd 5000) (usd 5000))).
  { rewrite desk_browsed. by left. }
  split; [exact Hin |].
  destruct (X15_browsed_opportunity_negotiated pick_first
              (seller_says (counter_at 90)) (buyer_says accept_it)
              (desk_world (usd 5000) (usd 5000)) desk_opportunity
              Hin desk_world_ids desk_market_wf)
    as (agent & Hagent & _ & Hne & _ & Hrun).
  exists agent. split; [exact Hagent |]. split; [exact Hne |].
  exact (Hrun "0a1b2c3d" "4e5f6a7b").
Defined.



(** ** Pricing and the listing phase *)

Lemma new_PricingDecision_Ok price minimum reasoning d :
  new_PricingDecision price minimum reasoning = Ok d ->
  d = mkPricingDecision price minimum reasoning
  ∧ (0 < price)%Qc ∧ (0 < minimum)%Qc ∧ (minimum ≤ price)%Qc
  ∧ (10 ≤ String.length reasoning)%nat.
Proof.
  unfold new_PricingDecision.
  destruct (bool_decide (0 < price)%Qc) eqn:H1; [| discriminate].
  destruct (bool_decide (0 < minimum)%Qc) eqn:H2; [| discriminate].
  destruct (bool_decide (price < minimum)%Qc) eqn:H3; [discriminate |].
  destruct (bool_decide (10 ≤ String.length reasoning)%nat) eqn:H4;
    [| discriminate].
  apply bool_decide_eq_true in H1, H2, H4. apply bool_decide_eq_false in H3.
  simpl. intros [= <-]. repeat split; try assumption. by apply Qcnot_lt_le.
Qed.

Lemma new_PricingDecision_exn price minimum reasoning e :
  new_PricingDecision price minimum reasoning = Raise e -> e = ValidationError.
Proof. unfold new_PricingDecision. destruct (_ && _); congruence. Qed.

Lemma fallback_prices_ordered (cost : Qc) :
  (0 < cost)%Qc ->
  (cost < cost * Q2Qc (11 # 10))%Qc
  ∧ (cost * Q2Qc (11 # 10) < cost * Q2Qc (6 # 5))%Qc.
Proof.
  intros Hcost. split.
  - rewrite <- (Qcmult_1_r cost) at 1.
    by apply Qcmult_lt_mono_pos_l.
  - by apply Qcmult_lt_mono_pos_l.
Qed.

Lemma pricing_fallback_Ok item :
  (0 < item_cost_basis item)%Qc ->
  pricing_fallback item
  = Ok (mkPricingDecision (item_cost_basis item * Q2Qc (6 # 5))%Qc
          (item_cost_basis item * Q2Qc (11 # 10))%Qc
          "Fallback pricing due to validation error").
Proof.
  intros Hcost. destruct (fallback_prices_ordered _ Hcost) as [H1 H2].
  unfold pricing_fallback, new_PricingDecision.
  rewrite (bool_decide_eq_true_2 (0 < item_cost_basis item * Q2Qc (6 # 5))%Qc),
    (bool_decide_eq_true_2 (0 < item_cost_basis item * Q2Qc (11 # 10))%Qc),
    (bool_decide_eq_false_2
       (item_cost_basis item * Q2Qc (6 # 5)
        < item_cost_basis item * Q2Qc (11 # 10))%Qc).
  - reflexivity.
  - apply Qcle_not_lt. by apply Qclt_le_weak.
  - by transitivity (item_cost_basis item).
  - transitivity (item_cost_basis item); [assumption |].
    by transitivity (item_cost_basis item * Q2Qc (11 # 10))%Qc.
Qed.

Section ListingFacts.

Variable pricing_llm :
  AgentState -> InventoryItem -> option Qc -> pricing_output.

(** X17: every pricing decision [decide_pricing] returns has a positive
    minimum that does not exceed its asking price. When the policy raises a
    validation error, or proposes prices that fail the validation, the
    decision for an item of positive cost is the fallback: an asking price
    of 1.2 times the cost basis and a minimum of 1.1 times the cost basis,
    both above the cost. Any other exception of the policy is not caught. *)
Theorem X17_decide_pricing_fallback self item avg :
  (forall d, decide_pricing pricing_llm self item avg = Ok d ->
     (0 < pd_minimum_acceptable d)%Qc
     ∧ (pd_minimum_acceptable d ≤ pd_listing_price d)%Qc)
  ∧ ((0 < item_cost_basis item)%Qc ->
     (pricing_llm self item avg = PricingRaises ValidationError
      ∨ exists price minimum reasoning,
          pricing_llm self item avg = PricingProposal price minimum reasoning
          ∧ new_PricingDecision price minimum reasoning
            = Raise ValidationError) ->
     decide_pricing pricing_llm self item avg
     = Ok (mkPricingDecision (item_cost_basis item * Q2Qc (6 # 5))%Qc
             (item_cost_basis item * Q2Qc (11 # 10))%Qc
             "Fallback pricing due to validation error")
     ∧ (item_cost_basis item < item_cost_basis item * Q2Qc (11 # 10))%Qc
     ∧ (item_cost_basis item * Q2Qc (11 # 10)
        < item_cost_basis item * Q2Qc (6 # 5))%Qc)
  ∧ (forall e, e <> ValidationError ->
       pricing_llm self item avg = PricingRaises e ->
       decide_pricing pricing_llm self item avg = Raise e).
Proof.
  split; [| split].
  - intros d H. unfold decide_pricing in H.
    assert (Hvalid : forall p m r,
              new_PricingDecision p m r = Ok d ->
              (0 < pd_minimum_acceptable d)%Qc
              ∧ (pd_minimum_acceptable d ≤ pd_listing_price d)%Qc).
    { intros p m r Hd. apply new_PricingDecision_Ok in Hd.
      destruct Hd as (-> & _ & H0 & Hle & _). auto. }
    destruct (pricing_llm self item avg) as [p m r | e].
    + destruct (new_PricingDecision p m r) as [d0 | e] eqn:Hd.
      * injection H as <-. by apply (Hvalid p m r).
      * destruct e; try discriminate. by apply Hvalid in H.
    + destruct e; try discriminate. by apply Hvalid in H.
  - intros Hcost Hfail.
    destruct (fallback_prices_ordered _ Hcost) as [H1 H2].
    split; [| auto]. unfold decide_pricing.
    destruct Hfail as [-> | (p & m & r & -> & ->)];
      by apply pricing_fallback_Ok.
  - intros e He Hllm. unfold decide_pricing. rewrite Hllm.
    destruct e; try reflexivity. contradiction.
Qed.



End ListingFacts.

Lemma prices_upside_down_invalid :
  exists price minimum reasoning,
    prices_upside_down (agent_of "agent_001" (usd 5000) [desk_item]) desk_item
      None
    = PricingProposal price minimum reasoning
    ∧ new_PricingDecision price minimum reasoning = Raise ValidationError.
Proof.
  exists (usd 80), (usd 100), "Ask low, accept high".
  split; [reflexivity | vm_compute; reflexivity].
Defined.

Lemma X17_witness :
  (0 < item_cost_basis desk_item)%Qc
  ∧ decide_pricing prices_upside_down
      (agent_of "agent_001" (usd 5000) [desk_item]) desk_item None
    = Ok (mkPricingDecision (item_cost_basis desk_item * Q2Qc (6 # 5))%Qc
            (item_cost_basis desk_item * Q2Qc (11 # 10))%Qc
            "Fallback pricing due to validation error").
Proof.
  assert (Hcost : (0 < item_cost_basis desk_item)%Qc)
    by (vm_compute; reflexivity).
  split; [exact Hcost |].
  exact (proj1 (proj1 (proj2 (X17_decide_pricing_fallback prices_upside_down
                                (agent_of "agent_001" (usd 5000) [desk_item])
                                desk_item None))
                  Hcost (or_intror prices_upside_down_invalid))).
Defined.




(** ** The memory of an agent *)

Lemma tail_drop {A : Type} (l : list A) : tail l = drop 1 l.
Proof. by destruct l. Qed.

(** X19: [add_transaction] keeps the five most recent transactions: on a
    memory that holds at most five, the result is the last five of the old
    ones followed by the new one; the new transaction is always the last
    one, and nothing else in the memory changes. *)
Theorem X19_add_transaction_keeps_last_five t mem :
  (length (mem_recent_transactions mem) ≤ 5)%nat ->
  let appended := (mem_recent_transactions mem ++ [t])%list in
  mem_recent_transactions (add_transaction t mem)
    = drop (length appended - 5) appended
  ∧ (length (mem_recent_transactions (add_transaction t mem)) ≤ 5)%nat
  ∧ last (mem_recent_transactions (add_transaction t mem)) = Some t
  ∧ important_events (add_transaction t mem) = important_events mem
  ∧ learned_patterns (add_transaction t mem) = learned_patterns mem
  ∧ summary (add_transaction t mem) = summary mem.
Proof.
  intros Hlen. cbv zeta. unfold add_transaction. simpl.
  assert (Happ : length (mem_recent_transactions mem ++ [t])
                 = S (length (mem_recent_transactions mem))).
  { rewrite length_app. simpl. lia. }
  assert (Hdrop : (if bool_decide
                        (5 < length (mem_recent_transactions mem ++ [t]))%nat
                   then tail (mem_recent_transactions mem ++ [t])
                   else (mem_recent_transactions mem ++ [t])%list)
                  = drop (length (mem_recent_transactions mem ++ [t]) - 5)
                      (mem_recent_transactions mem ++ [t])).
  { destruct (bool_decide _) eqn:H5.
    - apply bool_decide_eq_true in H5. rewrite tail_drop. f_equal. lia.
    - apply bool_decide_eq_false in H5.
      replace (length (mem_recent_transactions mem ++ [t]) - 5)%nat with 0%nat
        by lia.
      reflexivity. }
  rewrite Hdrop. split; [reflexivity |]. split; [| split; [| auto]].
  - rewrite length_drop. lia.
  - rewrite drop_app_le by lia. apply last_snoc.
Qed.

Lemma insert_by_importance_perm e l : insert_by_importance e l ≡ₚ e :: l.
Proof.
  induction l as [| x l IH]; simpl; [reflexivity |].
  destruct (bool_decide _); [| reflexivity].
  rewrite IH. apply Permutation_swap.
Qed.

Lemma sort_by_importance_perm l : sort_by_importance l ≡ₚ l.
Proof.
  induction l as [| x l IH]; simpl; [reflexivity |].
  rewrite insert_by_importance_perm. by rewrite IH.
Qed.

Lemma insert_by_importance_sorted e l :
  StronglySorted (fun a b => (importance b ≤ importance a)%Qc) l ->
  StronglySorted (fun a b => (importance b ≤ importance a)%Qc)
    (insert_by_importance e l).
Proof.
  induction 1 as [| x l Hsorted IH Hall]; simpl; [repeat constructor |].
  destruct (bool_decide (importance e < importance x)%Qc) eqn:Hlt.
  - apply bool_decide_eq_true in Hlt. constructor; [exact IH |].
    rewrite insert_by_importance_perm. constructor; [| exact Hall].
    by apply Qclt_le_weak.
  - apply bool_decide_eq_false, Qcnot_lt_le in Hlt.
    constructor; [by constructor |]. constructor; [exact Hlt |].
    eapply Forall_impl; [exact Hall |]. simpl. intros y Hy.
    by transitivity (importance x).
Qed.

Lemma sort_by_importance_sorted l :
  StronglySorted (fun a b => (importance b ≤ importance a)%Qc)
    (sort_by_importance l).
Proof.
  induction l as [| x l IH]; simpl; [constructor |].
  by apply insert_by_importance_sorted.
Qed.

(** An event no more important than any event of a list that ends with it
    stays last when another event is inserted. *)
Lemma insert_by_importance_last x l e :
  (importance e ≤ importance x)%Qc ->
  exists l', insert_by_importance x (l ++ [e]) = (l' ++ [e])%list
             ∧ l' ≡ₚ x :: l.
Proof.
  intros Hle. induction l as [| y l IH]; simpl.
  - rewrite bool_decide_eq_false_2 by (by apply Qcle_not_lt).
    exists [x]. auto.
  - destruct (bool_decide (importance x < importance y)%Qc).
    + destruct IH as (l' & -> & Hperm). exists (y :: l'). split; [reflexivity |].
      rewrite Hperm. apply Permutation_swap.
    + exists (x :: y :: l). auto.
Qed.

Lemma sort_by_importance_last l e :
  Forall (fun k => (importance e ≤ importance k)%Qc) l ->
  exists l', sort_by_importance (l ++ [e]) = (l' ++ [e])%list ∧ l' ≡ₚ l.
Proof.
  induction 1 as [| x l Hx Hall IH].
  - exists []. auto.
  - destruct IH as (l1 & Hsort & Hperm).
    change (sort_by_importance ((x :: l) ++ [e]))
      with (insert_by_importance x (sort_by_importance (l ++ [e]))).
    rewrite Hsort.
    destruct (insert_by_importance_last x l1 e Hx) as (l' & -> & Hperm').
    exists l'. split; [reflexivity |]. by rewrite Hperm', Hperm.
Qed.

(** X20: [add_event] keeps at most ten events. Below ten the new event is
    appended and the order is kept. On a full memory the eleven events are
    sorted by importance and the last one is dropped: the dropped event is
    no more important than any event kept, and the events kept are listed
    from the most to the least important. A new event that is no more
    important than any remembered event is itself the one dropped. *)
Theorem X20_add_event_keeps_ten_most_important e mem :
  (length (important_events mem) ≤ 10)%nat ->
  (length (important_events (add_event e mem)) ≤ 10)%nat
  ∧ ((length (important_events mem) < 10)%nat ->
     important_events (add_event e mem) = (important_events mem ++ [e])%list)
  ∧ (length (important_events mem) = 10%nat ->
     (exists dropped,
        (important_events (add_event e mem) ++ [dropped])%list
          ≡ₚ (important_events mem ++ [e])%list
        ∧ Forall (fun k => (importance dropped ≤ importance k)%Qc)
            (important_events (add_event e mem)))
     ∧ StronglySorted (fun a b => (importance b ≤ importance a)%Qc)
         (important_events (add_event e mem))
     ∧ (Forall (fun k => (importance e ≤ importance k)%Qc)
          (important_events mem) ->
        important_events (add_event e mem) ≡ₚ important_events mem))
  ∧ mem_recent_transactions (add_event e mem) = mem_recent_transactions mem
  ∧ learned_patterns (add_event e mem) = learned_patterns mem.
Proof.
  intros Hlen. unfold add_event. simpl.
  assert (Happ : length (important_events mem ++ [e])
                 = S (length (important_events mem))).
  { rewrite length_app. simpl. lia. }
  split; [| split; [| split; [| auto]]].
  - destruct (bool_decide _) eqn:H10.
    + rewrite length_take. lia.
    + apply bool_decide_eq_false in H10. lia.
  - intros Hlt. rewrite bool_decide_eq_false_2 by lia. reflexivity.
  - intros Hfull. rewrite bool_decide_eq_true_2 by lia.
    set (sorted := sort_by_importance (important_events mem ++ [e])).
    assert (Hperm : sorted ≡ₚ (important_events mem ++ [e])%list)
      by apply sort_by_importance_perm.
    assert (Hsorted : StronglySorted
              (fun a b => (importance b ≤ importance a)%Qc) sorted)
      by apply sort_by_importance_sorted.
    assert (Hlen' : length sorted = 11%nat).
    { rewrite Hperm, Happ. lia. }
    destruct (drop 10 sorted) as [| dropped rest] eqn:Hdrop.
    { apply (f_equal length) in Hdrop. rewrite length_drop in Hdrop.
      simpl in Hdrop. lia. }
    assert (rest = []) as ->.
    { apply (f_equal length) in Hdrop. rewrite length_drop in Hdrop.
      simpl in Hdrop. destruct rest; [reflexivity | simpl in Hdrop; lia]. }
    assert (Hsplit : sorted = (take 10 sorted ++ [dropped])%list).
    { rewrite <- Hdrop. symmetry. apply take_drop. }
    split; [| split].
    + exists dropped. split; [by rewrite <- Hsplit |].
      apply Forall_forall. intros k Hk.
      rewrite Hsplit in Hsorted.
      apply (StronglySorted_app_1_elem_of _ _ _ k dropped Hsorted Hk).
      by left.
    + rewrite Hsplit in Hsorted. by apply StronglySorted_app_1_l in Hsorted.
    + intros Hall.
      destruct (sort_by_importance_last _ _ Hall) as (l' & Hl' & Hperm').
      fold sorted in Hl'. rewrite Hl'.
      assert (length l' = 10%nat) by (by rewrite Hperm').
      rewrite take_app_length' by done. exact Hperm'.
Qed.

(** X21: the importance given to a transaction lies between 0.5 and 1, so
    the memory entry built from it always passes the validation:
    remembering a transaction never raises. The transaction is stored as
    the most recent one. *)
Theorem X21_transaction_importance_valid self_id t mem :
  (Q2Qc (1 # 2) ≤ _calculate_event_importance t)%Qc
  ∧ (_calculate_event_importance t ≤ 1)%Qc
  ∧ (remember_transaction self_id t mem).2 = Ok tt
  ∧ last (mem_recent_transactions (remember_transaction self_id t mem).1)
    = Some t.
Proof.
  assert (Hbounds : (Q2Qc (1 # 2) ≤ _calculate_event_importance t)%Qc
                    ∧ (_calculate_event_importance t ≤ 1)%Qc).
  { unfold _calculate_event_importance. cbv zeta.
    destruct (bool_decide (Qc_of_Z 25 < margin t)%Qc);
      [| destruct (bool_decide (Qc_of_Z 15 < margin t)%Qc);
         [| destruct (bool_decide (margin t < Qc_of_Z 5)%Qc)]];
      destruct (bool_decide (Qc_of_Z 1000 < txn_final_price t)%Qc);
      vm_compute; split; discriminate. }
  destruct Hbounds as [Hlo Hhi]. split; [exact Hlo |]. split; [exact Hhi |].
  unfold remember_transaction, new_MemoryEntry.
  rewrite (bool_decide_eq_false_2 (_calculate_event_importance t < 0)%Qc),
    (bool_decide_eq_false_2 (1 < _calculate_event_importance t)%Qc).
  - simpl. split; [reflexivity |]. unfold add_transaction. simpl.
    destruct (bool_decide _) eqn:H5; [| apply last_snoc].
    apply bool_decide_eq_true in H5.
    destruct (mem_recent_transactions mem) as [| x l]; simpl in *;
      [lia | apply last_snoc].
  - by apply Qcle_not_lt.
  - apply Qcle_not_lt. transitivity (Q2Qc (1 # 2)); [| exact Hlo].
    vm_compute. discriminate.
Qed.

(** X22: [add_negotiation_failure] never raises and never changes what the
    agent has learned about the other agent: the pattern is written under
    the literal key other_agent_id. Unless the pattern known for the other
    agent mentions difficult, that key receives the pattern followed by
    Difficult negotiator; every other key is left as it was. *)
Theorem X22_failure_pattern_under_literal_key other reason mem :
  let mem' := (add_negotiation_failure other reason mem).1 in
  let known := default "" (learned_patterns mem !! other) in
  (add_negotiation_failure other reason mem).2 = Ok tt
  ∧ (forall key, key <> "other_agent_id" ->
       learned_patterns mem' !! key = learned_patterns mem !! key)
  ∧ (contains "difficult" (lower known) = false ->
     learned_patterns mem' !! "other_agent_id"
     = Some (if nonempty known then known +:+ " Difficult negotiator "
             else " Difficult negotiator"))
  ∧ (contains "difficult" (lower known) = true ->
     learned_patterns mem' = learned_patterns mem)
  ∧ mem_recent_transactions mem' = mem_recent_transactions mem.
Proof.
  cbv zeta. unfold add_negotiation_failure.
  change (new_MemoryEntry "negotiation_failure" (FailedText other reason)
            (Q2Qc (6 # 10)) (Some other))
    with (Ok (mkMemoryEntry "negotiation_failure" (FailedText other reason)
                (Q2Qc (6 # 10)) (Some other))).
  cbv zeta. simpl learned_patterns.
  destruct (contains "difficult"
              (lower (default "" (learned_patterns mem !! other)))) eqn:Hd;
    simpl.
  - repeat split; auto; discriminate.
  - repeat split; auto; try discriminate.
    + intros key Hkey. by apply lookup_insert_ne.
    + intros _. apply lookup_insert_eq.
Qed.

Lemma X19_witness :
  (length (mem_recent_transactions five_sales) ≤ 5)%nat
  ∧ mem_recent_transactions (add_transaction desk_sale_underpriced five_sales)
    = (replicate 4 desk_sale ++ [desk_sale_underpriced])%list.
Proof.
  assert (Hlen : (length (mem_recent_transactions five_sales) ≤ 5)%nat)
    by (simpl; lia).
  split; [exact Hlen |].
  exact (proj1 (X19_add_transaction_keeps_last_five desk_sale_underpriced
                  five_sales Hlen)).
Defined.

Lemma X20_witness :
  (length (important_events ten_failures) ≤ 10)%nat
  ∧ (length (important_events (add_event minor_event ten_failures)) ≤ 10)%nat.
Proof.
  assert (Hlen : (length (important_events ten_failures) ≤ 10)%nat)
    by (simpl; lia).
  split; [exact Hlen |].
  exact (proj1 (X20_add_event_keeps_ten_most_important minor_event
                  ten_failures Hlen)).
Defined.

Lemma X22_witness :
  "agent_001" <> "other_agent_id"
  ∧ learned_patterns
      (add_negotiation_failure "agent_001" "No agreement" empty_memory).1
      !! "agent_001"
    = learned_patterns empty_memory !! "agent_001".
Proof.
  assert (Hne : "agent_001" <> "other_agent_id") by discriminate.
  split; [exact Hne |].
  exact (proj1 (proj2 (X22_failure_pattern_under_literal_key "agent_001"
                         "No agreement" empty_memory)) "agent_001" Hne).
Defined.

(** ** Accepted sessions settle *)

Lemma new_NegotiationMessage_ids r f t a p txt m :
  new_NegotiationMessage r f t a p txt = Ok m ->
  nonempty f = true ∧ nonempty t = true.
Proof.
  unfold new_NegotiationMessage.
  destruct (bool_decide (0 < r ∧ r ≤ 5)); [| discriminate].
  destruct (nonempty f); [| discriminate].
  destruct (nonempty t); [| discriminate]. auto.
Qed.

Section Settles.

Variable seller_llm :
  AgentState -> Qc -> Qc -> Qc -> Qc -> string -> Z ->
  list NegotiationMessage -> llm_output.
Variable buyer_llm :
  AgentState -> Qc -> Qc -> Listing -> string -> Z ->
  list NegotiationMessage -> llm_output.

(** Past the opening node, the opening message was built: it passed the
    validation. *)
Lemma reachable_opened agents init n st :
  reachable seller_llm buyer_llm agents init n st ->
  (n = buyer_offer -> st = init)
  ∧ (n <> buyer_offer -> exists st1, buyer_makes_initial_offer init = Ok st1).
Proof.
  induction 1 as [| n st n' st' _ [IH1 IH2] Hend Hstep].
  - split; [reflexivity | contradiction].
  - apply graph_step_Ok in Hstep. destruct Hstep as [Hrun ->].
    split.
    + intros Hn'. exfalso. destruct n; simpl in Hn'; try discriminate.
      * unfold _route_seller_decision, follow in Hn'.
        destruct (last_action st') as [[] |]; discriminate.
      * unfold _route_buyer_decision, follow in Hn'.
        destruct (last_action st') as [[] |]; discriminate.
      * unfold _route_after_round_check, follow in Hn'.
        destruct (status st'); discriminate.
    + intros _. destruct (decide (n = buyer_offer)) as [-> | Hn].
      * rewrite (IH1 eq_refl) in Hrun. simpl in Hrun. eauto.
      * by apply IH2.
Qed.

(** X23: a session that ends accepted, between a buyer known to the
    market and a seller whose item is a valid inventory item for the
    listed product, always ends in a transaction: the transaction is
    created, the settlement completes, and [start_negotiation] reports
    success with the final price, the rounds and the history of the final
    state. *)
Theorem X23_accepted_session_settles w neg_uuid trx_uuid buyer l offer final :
  invoke seller_llm buyer_llm (agents w) (initial_state neg_uuid buyer l offer)
    = Ok final ->
  status final = accepted ->
  is_Some (agents w !! buyer) ->
  (forall seller item,
     agents w !! lst_seller_id l = Some seller ->
     find_item (name (lst_product l)) (inventory seller) = Some item ->
     new_InventoryItem (lst_product l) (item_cost_basis item)
     = Ok (mkInventoryItem (lst_product l) (item_cost_basis item))) ->
  exists w' t,
    start_negotiation seller_llm buyer_llm w neg_uuid trx_uuid buyer l offer
    = (w', Succeeded t (final_price final) (current_round final)
             (history final)).
Proof.
  intros Hrun Hacc [b Hb] Hvalid.
  pose proof (invoke_inv _ _ _ _ _ (node_inv_initial neg_uuid buyer l offer) Hrun)
    as [Hround [_ Hfinal]].
  destruct (Hfinal Hacc) as [Hfp [fp Hsome]].
  pose proof (invoke_reachable _ _ _ _ _ Hrun) as Hreach.
  pose proof (reachable_session_inv _ _ _ _ _ _ _ _ _ Hreach)
    as ((Hbid & Hsid & Hl & _) & _ & _ & _ & Hitem & Hpos).
  destruct Hitem as (seller & item & Hseller & Hfind); [auto 10 |].
  assert (H0 : (0 < fp)%Qc).
  { apply Hpos; [discriminate | congruence]. }
  destruct (proj2 (reachable_opened _ _ _ _ Hreach) ltac:(discriminate))
    as (st1 & Hopen).
  apply buyer_makes_initial_offer_Ok in Hopen. destruct Hopen as (m & Hm & _).
  apply new_NegotiationMessage_ids in Hm. simpl in Hm. destruct Hm as [Hnb Hns].
  pose proof (Hvalid _ _ Hseller Hfind) as Hnew.
  pose proof (new_InventoryItem_Ok _ _ _ Hnew) as (_ & Hcost & _).
  set (t := mkTransaction ("trx_" +:+ trx_uuid) buyer (lst_seller_id l)
              (lst_product l) fp (item_cost_basis item) (current_round final)).
  assert (Ht : _create_transaction (agents w) trx_uuid final = Ok t).
  { unfold _create_transaction, getitem.
    rewrite Hsid, Hseller. cbn [rbind].
    rewrite Hl, Hfind, Hbid, Hsome.
    unfold new_Transaction. cbn [nonempty String.append]. rewrite Hnb, Hns.
    rewrite (bool_decide_eq_true_2 (0 < fp)%Qc) by exact H0.
    rewrite (bool_decide_eq_true_2 (0 < item_cost_basis item)%Qc)
      by exact Hcost.
    rewrite bool_decide_eq_true_2 by lia. reflexivity. }
  assert (Hdone : (_complete_transaction (agents w) t).2 = Ok tt).
  { unfold _complete_transaction. simpl.
    rewrite Hb, Hseller, Hfind, Hnew. reflexivity. }
  unfold start_negotiation. rewrite Hrun.
  rewrite bool_decide_eq_true_2 by exact Hacc.
  rewrite Ht. cbv zeta. rewrite Hdone. eauto.
Qed.

End Settles.

Lemma X23_witness :
  invoke (seller_says (counter_at 90)) (buyer_says accept_it)
    (agents (desk_world (usd 5000) (usd 5000)))
    (initial_state "0a1b2c3d" "agent_002" desk_listing (usd 70))
    = Ok scenario_A_final
  ∧ exists w' t,
      start_negotiation (seller_says (counter_at 90)) (buyer_says accept_it)
        (desk_world (usd 5000) (usd 5000)) "0a1b2c3d" "4e5f6a7b" "agent_002"
        desk_listing (usd 70)
      = (w', Succeeded t (final_price scenario_A_final)
               (current_round scenario_A_final) (history scenario_A_final)).
Proof.
  split; [exact scenario_A_returns |].
  apply (X23_accepted_session_settles (seller_says (counter_at 90))
           (buyer_says accept_it) (desk_world (usd 5000) (usd 5000))
           "0a1b2c3d" "4e5f6a7b" "agent_002" desk_listing (usd 70)
           scenario_A_final scenario_A_returns).
  - vm_compute. reflexivity.
  - vm_compute. eauto.
  - intros seller item Hseller Hfind.
    assert (Hs : seller = agent_of "agent_001" (usd 5000)
                            [mkInventoryItem desk (usd 60)]).
    { vm_compute in Hseller. injection Hseller as <-. vm_compute. reflexivity. }
    subst seller. vm_compute in Hfind. injection Hfind as <-.
    vm_compute. reflexivity.
Defined.

(** ** The initial inventory *)

Lemma cost_multipliers_range a :
  (Q2Qc (1 # 2) ≤ (cost_multipliers a).1)%Qc
  ∧ ((cost_multipliers a).2 ≤ 1)%Qc.
Proof. destruct a; vm_compute; split; discriminate. Qed.

(** X24: whatever the archetype, an item created for the initial
    inventory with a multiplier drawn in the range of the archetype passes
    the validation of [InventoryItem]: its cost lies between 50% and 100%
    of the base value of its product. Creating the initial inventory never
    raises, for a product with a name, a category and a positive value. *)
Theorem X24_initial_item_valid a product_name product_category base_value u :
  nonempty product_name = true ->
  nonempty product_category = true ->
  (0 < base_value)%Qc ->
  ((cost_multipliers a).1 ≤ u)%Qc ->
  (u ≤ (cost_multipliers a).2)%Qc ->
  create_inventory_item product_name product_category base_value u
  = Ok (mkInventoryItem (mkProduct product_name product_category base_value)
          (base_value * u)%Qc)
  ∧ (base_value * Q2Qc (1 # 2) ≤ base_value * u)%Qc
  ∧ (base_value * u ≤ base_value)%Qc.
Proof.
  intros Hname Hcat Hbase Hlo Hhi.
  destruct (cost_multipliers_range a) as [Hmin Hmax].
  assert (Hhalf : (Q2Qc (1 # 2) ≤ u)%Qc) by (by transitivity (cost_multipliers a).1).
  assert (Hone : (u ≤ 1)%Qc) by (by transitivity (cost_multipliers a).2).
  assert (H1 : (base_value * Q2Qc (1 # 2) ≤ base_value * u)%Qc).
  { by apply Qcmult_le_mono_pos_l. }
  assert (H2 : (base_value * u ≤ base_value * 1)%Qc).
  { by apply Qcmult_le_mono_pos_l. }
  assert (H3 : (0 < base_value * u)%Qc).
  { apply Qclt_le_trans with (base_value * Q2Qc (1 # 2))%Qc; [| exact H1].
    rewrite <- (Qcmult_0_r base_value) at 1.
    by apply Qcmult_lt_mono_pos_l. }
  split; [| split; [exact H1 | by rewrite Qcmult_1_r in H2]].
  unfold create_inventory_item, new_Product. rewrite Hname, Hcat.
  rewrite (bool_decide_eq_true_2 (0 < base_value)%Qc) by exact Hbase.
  cbn [andb rbind]. unfold new_InventoryItem. cbn [base_market_value].
  rewrite (bool_decide_eq_true_2 (0 < base_value * u)%Qc) by exact H3.
  rewrite (bool_decide_eq_false_2
             (base_value * u < base_value * Q2Qc (1 # 2))%Qc)
    by (by apply Qcle_not_lt).
  rewrite (bool_decide_eq_false_2 (base_value * 1 < base_value * u)%Qc)
    by (by apply Qcle_not_lt).
  reflexivity.
Qed.

Lemma X24_witness :
  create_inventory_item "Desk_Standing_412" "Furniture" (usd 500)
    (Q2Qc (3 # 4))
  = Ok (mkInventoryItem (mkProduct "Desk_Standing_412" "Furniture" (usd 500))
          (usd 500 * Q2Qc (3 # 4))%Qc).
Proof.
  apply (X24_initial_item_valid SPECIALIST "Desk_Standing_412" "Furniture"
           (usd 500) (Q2Qc (3 # 4)));
    try reflexivity; vm_compute; discriminate.
Defined.

(** ** Market data *)

Lemma Qc_of_Z_add (a b : Z) : Qc_of_Z (a + b) = (Qc_of_Z a + Qc_of_Z b)%Qc.
Proof.
  apply Qc_is_canon. unfold Qc_of_Z, Qcplus, Q2Qc. cbn [this].
  rewrite !Qred_correct. rewrite inject_Z_plus. reflexivity.
Qed.

Lemma Qc_of_Z_lt (a b : Z) : a < b -> (Qc_of_Z a < Qc_of_Z b)%Qc.
Proof.
  intros H. unfold Qclt, Qc_of_Z. cbn [this]. by rewrite <- Zlt_Qlt.
Qed.

Lemma Qc_of_Z_le (a b : Z) : a ≤ b -> (Qc_of_Z a ≤ Qc_of_Z b)%Qc.
Proof.
  intros H. unfold Qcle, Qc_of_Z. cbn [this]. by rewrite <- Zle_Qle.
Qed.

Lemma Qc_of_Z_0 : Qc_of_Z 0 = 0%Qc.
Proof. apply Qc_is_canon. reflexivity. Qed.

Lemma Qc_of_nat_S (n : nat) :
  Qc_of_Z (Z.of_nat (S n)) = (Qc_of_Z (Z.of_nat n) + 1)%Qc.
Proof. rewrite Nat2Z.inj_succ. unfold Z.succ. apply Qc_of_Z_add. Qed.

Lemma Qc_of_nat_pos (n : nat) :
  (0 < n)%nat -> (0 < Qc_of_Z (Z.of_nat n))%Qc.
Proof. intros H. apply (Qc_of_Z_lt 0). lia. Qed.


Lemma sum_of_constant {A : Type} (f : A -> Qc) (l : list A) (p : Qc) :
  Forall (fun x => f x = p) l ->
  sum_of f l = (p * Qc_of_Z (Z.of_nat (length l)))%Qc.
Proof.
  induction 1 as [| x l Hx _ IH].
  - unfold sum_of. cbn [fold_left length]. change (Z.of_nat 0) with 0.
    rewrite Qc_of_Z_0. ring.
  - rewrite sum_of_cons, IH, Hx. cbn [length]. rewrite Qc_of_nat_S. ring.
Qed.


Lemma half_bounds (n : nat) :
  (3 ≤ n)%nat ->
  (1 ≤ Nat.div n 2 ∧ Nat.div n 2 ≤ n ∧ n ≤ 20 * Nat.div n 2)%nat.
Proof.
  intros Hn. pose proof (Nat.div_mod_eq n 2) as Hdiv.
  pose proof (Nat.mod_upper_bound n 2 ltac:(lia)). lia.
Qed.

(** X26: the price trend is absent below three transactions of the
    category, and over validated (positive) prices the computation never
    divides by zero. Because the second average is the sum of the second
    half divided by the number of all the transactions, minus [mid], a
    category whose transactions all have the same price is reported as
    falling. *)
Theorem X26_price_trend_of_steady_prices s c :
  let category_transactions :=
    filter (fun t => category (txn_product t) = c) (recent_transactions s) in
  ((length category_transactions < 3)%nat ->
   snapshot_price_trend s c = Ok None)
  ∧ (forall p,
       (0 < p)%Qc ->
       (3 ≤ length category_transactions)%nat ->
       Forall (fun t => txn_final_price t = p) category_transactions ->
       snapshot_price_trend s c = Ok (Some falling)).
Proof.
  cbv zeta. split.
  - intros Hlt. unfold snapshot_price_trend.
    by rewrite bool_decide_eq_true_2.
  - intros p Hp Hlen Hall. unfold snapshot_price_trend.
    set (ct := filter (fun t => category (txn_product t) = c)
                 (recent_transactions s)) in *.
    rewrite bool_decide_eq_false_2 by lia.
    destruct (half_bounds _ Hlen) as (Hmid1 & Hmidn & Hmid20).
    set (mid := Nat.div (length ct) 2) in *.
    rewrite (bool_decide_eq_false_2 (mid = 0%nat)) by lia.
    cbn [negb guard rbind].
    set (M := Qc_of_Z (Z.of_nat mid)).
    set (N := Qc_of_Z (Z.of_nat (length ct))).
    assert (HM : (0 < M)%Qc) by (apply Qc_of_nat_pos; lia).
    assert (HN : (0 < N)%Qc) by (apply Qc_of_nat_pos; lia).
    assert (HM0 : M <> 0%Qc) by (by apply Qclt_not_eq, not_eq_sym in HM).
    assert (HN0 : N <> 0%Qc) by (by apply Qclt_not_eq, not_eq_sym in HN).
    assert (Hp0 : p <> 0%Qc) by (by apply Qclt_not_eq, not_eq_sym in Hp).
    assert (HNM : (N ≤ Qc_of_Z 20 * M)%Qc).
    { unfold N, M. replace (Qc_of_Z 20 * Qc_of_Z (Z.of_nat mid))%Qc
        with (Qc_of_Z (Z.of_nat (20 * mid))).
      - apply Qc_of_Z_le. lia.
      - replace (Z.of_nat (20 * mid)) with (Z.of_nat (19 * mid) + Z.of_nat mid)
          by lia.
        rewrite Qc_of_Z_add.
        assert (H19 : forall k, Qc_of_Z (Z.of_nat (k * mid))
                                = (Qc_of_Z (Z.of_nat k) * Qc_of_Z (Z.of_nat mid))%Qc).
        { induction k as [| k IH].
          - change (Z.of_nat (0 * mid)) with 0. change (Z.of_nat 0) with 0.
            rewrite Qc_of_Z_0. ring.
          - replace (Z.of_nat (S k * mid))
              with (Z.of_nat (k * mid) + Z.of_nat mid) by lia.
            rewrite Qc_of_Z_add, IH, Qc_of_nat_S. ring. }
        rewrite H19. change (Qc_of_Z (Z.of_nat 19)) with (Qc_of_Z 19).
        replace (Qc_of_Z 20) with (Qc_of_Z 19 + 1)%Qc
          by (apply Qc_is_canon; reflexivity).
        ring. }
    assert (Hfirst : (sum_of txn_final_price (take mid ct) / M)%Qc = p).
    { rewrite (sum_of_constant _ _ p) by (by apply Forall_take).
      rewrite length_take_le by lia. fold M. by apply Qcdiv_mult_l. }
    assert (Hsecond : (sum_of txn_final_price (drop mid ct))
                      = (p * (N - M))%Qc).
    { rewrite (sum_of_constant _ _ p) by (by apply Forall_drop).
      rewrite length_drop. f_equal. unfold N, M.
      replace (Z.of_nat (length ct))
        with (Z.of_nat (length ct - mid) + Z.of_nat mid) by lia.
      rewrite Qc_of_Z_add. ring. }
    rewrite Hfirst, Hsecond.
    rewrite (bool_decide_eq_false_2 (p = 0%Qc)) by exact Hp0.
    cbn [negb guard rbind].
    set (diff := ((p * (N - M) / N - M - p) / p * Qc_of_Z 100)%Qc).
    assert (Hdiff : (diff < Qc_of_Z (-5))%Qc).
    { apply (Qcmult_lt_mono_pos_r _ _ _ Hp).
      apply (Qcmult_lt_mono_pos_r _ _ _ HN).
      replace (diff * p * N)%Qc
        with ((p * (N - M) - M * N - p * N) * Qc_of_Z 100)%Qc
        by (unfold diff; field; auto).
      apply Qclt_minus_iff.
      replace (Qc_of_Z (-5) * p * N
               + - ((p * (N - M) - M * N - p * N) * Qc_of_Z 100))%Qc
        with (Qc_of_Z 5 * p * (Qc_of_Z 20 * M + - N)
              + Qc_of_Z 100 * M * N)%Qc.
      - apply Qcplus_nonneg_pos.
        + apply Qcmult_nonneg_nonneg.
          * apply Qclt_le_weak, Qcmult_pos_pos; [reflexivity | exact Hp].
          * exact (proj1 (Qcle_minus_iff _ _) HNM).
        + apply Qcmult_pos_pos; [| exact HN].
          apply Qcmult_pos_pos; [reflexivity | exact HM].
      - replace (Qc_of_Z 100) with (Qc_of_Z 5 * Qc_of_Z 20)%Qc
          by (apply Qc_is_canon; reflexivity).
        replace (Qc_of_Z (-5)) with (- Qc_of_Z 5)%Qc
          by (apply Qc_is_canon; reflexivity).
        ring. }
    rewrite (bool_decide_eq_false_2 (Qc_of_Z 5 < diff)%Qc).
    + by rewrite bool_decide_eq_true_2.
    + apply Qcle_not_lt, Qclt_le_weak.
      apply Qclt_trans with (Qc_of_Z (-5)); [exact Hdiff | reflexivity].
Qed.


Lemma X26_witness :
  (0 < usd 90)%Qc
  ∧ get_price_trend steady_market "Furniture" = Ok (Some falling).
Proof.
  split; [reflexivity |].
  apply (proj2 (X26_price_trend_of_steady_prices
                  (get_market_snapshot steady_market) "Furniture")
           (usd 90)).
  - reflexivity.
  - vm_compute. lia.
  - repeat constructor.
Defined.

(** ** Capital is conserved *)









Section Conservation.

Variable seller_llm :
  AgentState -> Qc -> Qc -> Qc -> Qc -> string -> Z ->
  list NegotiationMessage -> llm_output.
Variable buyer_llm :
  AgentState -> Qc -> Qc -> Listing -> string -> Z ->
  list NegotiationMessage -> llm_output.


End Conservation.

(** ** The buyer's standing offer *)

Lemma buyer_last_offer_snoc_buyer st h m p :
  history st = (h ++ [m])%list ->
  from_agent m = buyer_id st -> msg_price m = Some p -> p <> 0%Qc ->
  buyer_last_offer st = p.
Proof.
  intros Hh Hfrom Hprice Hp. unfold buyer_last_offer.
  rewrite Hh, rev_app_distr. simpl.
  rewrite bool_decide_eq_true_2 by exact Hfrom.
  rewrite Hprice. simpl.
  rewrite bool_decide_eq_false_2 by exact Hp. simpl. by rewrite Hprice.
Qed.

Lemma buyer_last_offer_snoc_other st st0 m :
  history st = (history st0 ++ [m])%list ->
  buyer_id st = buyer_id st0 -> initial_offer st = initial_offer st0 ->
  from_agent m <> buyer_id st0 ->
  buyer_last_offer st = buyer_last_offer st0.
Proof.
  intros Hh Hb Ho Hfrom. unfold buyer_last_offer.
  rewrite Hh, rev_app_distr, Hb, Ho. simpl.
  rewrite bool_decide_eq_false_2 by exact Hfrom. reflexivity.
Qed.

Lemma buyer_last_offer_same st st0 :
  history st = history st0 -> buyer_id st = buyer_id st0 ->
  initial_offer st = initial_offer st0 ->
  buyer_last_offer st = buyer_last_offer st0.
Proof. intros Hh Hb Ho. unfold buyer_last_offer. by rewrite Hh, Hb, Ho. Qed.

Section StandingOffer.

Variable seller_llm :
  AgentState -> Qc -> Qc -> Qc -> Qc -> string -> Z ->
  list NegotiationMessage -> llm_output.
Variable buyer_llm :
  AgentState -> Qc -> Qc -> Listing -> string -> Z ->
  list NegotiationMessage -> llm_output.
Variable agents : gmap string AgentState.
Variable buyer : string.
Variable l : Listing.
Variable offer : Qc.

Hypothesis Hparties : buyer <> lst_seller_id l.

Lemma standing_offer_step n st n' st' :
  node_inv n st -> session_inv agents buyer l offer n st ->
  (n = seller_evaluates ∨ n = check_rounds ->
   forall p, current_offer st = Some p -> buyer_last_offer st = p) ->
  n <> END ->
  graph_step seller_llm buyer_llm agents n st = Ok (n', st') ->
  n' = seller_evaluates ∨ n' = check_rounds ->
  forall p, current_offer st' = Some p -> buyer_last_offer st' = p.
Proof.
  intros Hinv Hsess Hstand Hend H Hn' p Hp.
  pose proof (session_inv_step _ _ _ _ _ _ _ _ _ _ Hinv Hsess Hend H)
    as (_ & _ & _ & _ & _ & Hpos').
  apply graph_step_Ok in H. destruct H as [H ->].
  destruct Hsess as ((Hb & Hs & Hl & Ho) & _).
  assert (Hp0 : p <> 0%Qc).
  { apply not_eq_sym, Qclt_not_eq. apply Hpos'; [| exact Hp].
    destruct Hn' as [-> | ->]; discriminate. }
  destruct n; simpl in H; try contradiction.
  - (* buyer_offer *)
    apply buyer_makes_initial_offer_Ok in H. destruct H as (m & Hm & ->).
    apply new_NegotiationMessage_Ok in Hm. destruct Hm as (-> & _ & _).
    simpl in Hp.
    injection Hp as Hp.
    apply (buyer_last_offer_snoc_buyer _ (history st)
             (mkNegotiationMessage (current_round st) (buyer_id st)
                (seller_id st) MAKE_OFFER (Some (initial_offer st))
                (InitialOfferText (initial_offer st)
                   (name (lst_product (listing st))))) p).
    + reflexivity.
    + reflexivity.
    + simpl. by rewrite Hp.
    + exact Hp0.
  - (* seller_evaluates *)
    simpl in Hn'. unfold _route_seller_decision, follow in Hn'.
    destruct (last_action st') as [[] |]; destruct Hn'; discriminate.
  - (* buyer_evaluates *)
    apply buyer_evaluates_counter_Ok in H.
    destruct H as (b & d & txt & m & _ & _ & Hm & ->).
    apply new_NegotiationMessage_Ok in Hm. destruct Hm as (-> & _ & _).
    simpl in Hn'. unfold _route_buyer_decision, follow in Hn'. simpl in Hn'.
    assert (Hprice : dec_price d = Some p).
    { unfold buyer_update in Hp. simpl in Hp. revert Hp Hn'.
      destruct (dec_action d); simpl; intros Hp Hn'; try exact Hp;
        destruct Hn'; discriminate. }
    apply (buyer_last_offer_snoc_buyer _ (history st)
             (mkNegotiationMessage (current_round st + 1) (buyer_id st)
                (seller_id st) (dec_action d) (dec_price d) txt) p).
    + simpl. unfold buyer_update. destruct (dec_action d); reflexivity.
    + simpl. unfold buyer_update. destruct (dec_action d); reflexivity.
    + exact Hprice.
    + exact Hp0.
  - (* check_rounds *)
    injection H as <-. specialize (Hstand ltac:(by right)).
    unfold check_max_rounds in *.
    destruct (bool_decide (5 ≤ current_round st)); [| by apply Hstand].
    simpl in Hn'. destruct Hn'; discriminate.
  - injection H as <-. simpl in Hn'. destruct Hn'; discriminate.
  - injection H as <-. simpl in Hn'. destruct Hn'; discriminate.
Qed.

Lemma reachable_standing_offer neg_uuid n st :
  reachable seller_llm buyer_llm agents (initial_state neg_uuid buyer l offer) n st ->
  n = seller_evaluates ∨ n = check_rounds ->
  forall p, current_offer st = Some p -> buyer_last_offer st = p.
Proof.
  intros H.
  assert (Hall : node_inv n st ∧ session_inv agents buyer l offer n st
                 ∧ (n = seller_evaluates ∨ n = check_rounds ->
                    forall p, current_offer st = Some p ->
                              buyer_last_offer st = p)).
  { induction H as [| n st n' st' _ (IH1 & IH2 & IH3) Hend Hstep].
    - split; [apply node_inv_initial |].
      split; [apply session_inv_initial |].
      intros [H | H]; discriminate.
    - split; [exact (proj1 (node_inv_step _ _ _ _ _ _ _ IH1 Hend Hstep)) |].
      split; [exact (session_inv_step _ _ _ _ _ _ _ _ _ _ IH1 IH2 Hend Hstep) |].
      exact (standing_offer_step _ _ _ _ IH1 IH2 IH3 Hend Hstep). }
  exact (proj2 (proj2 Hall)).
Qed.

(** X28: between a buyer and a seller that are two different agents, the
    last offer of the buyer that the buyer's node reads back from the
    history is the offer the seller has just answered: whenever the seller's
    node runs on an offer and the session continues, the buyer's node that
    follows finds that offer as the buyer's last offer, while the offer on
    the table has become the seller's counter. *)
Theorem X28_buyer_reads_back_its_offer neg_uuid st p st' :
  reachable seller_llm buyer_llm agents (initial_state neg_uuid buyer l offer)
    seller_evaluates st ->
  current_offer st = Some p ->
  seller_evaluates_offer seller_llm agents st = Ok st' ->
  buyer_last_offer st = p
  ∧ buyer_last_offer
      (set_current_round (current_round st' + 1) st') = p.
Proof.
  intros Hreach Hp Hrun.
  pose proof (reachable_standing_offer _ _ _ Hreach ltac:(by left) p Hp)
    as Hstand.
  split; [exact Hstand |].
  pose proof (reachable_session_inv _ _ _ _ _ _ _ _ _ Hreach)
    as ((Hb & Hs & _) & _).
  apply seller_evaluates_offer_Ok in Hrun.
  destruct Hrun as (seller & _ &
                    [[_ ->] | (item & d & txt & m & _ & _ & Hm & ->)]).
  - rewrite <- Hstand. by apply buyer_last_offer_same.
  - apply new_NegotiationMessage_Ok in Hm. destruct Hm as (-> & _ & _).
    rewrite <- Hstand.
    apply (buyer_last_offer_snoc_other _ st
             (mkNegotiationMessage (current_round st) (seller_id st)
                (buyer_id st) (dec_action d) (dec_price d) txt)).
    + simpl. unfold seller_update.
      destruct (dec_action d); try reflexivity;
        destruct (dec_price d); reflexivity.
    + simpl. unfold seller_update.
      destruct (dec_action d); try reflexivity;
        destruct (dec_price d); reflexivity.
    + simpl. unfold seller_update.
      destruct (dec_action d); try reflexivity;
        destruct (dec_price d); reflexivity.
    + simpl. congruence.
Qed.

End StandingOffer.

Lemma X28_witness :
  reachable (seller_says accept_it) (buyer_says accept_it)
    (agents (desk_world (usd 5000) (usd 5000)))
    (initial_state "0a1b2c3d" "agent_002" desk_listing (usd 70))
    seller_evaluates scenario_C_state
  ∧ buyer_last_offer scenario_C_state = usd 70.
Proof.
  split; [exact scenario_C_state_reachable |].
  refine (proj1 (X28_buyer_reads_back_its_offer (seller_says accept_it)
                   (buyer_says accept_it)
                   (agents (desk_world (usd 5000) (usd 5000)))
                   "agent_002" desk_listing (usd 70) _
                   "0a1b2c3d" scenario_C_state (usd 70)
                   (returned (seller_evaluates_offer (seller_says accept_it)
                                (agents (desk_world (usd 5000) (usd 5000)))
                                scenario_C_state) scenario_C_state)
                   scenario_C_state_reachable _ _)).
  - discriminate.
  - vm_compute. reflexivity.
  - vm_compute. reflexivity.
Defined.
